(** * Keyframe extraction and step synthesis: a shallow embedding

    The development follows [video_processor.py] (class [VideoProcessor]),
    the upload handler of [video.py], [config.py], [interface/app.py] and
    [api/main.py].

    Conventions of the embedding:
    - a Python [int] is a [Z]; a loop index drawn from [range(n)] is a [nat];
    - a Python [float] is a binary64 value, [float]: a finite rational, an
      infinity or NaN. An operation gives its exact result rounded to the
      nearest double, ties to even, with gradual underflow below [2^-1022]
      and infinity from [2^1024] on; [int()] of an infinity or of NaN
      raises, as does the conversion of an [int] too large for a double.
      The sign of a zero is not kept: no code here tells the two zeros
      apart;
    - an exception is a value of [exn]; a computation that may raise
      returns a [result];
    - code that touches the disk is a function of the set of files present
      and returns the new set next to its result; a raised exception keeps
      the files written so far;
    - the decoder, the codec, the network and the disk are [env] and
      [capture] records of outcomes, one field per external call. *)

From Stdlib Require Import ZArith QArith Qround Qabs Qpower Lia Lqa List Ascii String.
From Stdlib.Strings Require Import Byte.
From stdpp Require Import gmap strings list pretty.

Local Open Scope Z_scope.

(** ** Python prelude *)

Module Py.

Inductive exc_type :=
| ZeroDivisionError
| OverflowError
| ValueError
| TypeError
| OSError
| cv2_error
| RequestException
| IndexError
| HTTPException (status_code : Z).

Record exn := Exn { exc_class : exc_type; exc_str : string }.

Inductive result (A : Type) :=
| Ok (a : A)
| Raise (e : exn).
Arguments Ok {A} a.
Arguments Raise {A} e.

#[export] Instance result_ret : MRet result := @Ok.
#[export] Instance result_bind : MBind result := fun A B k r =>
  match r with
  | Ok a => k a
  | Raise e => Raise e
  end.

(** *** [float]: IEEE 754 binary64

    A finite double is the rational it denotes; the sign of a zero is not
    kept, as nothing in the code looks at it. Every operation gives the
    exact result rounded to the nearest double, ties to even. *)
Inductive float :=
| Finite (q : Q)
| Inf (negative : bool)
| NaN.

Definition pow2 (k : Z) : Q := (2 ^ k)%Q.

(** [floor(log2 |q|)], for [q] other than 0 *)
Definition ilog2 (q : Q) : Z :=
  let k := Z.log2 (Z.abs (Qnum q)) - Z.log2 (Z.pos (Qden q)) in
  if Qle_bool (pow2 k) (Qabs q) then k else k - 1.

(** The nearest integer, ties to even *)
Definition rne (x : Q) : Z :=
  let f := Qfloor x in
  match (x - inject_Z f ?= 1 # 2)%Q with
  | Lt => f
  | Gt => f + 1
  | Eq => if Z.even f then f else f + 1
  end.

(** The exponent of the last place of a double near [q]: 53 significant
    bits, and no place below [2^-1074] *)
Definition ulp_exp (q : Q) : Z := Z.max (ilog2 q - 52) (-1074).

(** The nearest multiple of the unit in the last place *)
Definition rnd (q : Q) : Q :=
  if Qeq_bool q 0 then 0%Q
  else (inject_Z (rne (q / pow2 (ulp_exp q))) * pow2 (ulp_exp q))%Q.

Definition is_negative (q : Q) : bool := Qnum q <? 0.

(** The double nearest to [q]; from [2^1024] on it is an infinity *)
Definition binary64 (q : Q) : float :=
  let r := rnd q in
  if Qle_bool (pow2 1024) (Qabs r) then Inf (is_negative r) else Finite r.

(** [x * y] on floats *)
Definition mul (x y : float) : float :=
  match x, y with
  | NaN, _ | _, NaN => NaN
  | Finite a, Finite b => binary64 (a * b)
  | Finite a, Inf s => if Qeq_bool a 0 then NaN else Inf (xorb (is_negative a) s)
  | Inf s, Finite b => if Qeq_bool b 0 then NaN else Inf (xorb s (is_negative b))
  | Inf s, Inf t => Inf (xorb s t)
  end.

(** [x / y] on floats *)
Definition truediv (x y : float) : result float :=
  match y with
  | Finite b =>
      if Qeq_bool b 0
      then Raise (Exn ZeroDivisionError "float division by zero")
      else Ok match x with
              | Finite a => binary64 (a / b)
              | Inf s => Inf (xorb s (is_negative b))
              | NaN => NaN
              end
  | Inf _ => Ok match x with
                | Finite _ => Finite 0
                | _ => NaN
                end
  | NaN => Ok NaN
  end.

(** An int operand of a float operation *)
Definition of_int (z : Z) : result float :=
  match binary64 (inject_Z z) with
  | Inf _ => Raise (Exn OverflowError "int too large to convert to float")
  | x => Ok x
  end.

(** [a / b] on ints *)
Definition truediv_int (a b : Z) : result float :=
  if b =? 0
  then Raise (Exn ZeroDivisionError "division by zero")
  else match binary64 (inject_Z a / inject_Z b) with
       | Inf _ => Raise (Exn OverflowError "integer division result too large for a float")
       | x => Ok x
       end.

(** [a // b] on ints *)
Definition floordiv (a b : Z) : result Z :=
  if b =? 0
  then Raise (Exn ZeroDivisionError "integer division or modulo by zero")
  else Ok (a / b).

(** Truncation toward zero *)
Definition trunc (q : Q) : Z := Z.quot (Qnum q) (Z.pos (Qden q)).

(** [int(x)] on a float *)
Definition int (x : float) : result Z :=
  match x with
  | Finite q => Ok (trunc q)
  | Inf _ => Raise (Exn OverflowError "cannot convert float infinity to integer")
  | NaN => Raise (Exn ValueError "cannot convert float NaN to integer")
  end.

(** [x > z] for a float [x] and an int [z] *)
Definition gt (x : float) (z : Z) : bool :=
  match x with
  | Finite q => negb (Qle_bool q (inject_Z z))
  | Inf s => negb s
  | NaN => false
  end.

(** [range(n)] *)
Definition range (n : Z) : list nat := seq 0 (Z.to_nat n).

(** [s.startswith(p)] *)
Definition startswith (s p : string) : bool := String.prefix p s.

End Py.

Import Py.

(** ** video_processor.py *)

Module VideoProcessor.

(** The dict built by [_generate_step_from_position] and
    [_generate_mock_steps] *)
Record step := Step {
  title : string;
  description : string;
  image_url : string;
  order : nat
}.

(** *** Sampling: lines 93-100 of [_extract_keyframes_and_generate_steps] *)

(** [frame_count / (fps * 20)] *)
Definition keyframe_quotient (fps : float) (frame_count : Z) : result float :=
  count ← of_int frame_count;
  truediv count (mul fps (Finite 20)).

(** [min(max(int(frame_count / (fps * 20)), 3), 6)] *)
Definition keyframe_num_steps (fps : float) (frame_count : Z) : result Z :=
  raw ← keyframe_quotient fps frame_count;
  n ← int raw;
  Ok (Z.min (Z.max n 3) 6).

(** [frame_number = i * interval] *)
Definition frame_number (i : nat) (interval : Z) : Z := Z.of_nat i * interval.

(** The pairs (i, frame_number) the loop visits, in order *)
Definition sample_plan (fps : float) (frame_count : Z) : result (list (nat * Z)) :=
  num_steps ← keyframe_num_steps fps frame_count;
  interval ← floordiv frame_count num_steps;
  Ok (map (fun i => (i, frame_number i interval)) (range num_steps)).

(** *** [_generate_step_from_position] *)

Definition step_templates : list (string * string) :=
  [ ("Initial Setup and Preparation",
     "Begin by setting up your workspace and gathering all necessary materials. Ensure you have a clean, organized area to work in and all tools are easily accessible.");
    ("Primary Process Execution",
     "Start the main procedure following the demonstrated technique. Pay close attention to the specific movements and timing shown in the video.");
    ("Intermediate Steps and Adjustments",
     "Continue with the intermediate steps, making any necessary adjustments as you progress. Monitor your work carefully and compare with the reference.");
    ("Advanced Techniques Application",
     "Apply the more advanced techniques demonstrated in the video. Take your time with these steps as they often require precision and practice.");
    ("Final Assembly and Completion",
     "Complete the final assembly steps and perform quality checks. Ensure all components are properly secured and the result matches the expected outcome.");
    ("Quality Control and Finishing",
     "Perform final quality control checks and apply any finishing touches. Clean up your workspace and properly store any remaining materials.") ].

(** [f"https://picsum.photos/id/{n}/800/400"] *)
Definition picsum (n : nat) : string :=
  "https://picsum.photos/id/" +:+ pretty n +:+ "/800/400".

(** [step_index] ranges over [range(num_steps)]; [total_steps] and
    [keyframe_path] are received and not used, as in the source. *)
Definition _generate_step_from_position
    (step_index : nat) (total_steps : Z) (keyframe_path : string) : step :=
  let template_index := Nat.min step_index (length step_templates - 1) in
  let template := nth template_index step_templates ("", "") in
  {| title := fst template;
     description := snd template;
     image_url := picsum (10 + step_index);
     order := step_index + 1 |}.

(** *** [_generate_mock_steps] *)

Definition step_titles : list string :=
  [ "Workspace Preparation"; "Material Gathering"; "Initial Setup";
    "Main Process"; "Quality Checks"; "Final Assembly" ].

Definition step_descriptions : list string :=
  [ "Set up your workspace with proper lighting and organization. Ensure all tools are clean and within reach.";
    "Gather all required materials and tools. Check that everything is in good condition and properly functioning.";
    "Begin the initial setup process following the demonstrated sequence. Take care with positioning and alignment.";
    "Execute the main procedure with attention to detail. Follow the timing and technique shown in the video.";
    "Perform quality control checks at each stage. Make adjustments as needed to ensure proper results.";
    "Complete the final assembly and finishing steps. Clean up and organize your completed work." ].

(** [min(max(int(duration / 30), 3), 6)]; the divisor is the literal 30 *)
Definition mock_num_steps (duration : float) : result Z :=
  raw ← truediv duration (Finite 30);
  n ← int raw;
  Ok (Z.min (Z.max n 3) 6).

Definition mock_step (i : nat) : step :=
  {| title := if (i <? length step_titles)%nat
              then nth i step_titles ""
              else "Step " +:+ pretty (i + 1)%nat;
     description := if (i <? length step_descriptions)%nat
                    then nth i step_descriptions ""
                    else "Complete step " +:+ pretty (i + 1)%nat
                         +:+ " as demonstrated in the video.";
     image_url := picsum (20 + i);
     order := i + 1 |}.

Definition _generate_mock_steps (guide_id : Z) (duration : float)
  : result (list step) :=
  num_steps ← mock_num_steps duration;
  Ok (map mock_step (range num_steps)).

(** *** [_optimize_image] *)

(** [frame.shape[:2]] *)
Record frame := Frame { height : Z; width : Z }.

(** The encoded image: the pixel size it was produced at and the
    quality handed to the codec; the bytes themselves are not modelled. *)
Record jpeg := Jpeg { jpeg_width : Z; jpeg_height : Z; jpeg_quality : Z }.

(** *** The world outside the class *)

(** What [cv2.VideoCapture(path)] answers. [CAP_PROP_FPS] and
    [CAP_PROP_FRAME_COUNT] are the doubles [cap.get] returns. [read k pos]
    is the outcome of the [k]-th [cap.set(CAP_PROP_POS_FRAMES, pos);
    cap.read()]: a raised exception, [ret = False] ([None]) or a frame. *)
Record capture := Capture {
  isOpened : bool;
  CAP_PROP_FPS : float;
  CAP_PROP_FRAME_COUNT : float;
  read : nat -> Z -> result (option frame)
}.

(** What [requests.get(url, stream=True, timeout=30)] answers *)
Record response := Response {
  raise_for_status : result unit;
  iter_content : result unit
}.

Record env := Env {
  mkdtemp : string;                               (* tempfile.mkdtemp() *)
  urandom_hex : string;                           (* os.urandom(8).hex() *)
  requests_get : string -> result response;
  VideoCapture : string -> capture;
  cvtColor : frame -> result unit;
  resize : frame -> Z * Z -> result unit;
  imencode : frame -> Z -> result unit;
  open_wb : string -> result unit                 (* open(path, 'wb') *)
}.

Definition _optimize_image (w : env) (f : frame) (max_width quality : Z)
  : result jpeg :=
  _ ← cvtColor w f;
  size ← (if width f >? max_width then
            ratio ← truediv_int max_width (width f);
            float_width ← of_int (width f);
            new_width ← int (mul float_width ratio);
            float_height ← of_int (height f);
            new_height ← int (mul float_height ratio);
            _ ← resize w f (new_width, new_height);
            Ok (new_width, new_height)
          else Ok (width f, height f));
  _ ← imencode w f quality;
  Ok {| jpeg_width := fst size; jpeg_height := snd size; jpeg_quality := quality |}.

(** *** Code that writes files *)

Definition M (A : Type) : Type := gset string -> result A * gset string.

#[export] Instance M_ret : MRet M := fun A a fs => (Ok a, fs).
#[export] Instance M_bind : MBind M := fun A B k m fs =>
  match m fs with
  | (Ok a, fs') => k a fs'
  | (Raise e, fs') => (Raise e, fs')
  end.

Definition lift {A} (r : result A) : M A := fun fs => (r, fs).

Definition raise {A} (e : exn) : M A := fun fs => (Raise e, fs).

(** [try: body except Exception as e: handler] *)
Definition try_except {A} (body : M A) (handler : exn -> M A) : M A :=
  fun fs =>
    match body fs with
    | (Ok a, fs') => (Ok a, fs')
    | (Raise e, fs') => handler e fs'
    end.

(** [with open(path, 'wb') as f: f.write(...)] *)
Definition write_file (w : env) (path : string) : M unit :=
  fun fs =>
    match open_wb w path with
    | Ok _ => (Ok tt, {[ path ]} ∪ fs)
    | Raise e => (Raise e, fs)
    end.

(** [os.path.join(self.temp_dir, name)] *)
Definition temp_path (w : env) (name : string) : string :=
  mkdtemp w +:+ "/" +:+ name.

(** [f"keyframe_{guide_id}_{i}.jpg"] under the temporary directory *)
Definition keyframe_path (w : env) (guide_id : Z) (i : nat) : string :=
  temp_path w ("keyframe_" +:+ pretty guide_id +:+ "_" +:+ pretty i +:+ ".jpg").

(** *** [_download_video] *)

Definition _download_video (w : env) (url : string) : M string :=
  try_except
    (resp ← lift (requests_get w url);
     _ ← lift (raise_for_status resp);
     let temp_file := temp_path w ("video_" +:+ urandom_hex w +:+ ".mp4") in
     _ ← write_file w temp_file;
     _ ← lift (iter_content resp);
     mret temp_file)
    (fun e => raise e).

(** *** [_extract_keyframes_and_generate_steps] *)

(** One turn of the loop, lines 100-115: the step and the path of the
    keyframe written, or nothing when [ret] is false. *)
Definition sample (w : env) (cap : capture) (guide_id : Z)
    (num_steps interval : Z) (i : nat) : M (option (step * string)) :=
  r ← lift (read cap i (frame_number i interval));
  match r with
  | Some f =>
      let path := keyframe_path w guide_id i in
      _ ← lift (_optimize_image w f 1200 80);
      _ ← write_file w path;
      mret (Some (_generate_step_from_position i num_steps path, path))
  | None => mret None
  end.

Fixpoint sample_loop (w : env) (cap : capture) (guide_id : Z)
    (num_steps interval : Z) (indices : list nat)
    (steps : list step) (keyframe_paths : list string) : M (list step) :=
  match indices with
  | [] => mret steps
  | i :: rest =>
      r ← sample w cap guide_id num_steps interval i;
      match r with
      | Some (s, path) =>
          sample_loop w cap guide_id num_steps interval rest
                      (steps ++ [s]) (keyframe_paths ++ [path])
      | None =>
          sample_loop w cap guide_id num_steps interval rest
                      steps keyframe_paths
      end
  end.

(** The body of the [try], lines 92-117 *)
Definition extract_body (w : env) (cap : capture) (fps : float)
    (frame_count guide_id : Z) : M (list step) :=
  num_steps ← lift (keyframe_num_steps fps frame_count);
  interval ← lift (floordiv frame_count num_steps);
  sample_loop w cap guide_id num_steps interval (range num_steps) [] [].

(** [frame_count / fps if fps > 0 else 60]; the int 60 is divided by 30
    as the float 60.0 is *)
Definition fallback_duration (fps : float) (frame_count : Z) : result float :=
  if gt fps 0 then
    count ← of_int frame_count;
    truediv count fps
  else Ok (Finite 60).

(** The handler of line 122 *)
Definition fallback (fps : float) (frame_count guide_id : Z)
  : result (list step) :=
  duration ← fallback_duration fps frame_count;
  _generate_mock_steps guide_id duration.

Definition _extract_keyframes_and_generate_steps (w : env) (cap : capture)
    (fps : float) (frame_count guide_id : Z) : M (list step) :=
  try_except
    (extract_body w cap fps frame_count guide_id)
    (fun e => lift (fallback fps frame_count guide_id)).

(** *** [process_video]

    The calls to the logger and [cap.release()] leave the result and the
    files as they are and are not modelled. *)

(** Line 37: [frame_count / fps if fps > 0 else 0]. Only the logger reads
    the value. *)
Definition video_duration (fps : float) (frame_count : Z) : result float :=
  if gt fps 0 then
    count ← of_int frame_count;
    truediv count fps
  else Ok (Finite 0).

Definition process_video (w : env) (video_path : string) (guide_id : Z)
  : M (list step) :=
  try_except
    (video_path ← (if startswith video_path "http://"
                      || startswith video_path "https://"
                   then _download_video w video_path
                   else mret video_path);
     let cap := VideoCapture w video_path in
     if negb (isOpened cap) then
       raise (Exn ValueError ("Could not open video file: " +:+ video_path))
     else
       let fps := CAP_PROP_FPS cap in
       frame_count ← lift (int (CAP_PROP_FRAME_COUNT cap));
       duration ← lift (video_duration fps frame_count);
       steps ← _extract_keyframes_and_generate_steps w cap fps frame_count guide_id;
       mret steps)
    (fun e => raise e).

End VideoProcessor.

Import VideoProcessor.

(** ** hashlib.sha256 (FIPS 180-4), on bytes as integers below 256 *)

Module Hashlib.
Definition w32 (x : Z) : Z := Z.land x 0xFFFFFFFF.
Definition rotr (n x : Z) : Z := Z.lor (Z.shiftr x n) (w32 (Z.shiftl x (32 - n))).
Definition Ch (x y z : Z) : Z := Z.lxor (Z.land x y) (Z.land (Z.lxor x 0xFFFFFFFF) z).
Definition Maj (x y z : Z) : Z := Z.lxor (Z.land x y) (Z.lxor (Z.land x z) (Z.land y z)).
Definition Sigma0 x := Z.lxor (rotr 2 x) (Z.lxor (rotr 13 x) (rotr 22 x)).
Definition Sigma1 x := Z.lxor (rotr 6 x) (Z.lxor (rotr 11 x) (rotr 25 x)).
Definition sigma0 x := Z.lxor (rotr 7 x) (Z.lxor (rotr 18 x) (Z.shiftr x 3)).
Definition sigma1 x := Z.lxor (rotr 17 x) (Z.lxor (rotr 19 x) (Z.shiftr x 10)).

(** The primes below 312: the first 64 *)
Definition is_prime (n : nat) : bool :=
  (1 <? n)%nat && forallb (fun d => negb (n mod d =? 0)%nat) (seq 2 (n - 2)).

Definition primes : list nat := filter (fun n => is_prime n) (seq 2 310).

(** Integer root by bits: the largest [r] below [2^bits] with [r^k <= n] *)
Fixpoint iroot (k : Z) (bits : nat) (n r : Z) : Z :=
  match bits with
  | O => r
  | S b => let r' := r + 2 ^ Z.of_nat b in
           iroot k b n (if r' ^ k <=? n then r' else r)
  end.

(** The first 32 bits of the fractional part of the [k]-th root of [p] *)
Definition frac_root (k : Z) (p : nat) : Z :=
  w32 (iroot k 40 (Z.of_nat p * 2 ^ (32 * k)) 0).

(** Round constants: cube roots of the first 64 primes *)
Definition K : list Z := Eval vm_compute in map (frac_root 3) primes.

(** Initial hash value: square roots of the first 8 primes *)
Definition H0 : list Z := Eval vm_compute in map (frac_root 2) (take 8 primes).

(** big-endian bytes of [x], [n] of them *)
Fixpoint be_bytes (n : nat) (x : Z) : list Z :=
  match n with
  | O => []
  | S n' => Z.land (Z.shiftr x (8 * Z.of_nat n')) 0xFF :: be_bytes n' x
  end.

Definition pad (msg : list Z) : list Z :=
  let len := Z.of_nat (length msg) in
  msg ++ [0x80] ++ replicate (Z.to_nat ((55 - len) mod 64)) 0 ++ be_bytes 8 (8 * len).

Fixpoint be_word (bs : list Z) (acc : Z) : Z :=
  match bs with
  | [] => acc
  | b :: bs' => be_word bs' (Z.lor (Z.shiftl acc 8) b)
  end.

(** the words of a byte string, four bytes each *)
Fixpoint words (n : nat) (bs : list Z) : list Z :=
  match n with
  | O => []
  | S n' => be_word (take 4 bs) 0 :: words n' (drop 4 bs)
  end.

(** message schedule, most recent word first *)
Fixpoint schedule (n : nat) (ws : list Z) : list Z :=
  match n with
  | O => ws
  | S n' =>
      let w := w32 (sigma1 (nth 1 ws 0) + nth 6 ws 0 + sigma0 (nth 14 ws 0) + nth 15 ws 0) in
      schedule n' (w :: ws)
  end.

Definition round (s : list Z) (kw : Z * Z) : list Z :=
  match s with
  | [a; b; c; d; e; f; g; h] =>
      let t1 := h + Sigma1 e + Ch e f g + fst kw + snd kw in
      let t2 := Sigma0 a + Maj a b c in
      [w32 (t1 + t2); a; b; c; w32 (d + t1); e; f; g]
  | _ => s
  end.

Definition compress (h : list Z) (block : list Z) : list Z :=
  let w := rev (schedule 48 (rev (words 16 block))) in
  let s := fold_left round (combine K w) h in
  map (fun p => w32 (fst p + snd p)) (combine h s).

Fixpoint blocks (n : nat) (h : list Z) (bs : list Z) : list Z :=
  match n with
  | O => h
  | S n' => blocks n' (compress h (take 64 bs)) (drop 64 bs)
  end.

Definition sha256 (msg : list Z) : list Z :=
  let p := pad msg in blocks (length p / 64)%nat H0 p.

Definition hex_digit (d : Z) : ascii :=
  nth (Z.to_nat d) (list_ascii_of_string "0123456789abcdef") "0"%char.

Definition hex_byte (b : Z) : list ascii := [hex_digit (Z.shiftr b 4); hex_digit (Z.land b 0xF)].

Definition hexdigest (content : list byte) : string :=
  let msg := map (fun b => Z.of_N (Byte.to_N b)) content in
  string_of_list_ascii (concat (map hex_byte (concat (map (be_bytes 4) (sha256 msg))))).
End Hashlib.

(** ** The built-in [hash] on [str]: CPython's keyed SipHash-1-3
    ([Python/pyhash.c], the default since 3.11) under the interpreter's
    hash secret, drawn afresh for each process unless [PYTHONHASHSEED]
    fixes it. *)

Module PyHash.
Definition w64 (x : Z) : Z := Z.land x 0xFFFFFFFFFFFFFFFF.
Definition rotl (x b : Z) : Z := Z.lor (w64 (Z.shiftl x b)) (Z.shiftr x (64 - b)).

Record secret := Secret { k0 : Z; k1 : Z }.

Definition half_round (a b c d s t : Z) : Z * Z * Z * Z :=
  let a := w64 (a + b) in
  let c := w64 (c + d) in
  let b := Z.lxor (rotl b s) a in
  let d := Z.lxor (rotl d t) c in
  let a := rotl a 32 in
  (a, b, c, d).

Definition single_round (v : Z * Z * Z * Z) : Z * Z * Z * Z :=
  let '(v0, v1, v2, v3) := v in
  let '(v0, v1, v2, v3) := half_round v0 v1 v2 v3 13 16 in
  let '(v2, v1, v0, v3) := half_round v2 v1 v0 v3 17 21 in
  (v0, v1, v2, v3).

Fixpoint le_word (bs : list Z) : Z :=
  match bs with
  | [] => 0
  | b :: bs' => Z.lor b (Z.shiftl (le_word bs') 8)
  end.

Definition absorb (v : Z * Z * Z * Z) (m : Z) : Z * Z * Z * Z :=
  let '(v0, v1, v2, v3) := v in
  let '(v0, v1, v2, v3) := single_round (v0, v1, v2, Z.lxor v3 m) in
  (Z.lxor v0 m, v1, v2, v3).

Fixpoint absorb_words (n : nat) (v : Z * Z * Z * Z) (bs : list Z) : (Z * Z * Z * Z) * list Z :=
  match n with
  | O => (v, bs)
  | S n' => absorb_words n' (absorb v (le_word (take 8 bs))) (drop 8 bs)
  end.

Definition siphash13 (k : secret) (src : list Z) : Z :=
  let src_sz := Z.of_nat (length src) in
  let b := w64 (Z.shiftl src_sz 56) in
  let v := (Z.lxor (k0 k) 0x736f6d6570736575, Z.lxor (k1 k) 0x646f72616e646f6d,
            Z.lxor (k0 k) 0x6c7967656e657261, Z.lxor (k1 k) 0x7465646279746573) in
  let '(v, tail) := absorb_words (length src / 8)%nat v src in
  let b := Z.lor b (le_word tail) in
  let '(v0, v1, v2, v3) := absorb v b in
  let v2 := Z.lxor v2 0xff in
  let '(v0, v1, v2, v3) := single_round (single_round (single_round (v0, v1, v2, v3))) in
  Z.lxor (Z.lxor v0 v1) (Z.lxor v2 v3).

(** the cast to [Py_hash_t] *)
Definition signed64 (x : Z) : Z := if x <? 2^63 then x else x - 2^64.

Definition hash_bytes (k : secret) (src : list Z) : Z :=
  if (length src =? 0)%nat then 0
  else let x := signed64 (siphash13 k src) in
       if x =? -1 then -2 else x.

Definition hash_str (k : secret) (s : string) : Z :=
  hash_bytes k (map (fun c => Z.of_N (N_of_ascii c)) (list_ascii_of_string s)).

(** [lcg_urandom]: the secret derived from [PYTHONHASHSEED=seed] *)
Fixpoint lcg (n : nat) (x : Z) : list Z :=
  match n with
  | O => []
  | S n' => let x' := Z.land (x * 214013 + 2531011) 0xFFFFFFFF in
            Z.land (Z.shiftr x' 16) 0xFF :: lcg n' x'
  end.

Definition secret_of_seed (seed : Z) : secret :=
  if seed =? 0 then Secret 0 0
  else let bs := lcg 24 seed in
       Secret (le_word (take 8 bs)) (le_word (take 8 (drop 8 bs))).
End PyHash.

(** ** video.py *)

Module Video.

#[local] Set Warnings "-register-all".

(** The objects [upload_video] handles *)
Inductive key := KInt (i : Z) | KStr (s : string).

Inductive value :=
| VBool (b : bool)
| VStep (s : step)
| VList (l : list value)
| VDict (d : list (key * value)).

Definition key_eqb (a b : key) : bool :=
  match a, b with
  | KInt i, KInt j => i =? j
  | KStr s, KStr t => String.eqb s t
  | _, _ => false
  end.

Fixpoint dict_set (d : list (key * value)) (k : key) (v : value)
  : list (key * value) :=
  match d with
  | [] => [(k, v)]
  | (k', v') :: d' => if key_eqb k' k then (k, v) :: d' else (k', v') :: dict_set d' k v
  end.

(** [o[k] = v] *)
Definition setitem (o : value) (k : key) (v : value) : result value :=
  match o, k with
  | VList l, KInt i =>
      let n := Z.of_nat (length l) in
      if (0 <=? i) && (i <? n) then Ok (VList (<[Z.to_nat i := v]> l))
      else if (- n <=? i) && (i <? 0) then Ok (VList (<[Z.to_nat (n + i) := v]> l))
      else Raise (Exn IndexError "list assignment index out of range")
  | VList _, KStr _ =>
      Raise (Exn TypeError "list indices must be integers or slices, not str")
  | VDict d, _ => Ok (VDict (dict_set d k v))
  | _, _ => Raise (Exn TypeError "object does not support item assignment")
  end.

(** [config.Settings] *)
Record settings := Settings {
  DEBUG : bool;
  UPLOAD_FOLDER : string;
  ALLOWED_EXTENSIONS : list string
}.

(** [s.lower()] on a string of ASCII characters: the letters A to Z are
    lowered. File names and settings are taken as ASCII. *)
Definition lower_char (c : ascii) : ascii :=
  let n := nat_of_ascii c in
  if (65 <=? n)%nat && (n <=? 90)%nat then ascii_of_nat (n + 32) else c.

Definition lower (s : string) : string :=
  string_of_list_ascii (map lower_char (list_ascii_of_string s)).

(** [s.endswith(p)] *)
Definition endswith (s p : string) : bool :=
  String.prefix (String.rev p) (String.rev s).

(** [", ".join(l)] *)
Fixpoint join (sep : string) (l : list string) : string :=
  match l with
  | [] => ""
  | [x] => x
  | x :: l' => x +:+ sep +:+ join sep l'
  end.

(** [file_path.unlink()] and [file_path.exists()] *)
Definition unlink (path : string) : M unit :=
  fun fs => (Ok tt, fs ∖ {[ path ]}).

Definition exists_ (path : string) : M bool :=
  fun fs => (Ok (bool_decide (path ∈ fs)), fs).

(** [try: body finally: fin], for a [fin] that does not raise *)
Definition try_finally {A} (body : M A) (fin : M unit) : M A :=
  fun fs =>
    let (r, fs') := body fs in
    (r, snd (fin fs')).

(** Line 53: [guide_id if guide_id is not None else hash(video_hash) % 10000] *)
Definition actual_guide_id (k : PyHash.secret) (guide_id : option Z)
    (video_hash : string) : Z :=
  match guide_id with
  | Some g => g
  | None => PyHash.hash_str k video_hash mod 10000
  end.

(** [send_callback]: its whole body sits in a [try] whose handler logs *)
Definition send_callback (callback_url : string) (res : value) (guide_id : Z)
  : M unit := mret tt.

(** The components of a POSIX path: split at ["/"], empty and ["."]
    components dropped *)
Fixpoint split_slash (cs cur : list ascii) : list (list ascii) :=
  match cs with
  | [] => [rev cur]
  | c :: cs' =>
      if Ascii.eqb c "/" then rev cur :: split_slash cs' []
      else split_slash cs' (c :: cur)
  end.

Definition path_name (path : string) : list ascii :=
  List.last
    (List.filter (fun p => negb (Nat.eqb (length p) 0)
                           && negb (String.eqb (string_of_list_ascii p) "."))
                 (split_slash (list_ascii_of_string path) []))
    [].

(** [name.rfind('.')] *)
Fixpoint rfind_dot (name : list ascii) (i : nat) (found : option nat) : option nat :=
  match name with
  | [] => found
  | c :: name' =>
      rfind_dot name' (S i) (if Ascii.eqb c "." then Some i else found)
  end.

(** [Path(filename).suffix] *)
Definition suffix (filename : string) : string :=
  let name := path_name filename in
  match rfind_dot name 0 None with
  | Some i =>
      if (0 <? i)%nat && (i <? length name - 1)%nat
      then string_of_list_ascii (drop i name)
      else ""
  | None => ""
  end.

(** What the handler reads from the process around it: the settings, the
    interpreter's hash secret and [uuid.uuid4()] *)
Record server := Server {
  config : settings;
  hash_secret : PyHash.secret;
  uuid4 : string
}.

Definition upload_video (sv : server) (w : env)
    (filename : string) (content : list byte)
    (guide_id : option Z) (callback_url : option string) : M value :=
  let st := config sv in
  if negb (existsb (fun ext => endswith (lower filename) ext) (ALLOWED_EXTENSIONS st)) then
    raise (Exn (HTTPException 400)
               ("Invalid file type. Allowed: " +:+ join ", " (ALLOWED_EXTENSIONS st)))
  else
    let file_ext := suffix filename in
    let file_path := UPLOAD_FOLDER st +:+ "/" +:+ uuid4 sv +:+ file_ext in
    try_finally
      (try_except
         (_ ← write_file w file_path;
          let video_hash := Hashlib.hexdigest content in
          let gid := actual_guide_id (hash_secret sv) guide_id video_hash in
          steps ← process_video w file_path gid;
          res ← lift (setitem (VList (map VStep steps)) (KStr "cached") (VBool false));
          _ ← match callback_url with
              | Some url => if String.eqb url "" then mret tt
                            else send_callback url res gid
              | None => mret tt
              end;
          mret res)
         (fun e =>
            ex ← exists_ file_path;
            _ ← (if ex : bool then unlink file_path else mret tt);
            raise (Exn (HTTPException 500) (exc_str e))))
      (fun fs =>
         if bool_decide (file_path ∈ fs) && negb (DEBUG st)
         then unlink file_path fs else (Ok tt, fs)).

End Video.

Import Video.

(** ** video.py, the functions beside the handler *)

Module VideoAux.

(** The bytes handed to a [hashlib] object by [update], in order: its
    digest is the digest of their concatenation. The loop of
    [get_video_hash] reads 4096 bytes at a time and stops at the first empty
    read; a file of [n] bytes needs at most [n + 1] reads. *)
Fixpoint read_chunks (reads : nat) (rest fed : list byte) : list byte :=
  match reads with
  | O => fed
  | S reads' =>
      match take 4096 rest with
      | [] => fed
      | chunk => read_chunks reads' (drop 4096 rest) (fed ++ chunk)
      end
  end.

(** [get_video_hash], over a disk that maps a path to the bytes stored *)
Definition get_video_hash (disk : gmap string (list byte)) (file_path : string)
  : result string :=
  match disk !! file_path with
  | None => Raise (Exn OSError ("No such file or directory: " +:+ file_path))
  | Some content =>
      Ok (Hashlib.hexdigest (read_chunks (S (length content)) content []))
  end.

(** [o.get(k, None)]: the value, or the message of the [AttributeError] *)
Definition value_get (o : value) (k : string) : string + option value :=
  match o with
  | VDict d => inr (snd <$> List.find (fun kv => key_eqb (fst kv) (KStr k)) d)
  | VStep _ => inr None
  | VList _ => inl "'list' object has no attribute 'get'"
  | VBool _ => inl "'bool' object has no attribute 'get'"
  end.

(** [callback_payload] *)
Record payload := Payload {
  pl_guide_id : Z;
  pl_status : string;
  pl_result : value;
  pl_timestamp : option value
}.

Inductive level := INFO | WARNING | ERROR.

(** What [send_callback] does to the world: requests and log lines *)
Inductive event :=
| Post (url : string) (body : payload)
| Log (lv : level) (msg : string).

(** [send_callback] with its effects spelled out; [post] is the answer of
    [requests.post]: a status code, or an exception. Nothing is returned
    and nothing escapes the [try], which is all that [Video.send_callback]
    keeps of it. *)
Definition send_callback_events (post : string -> payload -> result Z)
    (callback_url : string) (res : value) (guide_id : Z) : list event :=
  match value_get res "timestamp" with
  | inl msg =>
      [Log ERROR ("Failed to send callback to " +:+ callback_url +:+ ": " +:+ msg)]
  | inr ts =>
      let callback_payload :=
        {| pl_guide_id := guide_id; pl_status := "completed";
           pl_result := res; pl_timestamp := ts |} in
      match post callback_url callback_payload with
      | Ok status_code =>
          if status_code =? 200 then
            [Post callback_url callback_payload;
             Log INFO ("Callback sent successfully to " +:+ callback_url
                       +:+ " for guide_id " +:+ pretty guide_id)]
          else
            [Post callback_url callback_payload;
             Log WARNING ("Callback failed with status " +:+ pretty status_code
                          +:+ " for " +:+ callback_url)]
      | Raise e =>
          [Post callback_url callback_payload;
           Log ERROR ("Failed to send callback to " +:+ callback_url
                      +:+ ": " +:+ exc_str e)]
      end
  end.

End VideoAux.

Import VideoAux.

(** ** config.py: the settings the upload handler reads *)

Module Config.

(** [s.split(",")] *)
Fixpoint split_comma (cs : list ascii) (cur : list ascii) : list string :=
  match cs with
  | [] => [string_of_list_ascii (rev cur)]
  | c :: cs' =>
      if Ascii.eqb c ","
      then string_of_list_ascii (rev cur) :: split_comma cs' []
      else split_comma cs' (c :: cur)
  end.

Definition split (s : string) : list string :=
  split_comma (list_ascii_of_string s) [].

(** [os.getenv(name, fallback)] *)
Definition getenv (environ : gmap string string) (name fallback : string) : string :=
  default fallback (environ !! name).

(** Line 8 *)
Definition DEBUG_of (environ : gmap string string) : bool :=
  let v := lower (getenv environ "DEBUG" "False") in
  String.eqb v "true" || String.eqb v "1" || String.eqb v "t".

(** Line 17 *)
Definition UPLOAD_FOLDER_of (environ : gmap string string) : string :=
  getenv environ "UPLOAD_FOLDER" "uploads".

(** Lines 19-21; the set is kept as the list [split] gives *)
Definition ALLOWED_EXTENSIONS_of (environ : gmap string string) : list string :=
  split (getenv environ "ALLOWED_EXTENSIONS" "mp4,avi,mov,mkv").

(** The three attributes of [Settings] that [upload_video] reads *)
Definition settings_of (environ : gmap string string) : settings :=
  {| DEBUG := DEBUG_of environ;
     UPLOAD_FOLDER := UPLOAD_FOLDER_of environ;
     ALLOWED_EXTENSIONS := ALLOWED_EXTENSIONS_of environ |}.

End Config.

(** ** JSON values, as [json.loads] and [request.get_json] hand them over

    Numbers are integers here; an object keeps its pairs in order, and a
    key given twice counts with its last value. *)

Module Json.

#[local] Set Warnings "-register-all".

Inductive json :=
| JNull
| JBool (b : bool)
| JInt (n : Z)
| JStr (s : string)
| JArr (l : list json)
| JObj (d : list (string * json)).

(** The value under a key of a parsed object *)
Definition field (d : list (string * json)) (k : string) : option json :=
  snd <$> List.find (fun kv => String.eqb (fst kv) k) (rev d).

(** [o.get(k, fallback)]: the value, or the message of the [AttributeError] *)
Definition get (o : json) (k : string) (fallback : json) : string + json :=
  match o with
  | JObj d => inr (default fallback (field d k))
  | JNull => inl "'NoneType' object has no attribute 'get'"
  | JBool _ => inl "'bool' object has no attribute 'get'"
  | JInt _ => inl "'int' object has no attribute 'get'"
  | JStr _ => inl "'str' object has no attribute 'get'"
  | JArr _ => inl "'list' object has no attribute 'get'"
  end.

(** [o == n] for an int [n]: [True] is 1 and [False] is 0 *)
Definition eq_int (o : json) (n : Z) : bool :=
  match o with
  | JInt m => m =? n
  | JBool b => (if b then 1 else 0) =? n
  | _ => false
  end.

(** [sub in s] on strings *)
Fixpoint contains (s sub : string) : bool :=
  String.prefix sub s ||
  match s with
  | EmptyString => false
  | String _ s' => contains s' sub
  end.

(** The key of a dict entry as [json.dumps] writes it *)
Definition key_str (k : key) : string :=
  match k with
  | KStr s => s
  | KInt i => pretty i
  end.

Definition of_step (s : step) : json :=
  JObj [ ("title", JStr (title s)); ("description", JStr (description s));
         ("image_url", JStr (image_url s)); ("order", JInt (Z.of_nat (order s))) ].

(** What [json.dumps] makes of the objects of [video.py] *)
Fixpoint of_value (v : value) : json :=
  match v with
  | VBool b => JBool b
  | VStep s => of_step s
  | VList l => JArr (map of_value l)
  | VDict d => JObj (map (fun kv => (key_str (fst kv), of_value (snd kv))) d)
  end.

(** The body [requests.post(..., json=callback_payload)] sends *)
Definition of_payload (p : payload) : json :=
  JObj [ ("guide_id", JInt (pl_guide_id p));
         ("status", JStr (pl_status p));
         ("result", of_value (pl_result p));
         ("timestamp", match pl_timestamp p with
                       | Some v => of_value v
                       | None => JNull
                       end) ].

End Json.

Import Json.

(** ** interface/app.py: the callback receiver and the guide page *)

Module Interface.

(** What is in [/app/received.json]: nothing, or the last data saved *)
Definition store := option json.

Inductive reply :=
| Saved                                         (* 200, status "success" *)
| SaveError (message : string)                  (* 500, status "error" *)
| NoData                                        (* 404, "No data found..." *)
| GuideNotFound (guide_id : Z) (available : json)  (* 404 *)
| Page (html : string)                          (* 200 *)
| LoadError (message : string)                  (* 500, "Error loading guide: ..." *)
| NotFound.                                     (* 404 of the router: no rule matches *)

Definition status_code (r : reply) : Z :=
  match r with
  | Saved | Page _ => 200
  | NoData | GuideNotFound _ _ | NotFound => 404
  | SaveError _ | LoadError _ => 500
  end.

(** [receive_callback]. [body] is the outcome of [request.get_json()],
    [opened] the outcome of [open(RECEIVED_JSON_PATH, "w")]. *)
Definition receive_callback (body : result json) (opened : result unit)
    (st : store) : reply * store :=
  match body with
  | Raise e => (SaveError (exc_str e), st)
  | Ok data =>
      match opened with
      | Raise e => (SaveError (exc_str e), st)
      | Ok _ => (Saved, Some data)
      end
  end.

(** [get_guide]. [render g steps] is the outcome of
    [render_template_string(html_template, guide_id=g, steps=steps)]. *)
Definition get_guide (render : Z -> json -> result string)
    (guide_id : Z) (st : store) : reply :=
  match st with
  | None => NoData
  | Some data =>
      match get data "guide_id" JNull with
      | inl msg => LoadError msg
      | inr found =>
          if negb (eq_int found guide_id) then GuideNotFound guide_id found
          else
            match get data "steps" (JArr []) with
            | inl msg => LoadError msg
            | inr steps =>
                match render guide_id steps with
                | Ok html => Page html
                | Raise e => LoadError (exc_str e)
                end
            end
      end
  end.

(** The value of a decimal digit *)
Definition digit (c : ascii) : option Z :=
  let n := Z.of_N (N_of_ascii c) in
  if (48 <=? n) && (n <=? 57) then Some (n - 48) else None.

(** The number a run of digits spells after [value] *)
Fixpoint digits (value : Z) (s : string) : option Z :=
  match s with
  | EmptyString => Some value
  | String c rest =>
      match digit c with
      | Some d => digits (value * 10 + d) rest
      | None => None
      end
  end.

(** The converter of [<int:guide_id>]: the segment has to be a run of one
    or more decimal digits, which [int()] then reads. A sign is no digit, so
    no segment gives a negative number. Segments are ASCII here, and of a
    length that [int()] accepts. *)
Definition int_converter (segment : string) : option Z :=
  match segment with
  | EmptyString => None
  | _ => digits 0 segment
  end.

(** [GET /guides/<segment>]: the rule [/guides/<int:guide_id>] hands the
    converted segment to [get_guide]; a segment it does not match is
    answered by the router. *)
Definition guides_route (render : Z -> json -> result string)
    (segment : string) (st : store) : reply :=
  match int_converter segment with
  | Some guide_id => get_guide render guide_id st
  | None => NotFound
  end.

End Interface.

(** ** api/main.py *)

Module Api.

(** How a call ends: a value, an [HTTPException] raised on purpose, or
    another exception, by the name of its class *)
Inductive outcome (A : Type) :=
| Returned (a : A)
| HttpError (status_code : Z) (detail : string)
| Uncaught (exception message : string).
Arguments Returned {A} a.
Arguments HttpError {A} status_code detail.
Arguments Uncaught {A} exception message.

#[export] Instance outcome_ret : MRet outcome := @Returned.
#[export] Instance outcome_bind : MBind outcome := fun A B k o =>
  match o with
  | Returned a => k a
  | HttpError c d => HttpError c d
  | Uncaught x m => Uncaught x m
  end.

(** [get_api_key]; [API_KEY] is read from the environment at start *)
Definition get_api_key (API_KEY : string) (api_key_header : string)
  : outcome string :=
  if negb (String.eqb api_key_header ("Bearer " +:+ API_KEY))
  then HttpError 401 "Invalid API Key"
  else Returned api_key_header.

(** The three steps of [response_data] *)
Definition fixed_steps : json :=
  JArr [ JObj [ ("index", JInt 1); ("second", JInt 5); ("title", JStr "Frame 00:05");
                ("image_url", JStr "https://picsum.photos/id/10/400/300") ];
         JObj [ ("index", JInt 2); ("second", JInt 10); ("title", JStr "Frame 00:10");
                ("image_url", JStr "https://picsum.photos/id/11/400/300") ];
         JObj [ ("index", JInt 3); ("second", JInt 15); ("title", JStr "Frame 00:15");
                ("image_url", JStr "https://picsum.photos/id/12/400/300") ] ].

Definition response_data (response_guide_id : json) : json :=
  JObj [ ("guide_id", response_guide_id); ("steps", fixed_steps) ].

(** [key in body] *)
Definition key_in (k : string) (body : json) : outcome bool :=
  match body with
  | JObj d => Returned (bool_decide (is_Some (field d k)))
  | JArr l => Returned (existsb (fun x => match x with
                                          | JStr s => String.eqb s k
                                          | _ => false
                                          end) l)
  | JStr s => Returned (contains s k)
  | JNull => Uncaught "TypeError" "argument of type 'NoneType' is not iterable"
  | JBool _ => Uncaught "TypeError" "argument of type 'bool' is not iterable"
  | JInt _ => Uncaught "TypeError" "argument of type 'int' is not iterable"
  end.

(** [all(key in body for key in keys)] *)
Fixpoint all_keys_in (keys : list string) (body : json) : outcome bool :=
  match keys with
  | [] => Returned true
  | k :: keys' =>
      b ← key_in k body;
      if b : bool then all_keys_in keys' body else Returned false
  end.

(** [body[k]] for a string [k] *)
Definition getitem (body : json) (k : string) : outcome json :=
  match body with
  | JObj d =>
      match field d k with
      | Some v => Returned v
      | None => Uncaught "KeyError" k
      end
  | JArr _ => Uncaught "TypeError" "list indices must be integers or slices, not str"
  | JStr _ => Uncaught "TypeError" "string indices must be integers"
  | JNull => Uncaught "TypeError" "'NoneType' object is not subscriptable"
  | JBool _ => Uncaught "TypeError" "'bool' object is not subscriptable"
  | JInt _ => Uncaught "TypeError" "'int' object is not subscriptable"
  end.

(** What the handler is given: the content type, the form fields as
    FastAPI parsed them ([has_file]: a file part came with the form) and
    the outcome of [request.json()]. *)
Record request := Request {
  content_type : string;
  has_file : bool;
  form_guide_id : option Z;
  form_callback_url : option string;
  json_body : outcome json
}.

(** What a served request produces: the response and the callback sent,
    by its URL and its body. [send_callback] keeps every failure to itself. *)
Record served := Served {
  response : json;
  callback_to : json;
  callback_body : json
}.

(** [process_video], past the API key *)
Definition process_video (req : request) : outcome served :=
  if contains (content_type req) "multipart/form-data" then
    if negb (has_file req) then
      HttpError 422 "File must be provided for form upload"
    else
      match form_guide_id req, form_callback_url req with
      | Some g, Some url =>
          if (g =? 0) || String.eqb url "" then
            HttpError 422 "guide_id and callback_url are required"
          else
            Returned {| response := response_data (JInt g);
                        callback_to := JStr url;
                        callback_body := response_data (JInt g) |}
      | _, _ => HttpError 422 "guide_id and callback_url are required"
      end
  else if contains (content_type req) "application/json" then
    body ← json_body req;
    ok ← all_keys_in ["video_url"; "guide_id"; "callback_url"] body;
    if negb ok then
      HttpError 422 "video_url, guide_id, and callback_url are required"
    else
      response_guide_id ← getitem body "guide_id";
      response_callback_url ← getitem body "callback_url";
      Returned {| response := response_data response_guide_id;
                  callback_to := response_callback_url;
                  callback_body := response_data response_guide_id |}
  else
    HttpError 422 "Content-Type must be multipart/form-data or application/json".

(** The endpoint: the dependency [get_api_key], then the handler *)
Definition endpoint (API_KEY : string) (api_key_header : string) (req : request)
  : outcome served :=
  _ ← get_api_key API_KEY api_key_header;
  process_video req.

End Api.

(** * Reference notions the properties are stated with *)

(** [2^-53], the relative error of one rounding; [2^-1075], its absolute
    error below the normal range; [2^1024], where the infinities begin; and
    the relative distance [2^-46] that a few roundings stay within *)
Definition u : Q := Eval vm_compute in pow2 (-53).
Definition eta : Q := Eval vm_compute in pow2 (-1075).
Definition top : Q := Eval vm_compute in pow2 1024.
Definition eps : Q := Eval vm_compute in pow2 (-46).


(** The planner's count in the words of the specification:
    [max(3, min(6, floor(frame_count / (frame_rate * 20))))] *)
Definition spec_num_steps (frame_rate : Q) (frame_count : Z) : Z :=
  Z.max 3 (Z.min 6 (Qfloor (inject_Z frame_count / (frame_rate * 20))%Q)).

(** Rounding to the nearest integer, halves upward *)
Definition nearest (x : Q) : Z := Qfloor (x + (1 # 2))%Q.

(** The encoder's output size in the words of the specification: both
    dimensions scaled by [max_width / width] and rounded to nearest *)
Definition spec_scaled_size (f : frame) (max_width : Z) : Z * Z :=
  if width f >? max_width then
    let ratio := (inject_Z max_width / inject_Z (width f))%Q in
    (nearest (inject_Z (width f) * ratio)%Q, nearest (inject_Z (height f) * ratio)%Q)
  else (width f, height f).

(** A capture that opened, with the given metadata and read outcomes *)
Definition opened_capture (fps frame_count : float)
    (rd : nat -> Z -> result (option frame)) : capture :=
  {| isOpened := true; CAP_PROP_FPS := fps;
     CAP_PROP_FRAME_COUNT := frame_count; read := rd |}.

(** A world in which the network, the codec and the disk never fail *)
Definition quiet_env (cap : capture) : env :=
  {| mkdtemp := "/tmp/tmpk3y";
     urandom_hex := "0011223344556677";
     requests_get := fun _ => Ok {| raise_for_status := Ok tt; iter_content := Ok tt |};
     VideoCapture := fun _ => cap;
     cvtColor := fun _ => Ok tt;
     resize := fun _ _ => Ok tt;
     imencode := fun _ _ => Ok tt;
     open_wb := fun _ => Ok tt |}.

(** 100 seconds of 1600x901 footage at 30 frames per second *)
Definition clip (rd : nat -> Z -> result (option frame)) : capture :=
  opened_capture (Finite 30) (Finite 3000) rd.

Definition hd_frame : frame := {| height := 901; width := 1600 |}.

(** [video_path.startswith(('http://', 'https://'))] *)
Definition is_url (video_path : string) : bool :=
  startswith video_path "http://" || startswith video_path "https://".

(** Where [_download_video] puts its copy *)
Definition download_path (w : env) : string :=
  temp_path w ("video_" +:+ urandom_hex w +:+ ".mp4").

(** Every call of [_download_video] goes through *)
Definition fetched (w : env) (url : string) : bool :=
  match requests_get w url with
  | Ok resp =>
      match raise_for_status resp, open_wb w (download_path w), iter_content resp with
      | Ok _, Ok _, Ok _ => true
      | _, _, _ => false
      end
  | Raise _ => false
  end.

(** The file handed to [cv2.VideoCapture] *)
Definition source_path (w : env) (video_path : string) : string :=
  if is_url video_path then download_path w else video_path.

Definition source (w : env) (video_path : string) : capture :=
  VideoCapture w (source_path w video_path).

(** The source opens: the download, if there is one, goes through and
    the decoder reports the file as opened *)
Definition opens (w : env) (video_path : string) : bool :=
  (if is_url video_path then fetched w video_path else true)
  && isOpened (source w video_path).

(** [ret] is true *)
Definition has_frame (r : result (option frame)) : bool :=
  match r with
  | Ok (Some _) => true
  | _ => false
  end.

(** The records of the samples among [indices] whose read gave a frame *)
Definition kept_steps (w : env) (cap : capture) (guide_id num_steps interval : Z)
    (indices : list nat) : list step :=
  map (fun i => _generate_step_from_position i num_steps (keyframe_path w guide_id i))
      (List.filter (fun i => has_frame (read cap i (frame_number i interval))) indices).

(** The mock list of a source: what line 36 and the handler of line 122
    make of its metadata *)
Definition source_mock (cap : capture) (guide_id : Z) : result (list step) :=
  frame_count ← int (CAP_PROP_FRAME_COUNT cap);
  fallback (CAP_PROP_FPS cap) frame_count guide_id.

(** The files on disk when the decoder is asked to open the source *)
Definition after_fetch (w : env) (video_path : string) (fs : gset string)
  : gset string :=
  if is_url video_path then {[ download_path w ]} ∪ fs else fs.

(** Reads that fail at the second sample only *)
Definition second_read_fails (i : nat) (pos : Z) : result (option frame) :=
  if (i =? 1)%nat then Ok None else Ok (Some hd_frame).

(** A file the decoder cannot open *)
Definition unopened_capture : capture :=
  {| isOpened := false; CAP_PROP_FPS := Finite 0; CAP_PROP_FRAME_COUNT := Finite 0;
     read := fun _ _ => Ok None |}.

(** The run of a capture that opened, lines 35-45 and the handler of
    line 47, which raises again what it caught *)
Definition opened_run (w : env) (cap : capture) (guide_id : Z) : M (list step) :=
  fun fs =>
    match int (CAP_PROP_FRAME_COUNT cap) with
    | Ok frame_count =>
        match video_duration (CAP_PROP_FPS cap) frame_count with
        | Ok duration =>
            _extract_keyframes_and_generate_steps w cap (CAP_PROP_FPS cap)
              frame_count guide_id fs
        | Raise e => (Raise e, fs)
        end
    | Raise e => (Raise e, fs)
    end.

(** Metadata in the ordinary range: a frame count of at most [2^63] in size,
    and a frame rate that is not a positive number below [2^-950] *)
Definition ordinary (cap : capture) : bool :=
  match CAP_PROP_FRAME_COUNT cap with
  | Finite c =>
      Qle_bool (Qabs c) (inject_Z (2 ^ 63)) &&
      match CAP_PROP_FPS cap with
      | Finite q => Qle_bool q 0 || Qle_bool (pow2 (-950)) q
      | _ => true
      end
  | _ => false
  end.

(** Reads that all raise *)
Definition broken_reads (i : nat) (pos : Z) : result (option frame) :=
  Raise (Exn cv2_error "decode").

(** One frame at the smallest positive frame rate, [2^-1074] *)
Definition denormal_clip (rd : nat -> Z -> result (option frame)) : capture :=
  opened_capture (Finite (pow2 (-1074))) (Finite 1) rd.




(** The double [x] is the finite number [q] *)
Definition reads_as (x : float) (q : Q) : Prop :=
  match x with
  | Finite r => (r == q)%Q
  | _ => False
  end.

(** A frame whose scaled width falls one pixel short *)
Definition wide_frame : frame := {| height := 1263; width := 2191 |}.

(** The extension check of line 32 *)
Definition allowed (st : settings) (filename : string) : bool :=
  existsb (fun ext => endswith (lower filename) ext) (ALLOWED_EXTENSIONS st).

(** Where the handler stores the upload *)
Definition upload_path (sv : server) (filename : string) : string :=
  UPLOAD_FOLDER (config sv) +:+ "/" +:+ uuid4 sv +:+ suffix filename.

(** The defaults of [config.py] *)
Definition default_settings : settings :=
  {| DEBUG := false; UPLOAD_FOLDER := "uploads";
     ALLOWED_EXTENSIONS := ["mp4"; "avi"; "mov"; "mkv"] |}.

(** A server process started with [PYTHONHASHSEED=seed] *)
Definition server_with_seed (seed : Z) : server :=
  {| config := default_settings;
     hash_secret := PyHash.secret_of_seed seed;
     uuid4 := "3f2b8c1e-7a54-4e0d-9b6a-2c1d5e8f9a10" |}.

(** The three bytes [b"abc"] *)
Definition abc : list byte := [x61; x62; x63]%byte.

(** An ASCII capital letter *)
Definition is_upper (c : ascii) : bool :=
  (65 <=? nat_of_ascii c)%nat && (nat_of_ascii c <=? 90)%nat.

Definition has_upper (s : string) : bool :=
  existsb is_upper (list_ascii_of_string s).

(** * Properties *)

(** ** Rounding to binary64 *)

Local Open Scope Q_scope.

Lemma pow2_pos k : 0 < pow2 k.
Proof. apply Qpower_0_lt. reflexivity. Qed.

Lemma pow2_add a b : pow2 (a + b) == pow2 a * pow2 b.
Proof. apply Qpower_plus. discriminate. Qed.

Lemma pow2_le a b : (a <= b)%Z -> pow2 a <= pow2 b.
Proof. intros H. apply Qpower_le_compat_l; [assumption | discriminate]. Qed.

Lemma pow2_lt_inv a b : pow2 a < pow2 b -> (a < b)%Z.
Proof. intros H. apply (Qpower_lt_compat_l_inv 2); [assumption | reflexivity]. Qed.

Lemma pow2_Z k : (0 <= k)%Z -> pow2 k == inject_Z (2 ^ k).
Proof. intros H. unfold pow2. now rewrite Zpower_Qpower. Qed.

Lemma pow2_succ k : pow2 (k + 1) == 2 * pow2 k.
Proof. rewrite pow2_add. change (pow2 1) with 2. ring. Qed.

(** The nearest integer is within one half *)
Lemma rne_close x : x - (1 # 2) <= inject_Z (rne x) <= x + (1 # 2).
Proof.
  unfold rne. pose proof (Qfloor_le x) as Hl. pose proof (Qlt_floor x) as Hu.
  rewrite inject_Z_plus in Hu. change (inject_Z 1) with 1 in Hu.
  destruct (x - inject_Z (Qfloor x) ?= 1 # 2) eqn:E.
  - apply Qeq_alt in E. destruct (Z.even (Qfloor x)).
    + lra.
    + rewrite inject_Z_plus. change (inject_Z 1) with 1. lra.
  - apply Qlt_alt in E. lra.
  - apply Qgt_alt in E. rewrite inject_Z_plus. change (inject_Z 1) with 1. lra.
Qed.

Lemma rne_nonneg x : 0 <= x -> (0 <= rne x)%Z.
Proof.
  intros Hx. assert (H : (0 <= Qfloor x)%Z).
  { change 0%Z with (Qfloor 0). now apply Qfloor_resp_le. }
  unfold rne. destruct (_ ?= _); [destruct (Z.even _)| |]; lia.
Qed.

Lemma rne_nonpos x : x <= 0 -> (rne x <= 0)%Z.
Proof.
  intros Hx. pose proof (Qfloor_le x) as Hl.
  assert (H : (Qfloor x <= 0)%Z).
  { rewrite Zle_Qle. change (inject_Z 0) with 0. lra. }
  assert (H1 : 1 # 2 <= x - inject_Z (Qfloor x) -> (Qfloor x + 1 <= 0)%Z).
  { intros Hh. assert (Hlt : (Qfloor x < 0)%Z); [|lia].
    rewrite Zlt_Qlt. change (inject_Z 0) with 0. lra. }
  unfold rne. destruct (x - inject_Z (Qfloor x) ?= 1 # 2) eqn:E.
  - apply Qeq_alt in E. destruct (Z.even _); [lia|]. apply H1. lra.
  - lia.
  - apply Qgt_alt in E. apply H1. lra.
Qed.

Lemma Qabs_num_den q :
  Qabs q == inject_Z (Z.abs (Qnum q)) / inject_Z (Z.pos (Qden q)).
Proof.
  destruct q as [n d]. unfold Qabs. simpl Qnum. simpl Qden.
  rewrite (Qmake_Qdiv (Z.abs n) d). reflexivity.
Qed.

Lemma num_pos_of_nonzero q : ~ q == 0 -> (0 < Z.abs (Qnum q))%Z.
Proof.
  intros Hq. destruct q as [[|p|p] d]; simpl; try lia.
  exfalso. apply Hq. reflexivity.
Qed.

(** [ilog2 q] is the binade of [q] *)
Lemma ilog2_le q : ~ q == 0 -> pow2 (ilog2 q) <= Qabs q.
Proof.
  intros Hq. unfold ilog2.
  set (n := Z.abs (Qnum q)). set (d := Z.pos (Qden q)).
  destruct (Qle_bool (pow2 (Z.log2 n - Z.log2 d)) (Qabs q)) eqn:E.
  - now apply Qle_bool_iff in E.
  - assert (Hn : (0 < n)%Z) by now apply num_pos_of_nonzero.
    assert (Hd : (0 < d)%Z) by (unfold d; lia).
    pose proof (Z.log2_spec n Hn) as [Hn1 _].
    pose proof (Z.log2_spec d Hd) as [_ Hd2].
    pose proof (Z.log2_nonneg n) as Ha. pose proof (Z.log2_nonneg d) as Hb.
    replace (Z.log2 n - Z.log2 d - 1)%Z with (Z.log2 n - Z.succ (Z.log2 d))%Z by lia.
    unfold pow2. rewrite Qpower_minus by discriminate.
    fold (pow2 (Z.log2 n)). fold (pow2 (Z.succ (Z.log2 d))).
    rewrite !pow2_Z by lia. rewrite Qabs_num_den. fold n d.
    assert (H1 : inject_Z (2 ^ Z.log2 n) <= inject_Z n) by now rewrite <- Zle_Qle.
    assert (H2 : inject_Z d <= inject_Z (2 ^ Z.succ (Z.log2 d)))
      by (rewrite <- Zle_Qle; lia).
    assert (H3 : 0 < inject_Z d) by (rewrite <- (Zlt_Qlt 0); lia).
    assert (H4 : 0 < inject_Z (2 ^ Z.log2 n)).
    { rewrite <- (Zlt_Qlt 0). apply Z.pow_pos_nonneg; lia. }
    apply Qle_shift_div_l; [assumption|].
    apply Qle_trans with (inject_Z (2 ^ Z.log2 n)); [|assumption].
    set (A := inject_Z (2 ^ Z.log2 n)) in *.
    set (B := inject_Z (2 ^ Z.succ (Z.log2 d))) in *.
    assert (H5 : 0 < A / B) by (apply Qlt_shift_div_l; lra).
    assert (H6 : A / B * inject_Z d <= A / B * B) by (apply Qmult_le_l; lra).
    assert (H7 : A / B * B == A) by (field; lra).
    lra.
Qed.

Lemma ilog2_lt q : ~ q == 0 -> Qabs q < pow2 (ilog2 q + 1).
Proof.
  intros Hq. unfold ilog2.
  set (n := Z.abs (Qnum q)). set (d := Z.pos (Qden q)).
  destruct (Qle_bool (pow2 (Z.log2 n - Z.log2 d)) (Qabs q)) eqn:E.
  - assert (Hn : (0 < n)%Z) by now apply num_pos_of_nonzero.
    assert (Hd : (0 < d)%Z) by (unfold d; lia).
    pose proof (Z.log2_spec n Hn) as [_ Hn2].
    pose proof (Z.log2_spec d Hd) as [Hd1 _].
    pose proof (Z.log2_nonneg n) as Ha. pose proof (Z.log2_nonneg d) as Hb.
    replace (Z.log2 n - Z.log2 d + 1)%Z with (Z.succ (Z.log2 n) - Z.log2 d)%Z by lia.
    unfold pow2. rewrite Qpower_minus by discriminate.
    fold (pow2 (Z.succ (Z.log2 n))). fold (pow2 (Z.log2 d)).
    rewrite !pow2_Z by lia. rewrite Qabs_num_den. fold n d.
    assert (H1 : inject_Z n < inject_Z (2 ^ Z.succ (Z.log2 n))) by now rewrite <- Zlt_Qlt.
    assert (H2 : inject_Z (2 ^ Z.log2 d) <= inject_Z d) by now rewrite <- Zle_Qle.
    assert (H3 : 0 < inject_Z d) by (rewrite <- (Zlt_Qlt 0); lia).
    assert (H4 : 0 < inject_Z (2 ^ Z.log2 d)).
    { rewrite <- (Zlt_Qlt 0). apply Z.pow_pos_nonneg; lia. }
    assert (H0 : 0 <= inject_Z n) by (rewrite <- (Zle_Qle 0); lia).
    apply Qlt_shift_div_r; [assumption|].
    apply Qlt_le_trans with (inject_Z (2 ^ Z.succ (Z.log2 n))); [assumption|].
    set (A := inject_Z (2 ^ Z.succ (Z.log2 n))) in *.
    set (B := inject_Z (2 ^ Z.log2 d)) in *.
    assert (H5 : 0 < A / B) by (apply Qlt_shift_div_l; lra).
    assert (H6 : A / B * B <= A / B * inject_Z d) by (apply Qmult_le_l; lra).
    assert (H7 : A / B * B == A) by (field; lra).
    lra.
  - replace (Z.log2 n - Z.log2 d - 1 + 1)%Z with (Z.log2 n - Z.log2 d)%Z by lia.
    apply Qnot_le_lt. intros H. apply Qle_bool_iff in H. congruence.
Qed.

Lemma ilog2_ge q k : pow2 k <= Qabs q -> (k <= ilog2 q)%Z.
Proof.
  intros H.
  assert (Hnz : ~ q == 0).
  { intros E. rewrite E in H. pose proof (pow2_pos k).
    change (Qabs 0) with 0 in H. lra. }
  pose proof (ilog2_lt q Hnz) as Hu.
  assert (Hlt : pow2 k < pow2 (ilog2 q + 1)) by lra.
  apply pow2_lt_inv in Hlt. lia.
Qed.

Lemma rnd_zero q : q == 0 -> rnd q = 0.
Proof. intros H. unfold rnd. apply Qeq_bool_iff in H. now rewrite H. Qed.

Lemma rnd_nonzero q : ~ q == 0 ->
  rnd q = inject_Z (rne (q / pow2 (ulp_exp q))) * pow2 (ulp_exp q).
Proof.
  intros H. unfold rnd. destruct (Qeq_bool q 0) eqn:E; [|reflexivity].
  apply Qeq_bool_iff in E. contradiction.
Qed.

(** Rounding moves a number by at most half a unit in the last place *)
Lemma rnd_half_ulp q :
  q - (1 # 2) * pow2 (ulp_exp q) <= rnd q <= q + (1 # 2) * pow2 (ulp_exp q).
Proof.
  pose proof (pow2_pos (ulp_exp q)) as Hp.
  destruct (Qeq_dec q 0) as [Hz|Hnz].
  - rewrite (rnd_zero q Hz). lra.
  - rewrite (rnd_nonzero q Hnz).
    pose proof (rne_close (q / pow2 (ulp_exp q))) as [H1 H2].
    set (m := inject_Z (rne (q / pow2 (ulp_exp q)))) in *.
    set (p := pow2 (ulp_exp q)) in *.
    assert (H1' : (q / p - (1 # 2)) * p <= m * p) by (apply Qmult_le_compat_r; lra).
    assert (H2' : m * p <= (q / p + (1 # 2)) * p) by (apply Qmult_le_compat_r; lra).
    assert (E1 : (q / p - (1 # 2)) * p == q - (1 # 2) * p) by (field; lra).
    assert (E2 : (q / p + (1 # 2)) * p == q + (1 # 2) * p) by (field; lra).
    lra.
Qed.

Lemma u_pow2 : pow2 (-53) == u.
Proof. reflexivity. Qed.

Lemma eta_pow2 : pow2 (-1075) == eta.
Proof. reflexivity. Qed.

Lemma top_pow2 : pow2 1024 == top.
Proof. reflexivity. Qed.

Lemma half_ulp_bound q : ~ q == 0 ->
  (1 # 2) * pow2 (ulp_exp q) <= u * Qabs q + eta.
Proof.
  intros Hnz. pose proof (Qabs_nonneg q) as Ha.
  unfold ulp_exp. destruct (Z.max_spec (ilog2 q - 52) (-1074)) as [[_ ->]|[Hle ->]].
  - change (pow2 (-1074)) with (pow2 (-1075 + 1)).
    rewrite pow2_succ, eta_pow2.
    assert (0 <= u * Qabs q) by (apply Qmult_le_0_compat; [discriminate | lra]). lra.
  - pose proof (ilog2_le q Hnz) as Hl.
    replace (ilog2 q - 52)%Z with (ilog2 q + (-53) + 1)%Z by lia.
    rewrite pow2_succ, pow2_add, u_pow2.
    assert (u * pow2 (ilog2 q) <= u * Qabs q) by (apply Qmult_le_l; [reflexivity | lra]).
    assert (0 < eta) by reflexivity.
    lra.
Qed.

(** The error of one rounding: relative [u], or [eta] near zero *)
Lemma rnd_error q : q - (u * Qabs q + eta) <= rnd q <= q + (u * Qabs q + eta).
Proof.
  destruct (Qeq_dec q 0) as [Hz|Hnz].
  - rewrite (rnd_zero q Hz). rewrite Hz. change (Qabs 0) with 0.
    assert (0 < eta) by reflexivity. lra.
  - pose proof (rnd_half_ulp q). pose proof (half_ulp_bound q Hnz). lra.
Qed.

(** In the normal range the error is relative *)
Lemma rnd_error_normal q : pow2 (-1022) <= Qabs q ->
  q - u * Qabs q <= rnd q <= q + u * Qabs q.
Proof.
  intros H. pose proof (ilog2_ge q _ H) as Hk.
  assert (Hnz : ~ q == 0).
  { intros E. rewrite E in H. pose proof (pow2_pos (-1022)).
    change (Qabs 0) with 0 in H. lra. }
  pose proof (rnd_half_ulp q) as Hr. pose proof (ilog2_le q Hnz) as Hl.
  unfold ulp_exp in Hr. rewrite Z.max_l in Hr by lia.
  replace (ilog2 q - 52)%Z with (ilog2 q + (-53) + 1)%Z in Hr by lia.
  rewrite pow2_succ, pow2_add, u_pow2 in Hr.
  assert (u * pow2 (ilog2 q) <= u * Qabs q) by (apply Qmult_le_l; [reflexivity | lra]).
  lra.
Qed.

Lemma rnd_nonneg q : 0 <= q -> 0 <= rnd q.
Proof.
  intros Hq. destruct (Qeq_dec q 0) as [Hz|Hnz].
  - rewrite (rnd_zero q Hz). lra.
  - rewrite (rnd_nonzero q Hnz). pose proof (pow2_pos (ulp_exp q)).
    apply Qmult_le_0_compat; [|lra].
    rewrite <- (Zle_Qle 0). apply rne_nonneg.
    apply Qle_shift_div_l; [assumption|]. lra.
Qed.

Lemma rnd_nonpos q : q <= 0 -> rnd q <= 0.
Proof.
  intros Hq. destruct (Qeq_dec q 0) as [Hz|Hnz].
  - rewrite (rnd_zero q Hz). lra.
  - rewrite (rnd_nonzero q Hnz). pose proof (pow2_pos (ulp_exp q)) as Hp.
    assert (Hm : inject_Z (rne (q / pow2 (ulp_exp q))) <= 0).
    { rewrite <- (Zle_Qle _ 0). apply rne_nonpos.
      apply Qle_shift_div_r; [assumption|]. lra. }
    assert (H : inject_Z (rne (q / pow2 (ulp_exp q))) * pow2 (ulp_exp q)
                <= 0 * pow2 (ulp_exp q)) by (apply Qmult_le_compat_r; lra).
    lra.
Qed.

(** The error of rounding a number that is not negative *)
Lemma rnd_error_pos q : 0 <= q ->
  q * (1 - u) - eta <= rnd q <= q * (1 + u) + eta.
Proof.
  intros Hq. pose proof (rnd_error q) as H. rewrite (Qabs_pos q Hq) in H. lra.
Qed.

Lemma rnd_error_pos_normal q : pow2 (-1022) <= q ->
  q * (1 - u) <= rnd q <= q * (1 + u).
Proof.
  intros Hq. pose proof (pow2_pos (-1022)) as Hp.
  assert (H0 : 0 <= q) by lra.
  pose proof (rnd_error_normal q) as H. rewrite (Qabs_pos q H0) in H.
  specialize (H Hq). lra.
Qed.

Local Close Scope Q_scope.
(** ** Rounding keeps the order *)

Local Open Scope Q_scope.

Lemma rne_floor x : (Qfloor x <= rne x <= Qfloor x + 1)%Z.
Proof.
  unfold rne. cbv zeta.
  destruct (x - inject_Z (Qfloor x) ?= 1 # 2); [destruct (Z.even (Qfloor x))|..]; lia.
Qed.

Lemma rne_int_ge x N : inject_Z N <= x -> (N <= rne x)%Z.
Proof.
  intros H. apply Qfloor_resp_le in H. rewrite Qfloor_Z in H.
  pose proof (rne_floor x). lia.
Qed.

Lemma rne_int x N : x == inject_Z N -> rne x = N.
Proof.
  intros H. unfold rne. cbv zeta.
  assert (Hf : Qfloor x = N) by (rewrite H; apply Qfloor_Z).
  rewrite Hf. replace (x - inject_Z N ?= 1 # 2) with Lt; [reflexivity|].
  symmetry. apply (proj1 (Qlt_alt _ _)). revert H. generalize (inject_Z N). intros n H. lra.
Qed.

Lemma rne_int_le x N : x <= inject_Z N -> (rne x <= N)%Z.
Proof.
  intros H. destruct (Qeq_dec x (inject_Z N)) as [E|E].
  - rewrite (rne_int x N E). lia.
  - assert (Hlt : x < inject_Z N) by (apply Qle_lteq in H as [H|H]; [exact H|contradiction]).
    assert (Hf : (Qfloor x < N)%Z).
    { destruct (Z_lt_le_dec (Qfloor x) N) as [Hl|Hl]; [exact Hl|].
      exfalso. pose proof (Qfloor_le x) as Hfl.
      rewrite Zle_Qle in Hl. revert Hlt Hl Hfl.
      generalize (inject_Z N), (inject_Z (Qfloor x)). intros a b. lra. }
    pose proof (rne_floor x). lia.
Qed.

Lemma rne_mono x y : x <= y -> (rne x <= rne y)%Z.
Proof.
  intros H. pose proof (Qfloor_resp_le _ _ H) as Hf.
  destruct (Z.eq_dec (Qfloor x) (Qfloor y)) as [E|E].
  - unfold rne. cbv zeta. rewrite <- E.
    destruct (x - inject_Z (Qfloor x) ?= 1 # 2) eqn:Cx;
      destruct (y - inject_Z (Qfloor x) ?= 1 # 2) eqn:Cy;
      try (destruct (Z.even (Qfloor x))); try lia; exfalso;
      repeat match goal with
      | C : (_ ?= _) = Lt |- _ => apply (proj2 (Qlt_alt _ _)) in C
      | C : (_ ?= _) = Gt |- _ => apply (proj2 (Qgt_alt _ _)) in C
      | C : (_ ?= _) = Eq |- _ => apply (proj2 (Qeq_alt _ _)) in C
      end; lra.
  - pose proof (rne_floor x). pose proof (rne_floor y). lia.
Qed.

Lemma ilog2_mono x y : 0 < x -> x <= y -> (ilog2 x <= ilog2 y)%Z.
Proof.
  intros Hx Hxy. apply ilog2_ge.
  assert (Hnz : ~ x == 0) by lra.
  pose proof (ilog2_le x Hnz) as H.
  rewrite (Qabs_pos x) in H by lra. rewrite (Qabs_pos y) by lra. lra.
Qed.

Lemma Qdiv_le_pos (a b c : Q) : 0 < c -> a <= b -> a / c <= b / c.
Proof.
  intros Hc Hab. unfold Qdiv. apply Qmult_le_compat_r; [exact Hab|].
  apply Qlt_le_weak, Qinv_lt_0_compat, Hc.
Qed.

Lemma rnd_mono x y : 0 <= x -> x <= y -> rnd x <= rnd y.
Proof.
  intros Hx Hxy.
  destruct (Qeq_dec x 0) as [Ex|Ex].
  { rewrite (rnd_zero x Ex). apply rnd_nonneg. lra. }
  assert (Hx0 : 0 < x) by lra.
  assert (Ey : ~ y == 0) by lra.
  rewrite (rnd_nonzero x Ex), (rnd_nonzero y Ey).
  pose proof (ilog2_mono x y Hx0 Hxy) as Hk.
  destruct (Z.eq_dec (ulp_exp x) (ulp_exp y)) as [E|E].
  - rewrite E. apply Qmult_le_compat_r; [|apply Qlt_le_weak, pow2_pos].
    rewrite <- Zle_Qle. apply rne_mono. apply Qdiv_le_pos; [apply pow2_pos|exact Hxy].
  - assert (Hey : ulp_exp y = (ilog2 y - 52)%Z /\ (ulp_exp x < ilog2 y - 52)%Z)
      by (unfold ulp_exp in *; lia).
    destruct Hey as [Hey Hlt].
    apply Qle_trans with (pow2 (ilog2 y)).
    + (* rnd x <= 2^ky *)
      assert (HN : pow2 (ilog2 y) == inject_Z (2 ^ (ilog2 y - ulp_exp x)) * pow2 (ulp_exp x)).
      { rewrite <- pow2_Z by lia. rewrite <- pow2_add. now replace (ilog2 y - ulp_exp x + ulp_exp x)%Z with (ilog2 y) by lia. }
      rewrite HN. apply Qmult_le_compat_r; [|apply Qlt_le_weak, pow2_pos].
      rewrite <- Zle_Qle. apply rne_int_le.
      rewrite <- pow2_Z by lia.
      assert (Hxle : x <= pow2 (ilog2 y)).
      { pose proof (ilog2_le y Ey) as H. rewrite (Qabs_pos y) in H by lra.
        pose proof (ilog2_lt x Ex) as H'. rewrite (Qabs_pos x) in H' by lra.
        assert (Hkk : (ilog2 x + 1 <= ilog2 y)%Z) by (unfold ulp_exp in *; lia).
        pose proof (pow2_le _ _ Hkk). lra. }
      assert (Hd : pow2 (ilog2 y - ulp_exp x) == pow2 (ilog2 y) / pow2 (ulp_exp x)).
      { replace (ilog2 y) with (ilog2 y - ulp_exp x + ulp_exp x)%Z at 2 by lia.
        rewrite pow2_add. field. pose proof (pow2_pos (ulp_exp x)). lra. }
      rewrite Hd. apply Qdiv_le_pos; [apply pow2_pos|exact Hxle].
    + (* 2^ky <= rnd y *)
      rewrite Hey.
      assert (HN : pow2 (ilog2 y) == inject_Z (2 ^ 52) * pow2 (ilog2 y - 52)).
      { rewrite <- pow2_Z by lia. rewrite <- pow2_add.
        now replace (52 + (ilog2 y - 52))%Z with (ilog2 y) by lia. }
      rewrite HN at 1. apply Qmult_le_compat_r; [|apply Qlt_le_weak, pow2_pos].
      rewrite <- Zle_Qle. apply rne_int_ge.
      rewrite <- pow2_Z by lia.
      assert (Hd : pow2 52 == pow2 (ilog2 y) / pow2 (ilog2 y - 52)).
      { replace (ilog2 y) with (52 + (ilog2 y - 52))%Z at 1 by lia.
        rewrite pow2_add. field. pose proof (pow2_pos (ilog2 y - 52)). lra. }
      rewrite Hd. apply Qdiv_le_pos; [apply pow2_pos|].
      pose proof (ilog2_le y Ey) as H. now rewrite (Qabs_pos y) in H by lra.
Qed.

Local Close Scope Q_scope.
(** ** binary64 on known values *)

(** [0.1], [0.1 * 3 = 0.30000000000000004] and [1 / 3] *)
Example binary64_tenth :
  reads_as (binary64 (1 # 10)) (3602879701896397 # 36028797018963968) /\
  reads_as (mul (binary64 (1 # 10)) (Finite 3)) (1351079888211149 # 4503599627370496) /\
  match truediv (Finite 1) (Finite 3) with
  | Ok x => reads_as x (6004799503160661 # 18014398509481984)
  | Raise _ => False
  end.
Proof. split_and!; vm_compute; reflexivity. Qed.

(** The ends of the range: half of the smallest positive double is 0, the
    largest int that converts is [2^1024 - 2^970 - 1], and a product past
    the range is an infinity *)
Example binary64_range :
  reads_as (mul (Finite (pow2 (-1074))) (Finite (1 # 2))) 0 /\
  match of_int (2 ^ 1024 - 2 ^ 970 - 1) with
  | Ok x => reads_as x (inject_Z (2 ^ 1024 - 2 ^ 971))
  | Raise _ => False
  end /\
  of_int (2 ^ 1024 - 2 ^ 970)
    = Raise (Exn OverflowError "int too large to convert to float") /\
  mul (binary64 (inject_Z (10 ^ 308))) (Finite 10) = Inf false.
Proof. split_and!; vm_compute; reflexivity. Qed.

(** Quotients that round to a whole number: 2398 frames at 23.98 frames
    per second are planned as 5 samples, 3597 frames last [150.0] seconds
    and give 5 mock records *)
Example rounded_quotients :
  keyframe_num_steps (binary64 (2398 # 100)) 2398 = Ok 5 /\
  match fallback_duration (binary64 (2398 # 100)) 3597 with
  | Ok x => reads_as x 150
  | Raise _ => False
  end /\
  fallback (binary64 (2398 # 100)) 3597 7
    = Ok [mock_step 0; mock_step 1; mock_step 2; mock_step 3; mock_step 4].
Proof. split_and!; vm_compute; reflexivity. Qed.

(** ** What the operations of the prelude give *)

Local Open Scope Q_scope.

Lemma binary64_cases q :
  (binary64 q = Finite (rnd q) /\ Qabs (rnd q) < top) \/
  (binary64 q = Inf (is_negative (rnd q)) /\ top <= Qabs (rnd q)).
Proof.
  unfold binary64. destruct (Qle_bool (pow2 1024) (Qabs (rnd q))) eqn:E.
  - right. split; [reflexivity|]. apply Qle_bool_iff in E. now rewrite <- top_pow2.
  - left. split; [reflexivity|]. apply Qnot_le_lt. intros H.
    rewrite <- top_pow2 in H. apply Qle_bool_iff in H. congruence.
Qed.

Lemma is_negative_nonneg r : 0 <= r -> is_negative r = false.
Proof.
  unfold Qle, is_negative. simpl. intros H. apply Z.ltb_ge. lia.
Qed.

(** The double nearest to a number that is not negative *)
Lemma binary64_nonneg q : 0 <= q ->
  (binary64 q = Finite (rnd q) /\ 0 <= rnd q /\ rnd q < top) \/
  (binary64 q = Inf false /\ top <= rnd q).
Proof.
  intros Hq. pose proof (rnd_nonneg q Hq) as Hr.
  destruct (binary64_cases q) as [[E H]|[E H]]; rewrite (Qabs_pos _ Hr) in H.
  - left. auto.
  - right. now rewrite (is_negative_nonneg _ Hr) in E.
Qed.

Lemma one_is_normal z : (1 <= z)%Z -> pow2 (-1022) <= inject_Z z.
Proof.
  intros Hz. apply Qle_trans with 1.
  - change 1 with (pow2 0). apply pow2_le. lia.
  - rewrite (Zle_Qle 1) in Hz. exact Hz.
Qed.

(** The conversion of a positive int *)
Lemma of_int_pos z : (1 <= z)%Z ->
  (of_int z = Ok (Finite (rnd (inject_Z z))) /\
   inject_Z z * (1 - u) <= rnd (inject_Z z) <= inject_Z z * (1 + u) /\
   rnd (inject_Z z) < top) \/
  of_int z = Raise (Exn OverflowError "int too large to convert to float").
Proof.
  intros Hz. unfold of_int.
  assert (H0 : 0 <= inject_Z z).
  { rewrite (Zle_Qle 1) in Hz. change (inject_Z 1) with 1 in Hz. lra. }
  destruct (binary64_nonneg _ H0) as [(-> & _ & Ht)|[-> _]]; [left|now right].
  split; [reflexivity|]. split; [|assumption].
  apply rnd_error_pos_normal. now apply one_is_normal.
Qed.

Lemma trunc_floor (x : Q) : 0 <= x -> trunc x = Qfloor x.
Proof.
  destruct x as [n d]. unfold Qle, trunc, Qfloor. simpl. intros H.
  apply Z.quot_div_nonneg; lia.
Qed.

Lemma trunc_nonneg (x : Q) : 0 <= x -> (0 <= trunc x)%Z.
Proof.
  intros H. rewrite trunc_floor by assumption.
  change 0%Z with (Qfloor 0). now apply Qfloor_resp_le.
Qed.

Lemma trunc_nonpos (x : Q) : x <= 0 -> (trunc x <= 0)%Z.
Proof.
  destruct x as [n d]. unfold Qle, trunc. simpl. intros H.
  assert (Hn : (n <= 0)%Z) by lia.
  rewrite <- (Z.opp_involutive n), Z.quot_opp_l by lia.
  assert (0 <= - n ÷ Z.pos d)%Z; [|lia].
  apply Z.quot_pos; lia.
Qed.

(** [int()] never moves away from zero, and never by a whole unit *)
Lemma trunc_mono (x y : Q) : 0 <= x -> x <= y -> (trunc x <= trunc y)%Z.
Proof.
  intros Hx Hxy. rewrite !trunc_floor by lra. now apply Qfloor_resp_le.
Qed.

Local Close Scope Q_scope.

Lemma clamp_bounds (x : Z) : 3 <= Z.min (Z.max x 3) 6 <= 6.
Proof. lia. Qed.


(** The count of line 93, by the value of the quotient *)
Lemma num_steps_of_quotient (fps : float) (frame_count : Z) :
  keyframe_num_steps fps frame_count
  = match keyframe_quotient fps frame_count with
    | Ok (Finite raw) => Ok (Z.min (Z.max (trunc raw) 3) 6)
    | Ok (Inf _) =>
        Raise (Exn OverflowError "cannot convert float infinity to integer")
    | Ok NaN => Raise (Exn ValueError "cannot convert float NaN to integer")
    | Raise e => Raise e
    end.
Proof.
  unfold keyframe_num_steps.
  destruct (keyframe_quotient fps frame_count) as [[raw|s|]|e]; reflexivity.
Qed.

Lemma keyframe_num_steps_bounds fps frame_count n :
  keyframe_num_steps fps frame_count = Ok n -> 3 <= n <= 6.
Proof.
  rewrite num_steps_of_quotient.
  destruct (keyframe_quotient fps frame_count) as [[raw|s|]|e]; try discriminate.
  intros [= <-]. apply clamp_bounds.
Qed.

Lemma floordiv_nonzero a b : b <> 0 -> floordiv a b = Ok (a / b).
Proof. intros Hb. unfold floordiv. now apply Z.eqb_neq in Hb as ->. Qed.

Lemma range_length n : length (range n) = Z.to_nat n.
Proof. apply length_seq. Qed.

Lemma range_lookup n i : (i < Z.to_nat n)%nat -> range n !! i = Some i.
Proof. intros H. unfold range. now rewrite lookup_seq_lt. Qed.

(** ** The sampling plan *)


Lemma plan_of_failure (fps : float) (frame_count : Z) (e : exn) :
  keyframe_num_steps fps frame_count = Raise e ->
  sample_plan fps frame_count = Raise e.
Proof. intros Hn. unfold sample_plan. now rewrite Hn. Qed.
Local Open Scope Q_scope.

Lemma rnd_abs x : Qabs (rnd x) <= Qabs x * (1 + u) + eta.
Proof.
  pose proof (rnd_error x) as [H1 H2]. pose proof (Qabs_nonneg x) as Ha.
  pose proof (Qle_Qabs x) as Hx.
  assert (Hx' : - x <= Qabs x) by (rewrite <- Qabs_opp; apply Qle_Qabs).
  apply Qabs_Qle_condition. unfold u, eta in *. split; lra.
Qed.

(** A number well below [2^1024] rounds to a finite double *)
Lemma binary64_small x :
  Qabs x * (1 + u) + eta < top -> binary64 x = Finite (rnd x) /\ Qabs (rnd x) < top.
Proof.
  intros H. pose proof (rnd_abs x) as Hr.
  destruct (binary64_cases x) as [[E Ht]|[E Ht]]; [auto | lra].
Qed.

Lemma binary64_finite_inv x r :
  binary64 x = Finite r -> r = rnd x /\ Qabs r < top.
Proof.
  destruct (binary64_cases x) as [[-> Ht]|[-> Ht]]; [|discriminate].
  intros [= <-]. auto.
Qed.

Lemma Qabs_div x y : 0 < y -> Qabs (x / y) == Qabs x / y.
Proof.
  intros Hy. unfold Qdiv. rewrite Qabs_Qmult.
  rewrite (Qabs_pos (/ y)); [reflexivity|].
  apply Qlt_le_weak, Qinv_lt_0_compat. assumption.
Qed.




Local Close Scope Q_scope.

Local Open Scope Q_scope.

Lemma Qeq_bool_false (a b : Q) : Qeq_bool a b = false -> ~ a == b.
Proof. intros H E. apply Qeq_bool_iff in E. congruence. Qed.


(** The quotient of line 93 against the exact one: when it is finite, it
    times the rate times 20 is the frame count within a relative [eps] *)
Lemma quotient_bounds (q : Q) (frame_count : Z) (raw : Q) :
  0 < q -> (1 <= frame_count)%Z ->
  keyframe_quotient (Finite q) frame_count = Ok (Finite raw) ->
  0 <= raw /\
  raw * (q * 20) * (1 - eps) <= inject_Z frame_count /\
  (4 * (q * 20) <= inject_Z frame_count ->
   inject_Z frame_count <= raw * (q * 20) * (1 + eps)).
Proof.
  intros Hq Hfc. unfold keyframe_quotient.
  assert (Hfc1 : 1 <= inject_Z frame_count).
  { rewrite (Zle_Qle 1) in Hfc. exact Hfc. }
  destruct (of_int_pos frame_count Hfc) as [(-> & Hf & Hft)| ->]; [|discriminate].
  set (fc := inject_Z frame_count) in *. set (f := rnd fc) in *.
  cbn [mbind result_bind]. unfold mul.
  assert (HP : 0 <= q * 20) by lra. set (P := q * 20) in *.
  pose proof (rnd_error_pos _ HP) as Hp.
  destruct (binary64_nonneg _ HP) as [(-> & Hp0 & Hpt)|[-> Hpt]].
  - set (p := rnd P) in *. unfold truediv.
    destruct (Qeq_bool p 0) eqn:Ep; [discriminate|].
    apply Qeq_bool_false in Ep. assert (Hp1 : 0 < p) by lra.
    assert (Hf1 : 0 < f) by (unfold u in Hf; lra).
    assert (HX : 0 <= f / p) by (apply Qle_shift_div_l; lra).
    pose proof (rnd_error_pos _ HX) as Hr.
    destruct (binary64_nonneg _ HX) as [(-> & Hr0 & Hrt)|[-> _]]; [|discriminate].
    intros [= <-]. set (r := rnd (f / p)) in *. set (X := f / p) in *.
    assert (HXp : X * p == f) by (unfold X; field; lra).
    (* the divisor is not tiny: a finite quotient bounds it from below *)
    assert (HXt : X < 2 * top) by (unfold u, eta, top in *; lra).
    assert (Hfp : X * p < 2 * top * p) by (apply Qmult_lt_compat_r; lra).
    assert (Heta : eta <= (1 # 2) * eps * p) by (unfold u, eta, top, eps in *; lra).
    (* products *)
    assert (Hrp1 : r * p <= (X * (1 + u) + eta) * p) by (apply Qmult_le_compat_r; lra).
    assert (Hrp2 : (X * (1 - u) - eta) * p <= r * p) by (apply Qmult_le_compat_r; lra).
    assert (HrP1 : (P * (1 - u) - eta) * r <= p * r) by (apply Qmult_le_compat_r; lra).
    assert (HrP2 : p * r <= (P * (1 + u) + eta) * r) by (apply Qmult_le_compat_r; lra).
    assert (Her : eta * r <= (1 # 2) * eps * p * r) by (apply Qmult_le_compat_r; lra).
    unfold u, eta, top, eps in *. split_and!; [lra | lra | intros _; lra].
  - intros [= <-]. unfold u, eta, top, eps in *. split_and!; [lra | lra | intros H4; lra].
Qed.

Lemma floor_lt_iff (x : Q) (k : Z) : (Qfloor x < k)%Z <-> x < inject_Z k.
Proof.
  split.
  - intros H. apply Qlt_le_trans with (inject_Z (Qfloor x + 1)).
    + apply Qlt_floor.
    + rewrite <- Zle_Qle. lia.
  - intros H. rewrite Zlt_Qlt. apply Qle_lt_trans with x; [apply Qfloor_le | exact H].
Qed.

(** The count of line 93 against the planner's count in the words of the
    specification: it is the specified count for a rate within a relative
    [eps] of the given one *)
Lemma num_steps_between (q : Q) (frame_count n : Z) :
  0 < q -> (1 <= frame_count)%Z ->
  keyframe_num_steps (Finite q) frame_count = Ok n ->
  (spec_num_steps (q * (1 + eps)) frame_count <= n
   <= spec_num_steps (q * (1 - eps)) frame_count)%Z.
Proof.
  intros Hq Hfc. rewrite num_steps_of_quotient.
  destruct (keyframe_quotient (Finite q) frame_count) as [[raw|s|]|e] eqn:Hraw;
    try discriminate.
  intros [= <-].
  destruct (quotient_bounds q frame_count raw Hq Hfc Hraw) as (Hr0 & Hup & Hlo).
  rewrite trunc_floor by assumption. unfold spec_num_steps.
  set (fc := inject_Z frame_count) in *.
  assert (He : 0 < eps /\ eps < 1) by (split; reflexivity).
  split.
  - destruct (Qlt_le_dec fc (4 * (q * 20))) as [Hlt|Hge].
    + assert (H4 : (Qfloor (fc / (q * (1 + eps) * 20)) < 4)%Z).
      { apply floor_lt_iff. apply Qlt_shift_div_r; [|change (inject_Z 4) with 4]; nra. }
      lia.
    + assert (Hle : fc / (q * (1 + eps) * 20) <= raw).
      { apply Qle_shift_div_r; [nra|]. specialize (Hlo Hge). lra. }
      apply Qfloor_resp_le in Hle. lia.
  - assert (Hle : raw <= fc / (q * (1 - eps) * 20)).
    { apply Qle_shift_div_l; [nra | lra]. }
    apply Qfloor_resp_le in Hle. lia.
Qed.

Local Close Scope Q_scope.




(** The loop of the sampling phase walks the plan: its indices are the
    ordinals of the plan and the frame it seeks at turn [i] is the plan's. *)
Lemma plan_drives_loop (w : env) (cap : capture) (fps : float)
    (frame_count guide_id : Z) (plan : list (nat * Z)) :
  sample_plan fps frame_count = Ok plan ->
  exists n,
    keyframe_num_steps fps frame_count = Ok n /\
    (forall fs, extract_body w cap fps frame_count guide_id fs
       = sample_loop w cap guide_id n (frame_count / n) plan.*1 [] [] fs) /\
    (forall i pos, (i, pos) ∈ plan -> pos = frame_number i (frame_count / n)).
Proof.
  unfold sample_plan, extract_body.
  destruct (keyframe_num_steps fps frame_count) as [n|e] eqn:Hn; [|discriminate].
  pose proof (keyframe_num_steps_bounds _ _ _ Hn) as Hb.
  simpl. rewrite floordiv_nonzero by lia. simpl. intros [= <-].
  assert (Hfst : forall l : list nat,
            (map (fun i => (i, frame_number i (frame_count / n))) l).*1 = l).
  { induction l as [|x l IH]; [reflexivity|]. simpl. f_equal. exact IH. }
  exists n. split_and!; [reflexivity | |].
  - intros fs. unfold mbind, M_bind, lift.
    rewrite floordiv_nonzero by lia. now rewrite Hfst.
  - intros i pos Hin. apply list_elem_of_In, in_map_iff in Hin as (j & [= -> ->] & _).
    reflexivity.
Qed.

(** ** The sampling loop *)

Section Loop.

Variables (w : env) (cap : capture) (guide_id num_steps interval : Z).

Local Abbreviation rd i := (read cap i (frame_number i interval)).
Local Abbreviation loop := (sample_loop w cap guide_id num_steps interval).

Lemma sample_raise i e fs :
  rd i = Raise e ->
  sample w cap guide_id num_steps interval i fs = (Raise e, fs).
Proof. intros H. unfold sample, mbind, M_bind, lift. now rewrite H. Qed.

Lemma sample_skip i fs :
  rd i = Ok None ->
  sample w cap guide_id num_steps interval i fs = (Ok None, fs).
Proof. intros H. unfold sample, mbind, M_bind, lift. now rewrite H. Qed.

Lemma sample_frame i f fs :
  rd i = Ok (Some f) ->
  sample w cap guide_id num_steps interval i fs
    = (Ok (Some (_generate_step_from_position i num_steps (keyframe_path w guide_id i),
                 keyframe_path w guide_id i)),
       {[ keyframe_path w guide_id i ]} ∪ fs)
  \/ exists e, sample w cap guide_id num_steps interval i fs = (Raise e, fs).
Proof.
  intros H. unfold sample, mbind, M_bind, lift, write_file. rewrite H.
  destruct (_optimize_image w f 1200 80) as [j|e]; [|right; eauto].
  destruct (open_wb w (keyframe_path w guide_id i)) as [[]|e]; [|right; eauto].
  left. reflexivity.
Qed.



(** The loop in general: files are only added; a loop that ends without
    raising appended the records of the kept samples, read every index
    without an exception, and left each kept keyframe on disk. *)
Lemma loop_spec indices : forall steps paths fs,
  exists r fs', loop indices steps paths fs = (r, fs') /\ fs ⊆ fs' /\
    match r with
    | Ok out =>
        out = steps ++ kept_steps w cap guide_id num_steps interval indices /\
        (forall i, i ∈ indices -> exists o, rd i = Ok o) /\
        (forall i, i ∈ indices -> has_frame (rd i) = true ->
                   keyframe_path w guide_id i ∈ fs')
    | Raise _ => True
    end.
Proof.
  induction indices as [|i rest IH]; intros steps paths fs.
  - exists (Ok steps), fs.
    split_and!; [reflexivity | set_solver | | intros i Hi; inversion Hi
                | intros i Hi; inversion Hi].
    unfold kept_steps. simpl. now rewrite app_nil_r.
  - simpl. unfold mbind, M_bind at 1.
    destruct (rd i) as [[f|]|e] eqn:Hrd.
    + destruct (sample_frame i f fs Hrd) as [-> | [e ->]].
      * destruct (IH (steps ++ [_generate_step_from_position i num_steps
                                  (keyframe_path w guide_id i)])
                     (paths ++ [keyframe_path w guide_id i])
                     ({[ keyframe_path w guide_id i ]} ∪ fs))
          as (r & fs' & -> & Hsub & Hr).
        exists r, fs'. split_and!; [reflexivity | set_solver |].
        destruct r as [out|]; [|exact I].
        destruct Hr as (-> & Hok & Hfiles). split_and!.
        -- unfold kept_steps. simpl. rewrite Hrd. simpl.
           now rewrite <- app_assoc.
        -- intros j Hj. apply elem_of_cons in Hj as [->|Hj]; eauto.
        -- intros j Hj Hf. apply elem_of_cons in Hj as [->|Hj]; [set_solver|eauto].
      * exists (Raise e), fs. split_and!; [reflexivity | set_solver | exact I].
    + rewrite sample_skip by assumption.
      destruct (IH steps paths fs) as (r & fs' & -> & Hsub & Hr).
      exists r, fs'. split_and!; [reflexivity | assumption |].
      destruct r as [out|]; [|exact I].
      destruct Hr as (-> & Hok & Hfiles). split_and!.
      * unfold kept_steps. simpl. now rewrite Hrd.
      * intros j Hj. apply elem_of_cons in Hj as [->|Hj]; eauto.
      * intros j Hj Hf. apply elem_of_cons in Hj as [->|Hj]; [|eauto].
        rewrite Hrd in Hf. discriminate.
    + rewrite sample_raise with (e := e) by assumption.
      exists (Raise e), fs. split_and!; [reflexivity | set_solver | exact I].
Qed.

End Loop.

(** ** The mock list *)

Lemma mock_num_steps_bounds (duration : float) (n : Z) :
  mock_num_steps duration = Ok n -> 3 <= n <= 6.
Proof.
  unfold mock_num_steps.
  destruct (truediv duration (Finite 30)) as [raw|e]; [|discriminate].
  cbn [mbind result_bind]. destruct (int raw) as [k|e]; [|discriminate].
  intros [= <-]. apply clamp_bounds.
Qed.

(** A mock list that is made has the length of line 166 and holds the
    mock records in order *)
Lemma mock_steps_inv (guide_id : Z) (duration : float) (l : list step) :
  _generate_mock_steps guide_id duration = Ok l ->
  mock_num_steps duration = Ok (Z.of_nat (length l)) /\
  (3 <= length l <= 6)%nat /\
  (forall k, (k < length l)%nat -> l !! k = Some (mock_step k)).
Proof.
  unfold _generate_mock_steps.
  destruct (mock_num_steps duration) as [n|e] eqn:Hn; [|discriminate].
  pose proof (mock_num_steps_bounds _ _ Hn) as Hb.
  intros [= <-]. rewrite length_map, range_length, Z2Nat.id by lia.
  split_and!; [reflexivity | lia | lia |].
  intros k Hk. now rewrite list_lookup_fmap, range_lookup.
Qed.

Lemma fallback_inv (fps : float) (frame_count guide_id : Z) (l : list step) :
  fallback fps frame_count guide_id = Ok l ->
  exists duration,
    fallback_duration fps frame_count = Ok duration /\
    _generate_mock_steps guide_id duration = Ok l.
Proof.
  unfold fallback.
  destruct (fallback_duration fps frame_count) as [d|e]; [|discriminate].
  eauto.
Qed.

Lemma source_mock_inv (cap : capture) (guide_id : Z) (l : list step) :
  source_mock cap guide_id = Ok l ->
  exists frame_count duration,
    int (CAP_PROP_FRAME_COUNT cap) = Ok frame_count /\
    fallback_duration (CAP_PROP_FPS cap) frame_count = Ok duration /\
    _generate_mock_steps guide_id duration = Ok l.
Proof.
  unfold source_mock.
  destruct (int (CAP_PROP_FRAME_COUNT cap)) as [fc|e]; [|discriminate].
  cbn [mbind result_bind]. intros H.
  apply fallback_inv in H as (d & Hd & Hl). eauto.
Qed.

Lemma int_error (x : float) (e : exn) :
  int x = Raise e -> exc_class e = OverflowError \/ exc_class e = ValueError.
Proof. destruct x; [discriminate|..]; intros [= <-]; auto. Qed.

Lemma of_int_error (z : Z) (e : exn) :
  of_int z = Raise e -> exc_class e = OverflowError.
Proof.
  unfold of_int. destruct (binary64 (inject_Z z)); [discriminate| |discriminate].
  now intros [= <-].
Qed.

(** A division by a float above 0, or by 30, does not raise *)
Lemma truediv_by_positive (x y : float) :
  gt y 0 = true -> exists r, truediv x y = Ok r.
Proof.
  unfold truediv. destruct y as [q|s|]; [|eauto..].
  cbn [gt]. destruct (Qeq_bool q 0) eqn:Eq; [|eauto].
  apply Qeq_bool_iff in Eq. rewrite Eq. discriminate.
Qed.

Lemma truediv_by_30 (x : float) : exists r, truediv x (Finite 30) = Ok r.
Proof. apply truediv_by_positive. reflexivity. Qed.

(** What keeps a mock list from being made: [int()] of an infinity or of
    a NaN, or an int beyond the doubles *)
Lemma fallback_error (fps : float) (frame_count guide_id : Z) (e : exn) :
  fallback fps frame_count guide_id = Raise e ->
  exc_class e = OverflowError \/ exc_class e = ValueError.
Proof.
  unfold fallback, fallback_duration.
  assert (Hmock : forall d, _generate_mock_steps guide_id d = Raise e ->
            exc_class e = OverflowError \/ exc_class e = ValueError).
  { intros d. unfold _generate_mock_steps, mock_num_steps.
    destruct (truediv_by_30 d) as [r ->]. cbn [mbind result_bind].
    destruct (int r) as [k|e'] eqn:Hk; [discriminate|].
    cbn [mbind result_bind]. intros [= <-]. now apply int_error in Hk. }
  destruct (gt fps 0) eqn:Hgt; [|apply Hmock].
  destruct (of_int frame_count) as [c|e'] eqn:Hc.
  - cbn [mbind result_bind]. destruct (truediv_by_positive c fps Hgt) as [d ->].
    apply Hmock.
  - cbn [mbind result_bind]. intros [= <-]. left. now apply of_int_error in Hc.
Qed.

Lemma source_mock_error (cap : capture) (guide_id : Z) (e : exn) :
  source_mock cap guide_id = Raise e ->
  exc_class e = OverflowError \/ exc_class e = ValueError.
Proof.
  unfold source_mock.
  destruct (int (CAP_PROP_FRAME_COUNT cap)) as [fc|e'] eqn:Hfc.
  - apply fallback_error.
  - cbn [mbind result_bind]. intros [= <-]. now apply int_error in Hfc.
Qed.
(** ** The orchestrator *)

(** The sampling phase ends with what the fallback gives, or with the
    records of the samples that were kept. *)
Lemma extract_result (w : env) (cap : capture) (fps : float)
    (frame_count guide_id : Z) (fs : gset string) :
  exists r fs',
    _extract_keyframes_and_generate_steps w cap fps frame_count guide_id fs
      = (r, fs') /\
    fs ⊆ fs' /\
    (r = fallback fps frame_count guide_id \/
     exists n,
       keyframe_num_steps fps frame_count = Ok n /\
       r = Ok (kept_steps w cap guide_id n (frame_count / n) (range n)) /\
       (forall i, i ∈ range n ->
          exists o, read cap i (frame_number i (frame_count / n)) = Ok o) /\
       (forall i, i ∈ range n ->
          has_frame (read cap i (frame_number i (frame_count / n))) = true ->
          keyframe_path w guide_id i ∈ fs')).
Proof.
  unfold _extract_keyframes_and_generate_steps, try_except, extract_body.
  unfold mbind, M_bind, lift.
  destruct (keyframe_num_steps fps frame_count) as [n|e] eqn:Hn.
  - pose proof (keyframe_num_steps_bounds _ _ _ Hn) as Hb.
    rewrite floordiv_nonzero by lia.
    destruct (loop_spec w cap guide_id n (frame_count / n) (range n) [] [] fs)
      as (r & fs' & -> & Hsub & Hr).
    destruct r as [out|e].
    + destruct Hr as (-> & Hok & Hfiles).
      eexists _, fs'. split_and!; [reflexivity | assumption |].
      right. exists n. split_and!; [reflexivity | reflexivity | assumption | assumption].
    + eexists _, fs'. split_and!; [reflexivity | assumption | now left].
  - eexists _, fs. split_and!; [reflexivity | set_solver | now left].
Qed.

Lemma download_fetched (w : env) (url : string) (fs : gset string) :
  fetched w url = true ->
  _download_video w url fs = (Ok (download_path w), {[ download_path w ]} ∪ fs).
Proof.
  unfold fetched, _download_video, try_except, mbind, M_bind, lift, write_file.
  fold (download_path w).
  destruct (requests_get w url) as [resp|]; [|discriminate].
  destruct (raise_for_status resp) as [[]|]; [|discriminate].
  destruct (open_wb w (download_path w)) as [[]|]; [|discriminate].
  destruct (iter_content resp) as [[]|]; [|discriminate].
  reflexivity.
Qed.

Lemma download_failed (w : env) (url : string) (fs : gset string) :
  fetched w url = false ->
  exists e fs', _download_video w url fs = (Raise e, fs') /\ fs ⊆ fs'.
Proof.
  unfold fetched, _download_video, try_except, mbind, M_bind, lift, write_file, raise.
  fold (download_path w).
  destruct (requests_get w url) as [resp|e]; [|intros _; exists e, fs; split; [reflexivity | set_solver]].
  destruct (raise_for_status resp) as [[]|e]; [|intros _; exists e, fs; split; [reflexivity | set_solver]].
  destruct (open_wb w (download_path w)) as [[]|e]; [|intros _; exists e, fs; split; [reflexivity | set_solver]].
  destruct (iter_content resp) as [[]|e]; [discriminate|].
  intros _. eexists e, _. split; [reflexivity | set_solver].
Qed.

(** Line 37 raises only when the frame count does not fit a double, and
    then the fallback's own division raises the same *)
Lemma video_duration_cases (fps : float) (frame_count : Z) :
  (exists duration, video_duration fps frame_count = Ok duration) \/
  (exists e, of_int frame_count = Raise e /\
             video_duration fps frame_count = Raise e /\
             fallback_duration fps frame_count = Raise e).
Proof.
  unfold video_duration, fallback_duration.
  destruct (gt fps 0) eqn:Hgt; [|left; eauto].
  destruct (of_int frame_count) as [count|e]; [|right; eauto].
  left. cbn [mbind result_bind]. now apply truediv_by_positive.
Qed.




(** Once the source opens, [process_video] is that run *)
Lemma process_video_opened (w : env) (video_path : string) (guide_id : Z)
    (fs : gset string) :
  opens w video_path = true ->
  process_video w video_path guide_id fs
  = opened_run w (source w video_path) guide_id (after_fetch w video_path fs).
Proof.
  unfold opens, source, source_path, after_fetch, process_video, is_url, opened_run.
  intros [Hf Ho]%andb_true_iff.
  unfold try_except. unfold mbind at 1. unfold M_bind at 1.
  destruct (startswith video_path "http://" || startswith video_path "https://").
  - rewrite download_fetched by assumption. rewrite Ho. cbn [negb].
    unfold mbind, M_bind, mret, M_ret, lift, raise.
    destruct (int (CAP_PROP_FRAME_COUNT (VideoCapture w (download_path w))))
      as [frame_count|e]; [|reflexivity].
    destruct (video_duration (CAP_PROP_FPS (VideoCapture w (download_path w)))
                frame_count) as [duration|e]; [|reflexivity].
    destruct (_extract_keyframes_and_generate_steps w (VideoCapture w (download_path w))
                (CAP_PROP_FPS (VideoCapture w (download_path w))) frame_count
                guide_id ({[ download_path w ]} ∪ fs)) as [[l|e] fs']; reflexivity.
  - unfold mret at 1. unfold M_ret at 1. rewrite Ho. cbn [negb].
    unfold mbind, M_bind, mret, M_ret, lift, raise.
    destruct (int (CAP_PROP_FRAME_COUNT (VideoCapture w video_path)))
      as [frame_count|e]; [|reflexivity].
    destruct (video_duration (CAP_PROP_FPS (VideoCapture w video_path))
                frame_count) as [duration|e]; [|reflexivity].
    destruct (_extract_keyframes_and_generate_steps w (VideoCapture w video_path)
                (CAP_PROP_FPS (VideoCapture w video_path)) frame_count
                guide_id fs) as [[l|e] fs']; reflexivity.
Qed.

(** A source that does not open: the error reaches the caller *)
Lemma process_video_unopened (w : env) (video_path : string) (guide_id : Z)
    (fs : gset string) :
  opens w video_path = false ->
  exists e fs',
    process_video w video_path guide_id fs = (Raise e, fs') /\ fs ⊆ fs' /\
    (is_url video_path = false ->
       fs' = fs /\
       e = Exn ValueError ("Could not open video file: " +:+ video_path)).
Proof.
  unfold opens, source, source_path, process_video, is_url.
  intros Hop.
  unfold try_except. unfold mbind at 1. unfold M_bind at 1.
  destruct (startswith video_path "http://" || startswith video_path "https://").
  - destruct (fetched w video_path) eqn:Hf.
    + rewrite download_fetched by assumption.
      simpl in Hop. rewrite Hop. cbn [negb]. unfold raise.
      eexists _, _. split_and!; [reflexivity | set_solver | discriminate].
    + destruct (download_failed w video_path fs Hf) as (e & fs' & -> & Hsub).
      unfold raise. exists e, fs'. split_and!; [reflexivity | assumption | discriminate].
  - unfold mret at 1. unfold M_ret at 1. simpl in Hop. rewrite Hop.
    cbn [negb]. unfold raise.
    eexists _, _. split_and!; [reflexivity | set_solver |].
    intros _. split; reflexivity.
Qed.

(** What the run of a capture that opened ends with: the mock list of
    the source, or the error that kept it from being made, or the records
    of the samples that were kept *)
Lemma opened_run_result (w : env) (cap : capture) (guide_id : Z)
    (fs : gset string) :
  exists r fs',
    opened_run w cap guide_id fs = (r, fs') /\
    fs ⊆ fs' /\
    (r = source_mock cap guide_id \/
     exists frame_count n,
       int (CAP_PROP_FRAME_COUNT cap) = Ok frame_count /\
       keyframe_num_steps (CAP_PROP_FPS cap) frame_count = Ok n /\
       r = Ok (kept_steps w cap guide_id n (frame_count / n) (range n)) /\
       (forall i, i ∈ range n ->
          exists o, read cap i (frame_number i (frame_count / n)) = Ok o) /\
       (forall i, i ∈ range n ->
          has_frame (read cap i (frame_number i (frame_count / n))) = true ->
          keyframe_path w guide_id i ∈ fs')).
Proof.
  unfold opened_run, source_mock.
  destruct (int (CAP_PROP_FRAME_COUNT cap)) as [frame_count|e].
  - destruct (video_duration_cases (CAP_PROP_FPS cap) frame_count)
      as [[duration ->] | (e & _ & -> & He)].
    + destruct (extract_result w cap (CAP_PROP_FPS cap) frame_count guide_id fs)
        as (r & fs' & -> & Hsub & Hr).
      exists r, fs'. split_and!; [reflexivity | assumption |].
      destruct Hr as [-> | (n & Hn & -> & Hok & Hfiles)]; [now left|].
      right. exists frame_count, n. auto.
    + exists (Raise e), fs. split_and!; [reflexivity | set_solver |].
      left. cbn [mbind result_bind]. unfold fallback. now rewrite He.
  - exists (Raise e), fs. split_and!; [reflexivity | set_solver | now left].
Qed.

Local Open Scope Q_scope.

(** A finite duration is followed by a mock list *)
Lemma mock_of_finite (guide_id : Z) (d : Q) :
  Qabs d < top -> exists l, _generate_mock_steps guide_id (Finite d) = Ok l.
Proof.
  intros Hd. unfold _generate_mock_steps, mock_num_steps, truediv.
  change (Qeq_bool 30 0) with false. cbn [mbind result_bind].
  assert (H : Qabs (d / 30) * (1 + u) + eta < top).
  { rewrite Qabs_div by reflexivity. pose proof (Qabs_nonneg d).
    assert (E : Qabs d / 30 == Qabs d * (1 # 30)) by (field; discriminate).
    rewrite E. unfold u, eta, top in *. lra. }
  destruct (binary64_small _ H) as [-> _]. cbn [int mbind result_bind]. eauto.
Qed.

Lemma fallback_of_finite (fps : float) (frame_count guide_id : Z) (d : Q) :
  fallback_duration fps frame_count = Ok (Finite d) ->
  exists l, fallback fps frame_count guide_id = Ok l.
Proof.
  intros Hd. unfold fallback. rewrite Hd. cbn [mbind result_bind].
  apply mock_of_finite. revert Hd. unfold fallback_duration.
  destruct (gt fps 0).
  - unfold of_int.
    destruct (binary64_cases (inject_Z frame_count)) as [[-> _]|[-> _]];
      cbn [mbind result_bind]; [|discriminate]. unfold truediv.
    destruct fps as [q|s|]; [| |discriminate].
    + destruct (Qeq_bool q 0); [discriminate|].
      intros [= H]. now apply binary64_finite_inv in H as [_ H].
    + intros [= <-]. reflexivity.
  - intros [= <-]. reflexivity.
Qed.

Lemma trunc_abs (c : Q) : inject_Z (Z.abs (trunc c)) <= Qabs c.
Proof.
  destruct (Qlt_le_dec c 0) as [Hneg|Hpos].
  - assert (Hc : - c == Qabs c) by (symmetry; apply Qabs_neg; lra).
    rewrite <- Hc.
    assert (E : trunc c = (- trunc (- c))%Z).
    { destruct c as [n d]. unfold trunc, Qopp. simpl.
      rewrite Z.quot_opp_l by lia. lia. }
    rewrite E, Z.abs_opp, Z.abs_eq by (apply trunc_nonneg; lra).
    rewrite trunc_floor by lra. apply Qfloor_le.
  - rewrite (Qabs_pos c Hpos), Z.abs_eq by now apply trunc_nonneg.
    rewrite trunc_floor by assumption. apply Qfloor_le.
Qed.

(** Metadata in the ordinary range always has its mock list *)
Lemma ordinary_source_mock (cap : capture) (guide_id : Z) :
  ordinary cap = true -> exists l, source_mock cap guide_id = Ok l.
Proof.
  unfold ordinary, source_mock.
  destruct (CAP_PROP_FRAME_COUNT cap) as [c|s|]; [|discriminate..].
  intros [Hc Hfps]%andb_true_iff. apply Qle_bool_iff in Hc.
  cbn [int mbind result_bind].
  pose proof (trunc_abs c) as Hz. set (z := trunc c) in *.
  assert (Hz63 : Qabs (inject_Z z) <= inject_Z (2 ^ 63)).
  { assert (E : Qabs (inject_Z z) == inject_Z (Z.abs z)) by reflexivity.
    rewrite E. lra. }
  assert (Hbig : inject_Z (2 ^ 63) == 9223372036854775808) by reflexivity.
  assert (Hf : Qabs (inject_Z z) * (1 + u) + eta < top)
    by (unfold u, eta, top in *; lra).
  destruct (binary64_small _ Hf) as [Ef _].
  pose proof (rnd_abs (inject_Z z)) as Hfa. set (f := rnd (inject_Z z)) in *.
  assert (Hd : exists d, fallback_duration (CAP_PROP_FPS cap) z = Ok (Finite d));
    [|destruct Hd as [d Hd]; now apply fallback_of_finite with d].
  unfold fallback_duration.
  destruct (gt (CAP_PROP_FPS cap) 0) eqn:Hgt; [|eauto].
  unfold of_int. rewrite Ef. cbn [mbind result_bind]. unfold truediv.
  destruct (CAP_PROP_FPS cap) as [q|s'|]; [|eauto|discriminate].
  cbn [gt] in Hgt. apply negb_true_iff in Hgt. change (inject_Z 0) with 0 in Hgt.
  assert (Hq : 0 < q).
  { apply Qnot_le_lt. intros H. apply Qle_bool_iff in H. congruence. }
  destruct (Qeq_bool q 0) eqn:E0.
  { apply Qeq_bool_iff in E0. lra. }
  apply orb_true_iff in Hfps as [H|H]; apply Qle_bool_iff in H; [lra|].
  assert (EK : pow2 (-950) == / pow2 950) by reflexivity.
  pose proof (pow2_pos 950) as HK. set (K := pow2 950) in *.
  assert (HKq : 1 <= K * q).
  { assert (HKK : K * / K == 1) by (field; lra).
    assert (K * / K <= K * q) by (apply Qmult_le_l; lra). lra. }
  pose proof (Qabs_nonneg f) as Hf0.
  assert (Hfq : Qabs f * 1 <= Qabs f * (K * q)).
  { rewrite !(Qmult_comm (Qabs f)). apply Qmult_le_compat_r; assumption. }
  assert (Hdiv : Qabs (f / q) <= Qabs f * K).
  { rewrite Qabs_div by assumption. apply Qle_shift_div_r; [assumption | lra]. }
  assert (HKv : K <= top * (1 # 1000000000000000000000)) by (vm_compute; discriminate).
  assert (HfK : Qabs f * K <= Qabs f * (top * (1 # 1000000000000000000000))).
  { rewrite !(Qmult_comm (Qabs f)). apply Qmult_le_compat_r; assumption. }
  assert (Hsmall : Qabs (f / q) * (1 + u) + eta < top).
  { assert (Ht : 0 < top) by reflexivity.
    assert (Hft : Qabs f * top <= 18446744073709551616 * top).
    { apply Qmult_le_compat_r; [|lra]. unfold u, eta in *. lra. }
    unfold u, eta, top in *. lra. }
  destruct (binary64_small _ Hsmall) as [-> _]. eauto.
Qed.

Local Close Scope Q_scope.







(** ** A zero frame rate, end to end *)

Lemma binary64_zero (x : Q) : (x == 0)%Q -> binary64 x = Finite 0.
Proof. intros H. unfold binary64. now rewrite (rnd_zero x H). Qed.

Lemma num_steps_zero_rate (q : Q) (frame_count : Z) (x : float) :
  (q == 0)%Q -> of_int frame_count = Ok x ->
  keyframe_num_steps (Finite q) frame_count
  = Raise (Exn ZeroDivisionError "float division by zero").
Proof.
  intros Hq Hx. unfold keyframe_num_steps, keyframe_quotient. rewrite Hx.
  cbn [mbind result_bind mul]. rewrite binary64_zero; [reflexivity|].
  rewrite Hq. reflexivity.
Qed.

(** A plan that is not computed sends the sampling phase to the fallback *)
Lemma extract_plan_fails (w : env) (cap : capture) (fps : float)
    (frame_count guide_id : Z) (fs : gset string) (e : exn) :
  keyframe_num_steps fps frame_count = Raise e ->
  _extract_keyframes_and_generate_steps w cap fps frame_count guide_id fs
  = (fallback fps frame_count guide_id, fs).
Proof.
  intros Hn.
  unfold _extract_keyframes_and_generate_steps, try_except, extract_body.
  unfold mbind, M_bind, lift. now rewrite Hn.
Qed.

(** C4, as stated, fails: at frame rate 0 the plan is not computed, the
    division raises. *)
Lemma plan_zero_rate_counterexample :
  sample_plan (Finite 0) 3000
    = Raise (Exn ZeroDivisionError "float division by zero") /\
  ~ (exists plan, sample_plan (Finite 0) 3000 = Ok plan /\ length plan = 3%nat
                  /\ Forall (fun p => snd p = 0) plan).
Proof.
  split; [reflexivity|]. intros (plan & H & _). discriminate H.
Qed.

(** C4, amended. At frame rate 0 the division of line 93 raises
    [ZeroDivisionError], whatever the frame count (one that a double can
    hold, as every count read from the decoder is), so no plan is computed;
    the handler of the sampling phase absorbs the error: no frame is sought,
    no keyframe is written, and the run of a source that opens with a
    finite frame count does not fail but answers with exactly 3 mock records
    (duration taken as 60 seconds), orders 1, 2, 3. *)
Theorem zero_rate_falls_back (w : env) (video_path : string) (guide_id : Z)
    (fs : gset string) (q c : Q) :
  opens w video_path = true ->
  CAP_PROP_FPS (source w video_path) = Finite q -> (q == 0)%Q ->
  CAP_PROP_FRAME_COUNT (source w video_path) = Finite c ->
  (forall frame_count x, of_int frame_count = Ok x ->
     sample_plan (CAP_PROP_FPS (source w video_path)) frame_count
     = Raise (Exn ZeroDivisionError "float division by zero")) /\
  (forall frame_count,
     exists e, sample_plan (CAP_PROP_FPS (source w video_path)) frame_count = Raise e) /\
  process_video w video_path guide_id fs
    = (Ok [mock_step 0; mock_step 1; mock_step 2], after_fetch w video_path fs) /\
  order <$> [mock_step 0; mock_step 1; mock_step 2] = [1; 2; 3]%nat.
Proof.
  intros Hop Hfps Hq Hc. split_and!.
  - intros frame_count x Hx. rewrite Hfps. apply plan_of_failure.
    now apply num_steps_zero_rate with x.
  - intros frame_count. rewrite Hfps.
    destruct (of_int frame_count) as [x|e] eqn:Hx.
    + eexists. apply plan_of_failure. now apply num_steps_zero_rate with x.
    + exists e. apply plan_of_failure.
      unfold keyframe_num_steps, keyframe_quotient. now rewrite Hx.
  - rewrite process_video_opened by assumption.
    unfold opened_run. rewrite Hc, Hfps. cbn [int].
    assert (Hgt : gt (Finite q) 0 = false).
    { cbn [gt]. apply negb_false_iff, Qle_bool_iff. rewrite Hq. discriminate. }
    unfold video_duration. rewrite Hgt.
    assert (Hn : exists e, keyframe_num_steps (Finite q) (trunc c) = Raise e).
    { destruct (of_int (trunc c)) as [x|e] eqn:Hx.
      - eexists. now apply num_steps_zero_rate with x.
      - exists e. unfold keyframe_num_steps, keyframe_quotient. now rewrite Hx. }
    destruct Hn as [e Hn]. rewrite (extract_plan_fails _ _ _ _ _ _ e Hn).
    unfold fallback, fallback_duration. cbn [gt].
    replace (Qle_bool q (inject_Z 0)) with true; [reflexivity|].
    symmetry. apply Qle_bool_iff. rewrite Hq. discriminate.
  - reflexivity.
Qed.

(** A capture that reports 3000 frames at rate 0 *)
Lemma zero_rate_falls_back_witness :
  process_video
    (quiet_env (opened_capture (Finite 0) (Finite 3000) (fun _ _ => Ok (Some hd_frame))))
    "lesson.mp4" 7 ∅
  = (Ok [mock_step 0; mock_step 1; mock_step 2], ∅).
Proof.
  apply (zero_rate_falls_back
           (quiet_env (opened_capture (Finite 0) (Finite 3000)
                         (fun _ _ => Ok (Some hd_frame))))
           "lesson.mp4" 7 ∅ 0 3000 eq_refl eq_refl (Qeq_refl 0) eq_refl).
Defined.

(** ** Order and position *)

Lemma kept_lookup (w : env) (cap : capture) (guide_id n interval : Z)
    (indices : list nat) (k : nat) (s : step) :
  kept_steps w cap guide_id n interval indices !! k = Some s ->
  exists i,
    List.filter (fun i => has_frame (read cap i (frame_number i interval))) indices
      !! k = Some i /\
    s = _generate_step_from_position i n (keyframe_path w guide_id i).
Proof.
  unfold kept_steps. intros H.
  change (map ?f ?l) with (f <$> l) in H.
  rewrite list_lookup_fmap in H.
  destruct (List.filter _ indices !! k) as [i|]; [|discriminate].
  injection H as <-. eauto.
Qed.

(** A filtered run of consecutive numbers: position [k] holds a number at
    least [a + k], and later positions hold larger numbers. *)
Lemma filter_seq_lookup (P : nat -> bool) (n : nat) : forall a k i,
  List.filter P (seq a n) !! k = Some i -> (a + k <= i < a + n)%nat.
Proof.
  induction n as [|n IH]; intros a k i; simpl; [discriminate|].
  destruct (P a).
  - destruct k as [|k]; simpl.
    + intros [= <-]. lia.
    + intros H. apply IH in H. lia.
  - intros H. apply IH in H. lia.
Qed.

Lemma filter_seq_increasing (P : nat -> bool) (n : nat) : forall a j k x y,
  (j < k)%nat ->
  List.filter P (seq a n) !! j = Some x ->
  List.filter P (seq a n) !! k = Some y -> (x < y)%nat.
Proof.
  induction n as [|n IH]; intros a j k x y Hjk; simpl; [discriminate|].
  destruct (P a).
  - destruct k as [|k]; [lia|]. destruct j as [|j]; simpl.
    + intros [= <-] H. apply filter_seq_lookup in H. lia.
    + apply IH. lia.
  - now apply IH.
Qed.

Lemma filter_all {A} (P : A -> bool) (l : list A) :
  (forall x, x ∈ l -> P x = true) -> List.filter P l = l.
Proof.
  induction l as [|x l IH]; intros H; simpl; [reflexivity|].
  rewrite H by left. f_equal. apply IH. intros y Hy. apply H. now right.
Qed.

(** A run that returns: the source opened, and the list is the one of
    the run of its capture. *)
Lemma process_video_returns (w : env) (video_path : string) (guide_id : Z)
    (fs : gset string) (l : list step) :
  fst (process_video w video_path guide_id fs) = Ok l ->
  opens w video_path = true /\
  fst (opened_run w (source w video_path) guide_id (after_fetch w video_path fs))
  = Ok l.
Proof.
  intros H. destruct (opens w video_path) eqn:Hop.
  - split; [reflexivity|]. now rewrite <- process_video_opened.
  - destruct (process_video_unopened w video_path guide_id fs Hop)
      as (e & fs' & Heq & _).
    rewrite Heq in H. discriminate.
Qed.

(** A returned list is a mock list, or the records of the samples kept *)
Lemma returned_list (w : env) (video_path : string) (guide_id : Z)
    (fs : gset string) (l : list step) :
  fst (process_video w video_path guide_id fs) = Ok l ->
  let cap := source w video_path in
  source_mock cap guide_id = Ok l \/
  exists frame_count n,
    int (CAP_PROP_FRAME_COUNT cap) = Ok frame_count /\
    keyframe_num_steps (CAP_PROP_FPS cap) frame_count = Ok n /\
    l = kept_steps w cap guide_id n (frame_count / n) (range n) /\
    (forall i, i ∈ range n ->
       exists o, read cap i (frame_number i (frame_count / n)) = Ok o) /\
    (forall i, i ∈ range n ->
       has_frame (read cap i (frame_number i (frame_count / n))) = true ->
       keyframe_path w guide_id i ∈ snd (process_video w video_path guide_id fs)).
Proof.
  intros Hret cap. pose proof Hret as Hret'.
  apply process_video_returns in Hret' as [Hop Hrun].
  rewrite process_video_opened by assumption. fold cap in Hrun |- *.
  destruct (opened_run_result w cap guide_id (after_fetch w video_path fs))
    as (r & fs' & Heq & _ & Hr).
  rewrite Heq in Hrun |- *. cbn [fst snd] in *. subst r.
  destruct Hr as [Hr | (fc & n & Hfc & Hn & [= ->] & Hok & Hfiles)].
  - left. now symmetry.
  - right. exists fc, n. auto.
Qed.

(** C6, as stated, fails: when the read of the second sample reports
    failure, the record at position 1 carries order 3. *)
Lemma order_position_counterexample :
  exists s,
    fst (process_video (quiet_env (clip second_read_fails)) "lesson.mp4" 7 ∅)
      = Ok [_generate_step_from_position 0 5 ""; s;
            _generate_step_from_position 3 5 ""; _generate_step_from_position 4 5 ""] /\
    order s = 3%nat /\ order s <> (1 + 1)%nat.
Proof.
  exists (_generate_step_from_position 2 5 "").
  split_and!; [vm_compute; reflexivity | reflexivity | discriminate].
Qed.

(** C6, amended. In every list the pipeline returns, [order] is the
    sample's ordinal plus one: the record at position [k] has order at least
    [k + 1] and the orders increase strictly along the list. The order is
    exactly [k + 1] in every mock list, and in every returned list of a run
    in which no read reported failure; a sample skipped because [ret] was
    false leaves a gap in the orders of the real path. *)
Theorem order_of_positions (w : env) (video_path : string) (guide_id : Z)
    (fs : gset string) (l : list step) :
  fst (process_video w video_path guide_id fs) = Ok l ->
  (forall k s, l !! k = Some s -> (k + 1 <= order s)%nat) /\
  (forall j k s t, (j < k)%nat -> l !! j = Some s -> l !! k = Some t ->
     (order s < order t)%nat) /\
  ((forall i pos, read (source w video_path) i pos <> Ok None) ->
     forall k s, l !! k = Some s -> order s = (k + 1)%nat) /\
  (forall duration mock k s,
     _generate_mock_steps guide_id duration = Ok mock ->
     mock !! k = Some s -> order s = (k + 1)%nat).
Proof.
  intros Hret.
  assert (Hmock : forall duration mock k s,
            _generate_mock_steps guide_id duration = Ok mock ->
            mock !! k = Some s -> order s = (k + 1)%nat).
  { intros d mock k s Hm Hk. pose proof (lookup_lt_Some _ _ _ Hk) as Hlt.
    destruct (mock_steps_inv _ _ _ Hm) as (_ & _ & Hl).
    rewrite Hl in Hk by assumption. now injection Hk as <-. }
  destruct (returned_list _ _ _ _ _ Hret) as [Hm | (fc & n & _ & Hn & -> & Hok & _)].
  - apply source_mock_inv in Hm as (fc & d & _ & _ & Hm).
    split_and!; [| | | exact Hmock].
    + intros k s Hk. apply (Hmock _ _ _ _ Hm) in Hk. lia.
    + intros j k s t Hjk Hs Ht.
      apply (Hmock _ _ _ _ Hm) in Hs. apply (Hmock _ _ _ _ Hm) in Ht. lia.
    + intros _ k s Hk. now apply (Hmock _ _ _ _ Hm) in Hk.
  - split_and!; [| | | exact Hmock].
    + intros k s Hk. apply kept_lookup in Hk as (i & Hi & ->).
      apply filter_seq_lookup in Hi. simpl. lia.
    + intros j k s t Hjk Hs Ht.
      apply kept_lookup in Hs as (x & Hx & ->).
      apply kept_lookup in Ht as (y & Hy & ->).
      pose proof (filter_seq_increasing _ _ _ _ _ _ _ Hjk Hx Hy). simpl. lia.
    + intros Hnone k s Hk. apply kept_lookup in Hk as (i & Hi & ->).
      rewrite filter_all in Hi.
      * apply lookup_seq in Hi as [-> _]. simpl. lia.
      * intros x Hx. destruct (Hok x Hx) as [[f|] Ho]; rewrite Ho; [reflexivity|].
        now apply Hnone in Ho.
Qed.

(** The clip whose second read fails, at position 1 *)
Lemma order_of_positions_witness :
  (1 + 1 <= order (_generate_step_from_position 2 5 ""))%nat.
Proof.
  assert (H : fst (process_video (quiet_env (clip second_read_fails)) "lesson.mp4" 7 ∅)
              = Ok [_generate_step_from_position 0 5 "";
                    _generate_step_from_position 2 5 "";
                    _generate_step_from_position 3 5 "";
                    _generate_step_from_position 4 5 ""])
    by (vm_compute; reflexivity).
  apply (proj1 (order_of_positions _ _ _ _ _ H) 1%nat). reflexivity.
Defined.

(** ** What the caller receives *)

(** C3, as stated, fails. The source opens, five samples are planned,
    the read of the second one reports failure, and the caller receives four
    records, with orders 1, 3, 4, 5. And a source that opens with one frame
    at the smallest positive frame rate, whose reads raise, ends with an
    [OverflowError] for the caller. *)
Lemma partial_result_counterexample :
  opens (quiet_env (clip second_read_fails)) "lesson.mp4" = true /\
  (exists plan, sample_plan (Finite 30) 3000 = Ok plan /\ length plan = 5%nat) /\
  (exists l,
     fst (process_video (quiet_env (clip second_read_fails)) "lesson.mp4" 7 ∅) = Ok l /\
     length l = 4%nat /\ order <$> l = [1; 3; 4; 5]%nat) /\
  opens (quiet_env (denormal_clip broken_reads)) "lesson.mp4" = true /\
  fst (process_video (quiet_env (denormal_clip broken_reads)) "lesson.mp4" 7 ∅)
    = Raise (Exn OverflowError "cannot convert float infinity to integer").
Proof.
  split_and!; [reflexivity | | | reflexivity | vm_compute; reflexivity]; eexists;
    (split; [vm_compute; reflexivity|]); [|split]; reflexivity.
Qed.

(** C3, amended. A source that does not open ends the run with an error
    for the caller, and for a local path it is the "Could not open video
    file" error. Once the source has opened, the caller receives a list:
    the mock list, or the records, in order, of exactly those planned
    samples whose read gave a frame, which is the full plan when every read
    gave a frame and shorter when a read reported failure without raising.
    The one exception is a mock list that cannot be made, because [int()]
    met an infinity or a NaN: then its [OverflowError] or [ValueError]
    reaches the caller. With metadata in the ordinary range this does not
    happen. *)
Theorem open_failure_and_result (w : env) (video_path : string) (guide_id : Z)
    (fs : gset string) :
  let cap := source w video_path in
  let answer := fst (process_video w video_path guide_id fs) in
  (opens w video_path = false ->
     exists e, answer = Raise e /\
       (is_url video_path = false ->
          e = Exn ValueError ("Could not open video file: " +:+ video_path))) /\
  (opens w video_path = true ->
     (exists l, answer = Ok l /\
        (source_mock cap guide_id = Ok l \/
         exists frame_count n,
           int (CAP_PROP_FRAME_COUNT cap) = Ok frame_count /\
           keyframe_num_steps (CAP_PROP_FPS cap) frame_count = Ok n /\
           l = kept_steps w cap guide_id n (frame_count / n) (range n) /\
           (length l <= Z.to_nat n)%nat /\
           ((forall i pos, has_frame (read cap i pos) = true) ->
              l = map (fun i => _generate_step_from_position i n
                                  (keyframe_path w guide_id i)) (range n) /\
              length l = Z.to_nat n))) \/
     (exists e, answer = Raise e /\ source_mock cap guide_id = Raise e /\
        (exc_class e = OverflowError \/ exc_class e = ValueError))) /\
  (opens w video_path = true -> ordinary cap = true -> exists l, answer = Ok l).
Proof.
  intros cap answer.
  assert (Hcases : opens w video_path = true ->
     (exists l, answer = Ok l /\
        (source_mock cap guide_id = Ok l \/
         exists frame_count n,
           int (CAP_PROP_FRAME_COUNT cap) = Ok frame_count /\
           keyframe_num_steps (CAP_PROP_FPS cap) frame_count = Ok n /\
           l = kept_steps w cap guide_id n (frame_count / n) (range n) /\
           (length l <= Z.to_nat n)%nat /\
           ((forall i pos, has_frame (read cap i pos) = true) ->
              l = map (fun i => _generate_step_from_position i n
                                  (keyframe_path w guide_id i)) (range n) /\
              length l = Z.to_nat n))) \/
     (exists e, answer = Raise e /\ source_mock cap guide_id = Raise e /\
        (exc_class e = OverflowError \/ exc_class e = ValueError))).
  { intros Hop. unfold answer. rewrite process_video_opened by assumption. fold cap.
    destruct (opened_run_result w cap guide_id (after_fetch w video_path fs))
      as (r & fs' & -> & _ & Hr). cbn [fst].
    destruct Hr as [-> | (fc & n & Hfc & Hn & -> & _)].
    - destruct (source_mock cap guide_id) as [l|e] eqn:Hm.
      + left. exists l. auto.
      + right. exists e. split_and!; [reflexivity..|].
        now apply source_mock_error in Hm.
    - left. eexists. split; [reflexivity|]. right. exists fc, n.
      split_and!; [assumption | assumption | reflexivity | |].
      + unfold kept_steps. rewrite length_map, <- (range_length n).
        apply filter_length_le.
      + intros Hall. unfold kept_steps. rewrite filter_all by (intros; apply Hall).
        split; [reflexivity|]. now rewrite length_map, range_length. }
  split_and!.
  - intros Hop.
    destruct (process_video_unopened w video_path guide_id fs Hop)
      as (e & fs' & Heq & _ & He).
    exists e. unfold answer. rewrite Heq. split; [reflexivity|].
    intros Hu. now apply He.
  - exact Hcases.
  - intros Hop Hord.
    destruct (ordinary_source_mock cap guide_id Hord) as [mock Hmock].
    destruct (Hcases Hop) as [(l & Hl & _) | (e & _ & He & _)]; [eauto|].
    rewrite Hmock in He. discriminate.
Qed.

(** The clip whose second read fails still gives a list *)
Lemma open_failure_and_result_witness :
  exists l,
    fst (process_video (quiet_env (clip second_read_fails)) "lesson.mp4" 7 ∅) = Ok l.
Proof.
  apply (proj2 (proj2 (open_failure_and_result
                         (quiet_env (clip second_read_fails)) "lesson.mp4" 7 ∅)));
    reflexivity.
Defined.

(** ** Temporary files *)

(** C8, as stated, fails: after a run over a URL whose frames all decode,
    the downloaded copy and the keyframe images are still on disk; after a
    run over a URL whose download cannot be opened as a video, the
    downloaded copy is still on disk. *)
Lemma temp_files_remain_counterexample :
  "/tmp/tmpk3y/video_0011223344556677.mp4"
    ∈ snd (process_video (quiet_env (clip (fun _ _ => Ok (Some hd_frame))))
             "https://example.org/lesson.mp4" 7 ∅) /\
  "/tmp/tmpk3y/keyframe_7_0.jpg"
    ∈ snd (process_video (quiet_env (clip (fun _ _ => Ok (Some hd_frame))))
             "https://example.org/lesson.mp4" 7 ∅) /\
  process_video (quiet_env unopened_capture) "https://example.org/lesson.mp4" 7 ∅
    = (Raise (Exn ValueError
                "Could not open video file: /tmp/tmpk3y/video_0011223344556677.mp4"),
       {[ "/tmp/tmpk3y/video_0011223344556677.mp4" ]}) /\
  ~ (snd (process_video (quiet_env unopened_capture)
            "https://example.org/lesson.mp4" 7 ∅) ⊆ ∅).
Proof.
  split_and!.
  - apply (bool_decide_unpack _). vm_compute. exact I.
  - apply (bool_decide_unpack _). vm_compute. exact I.
  - vm_compute. reflexivity.
  - intros H.
    apply (not_elem_of_empty (C := gset string)
             "/tmp/tmpk3y/video_0011223344556677.mp4").
    apply H. apply (bool_decide_unpack _). vm_compute. exact I.
Qed.

(** Files are only added by a run *)
Lemma process_video_keeps (w : env) (video_path : string) (guide_id : Z)
    (fs : gset string) :
  fs ⊆ snd (process_video w video_path guide_id fs) /\
  (is_url video_path = true -> fetched w video_path = true ->
     download_path w ∈ snd (process_video w video_path guide_id fs)).
Proof.
  destruct (opens w video_path) eqn:Hop.
  - rewrite process_video_opened by assumption.
    destruct (opened_run_result w (source w video_path) guide_id
                (after_fetch w video_path fs)) as (r & fs' & -> & Hsub & _).
    cbn [snd]. unfold after_fetch in Hsub. split.
    + destruct (is_url video_path); [|exact Hsub].
      etransitivity; [apply union_subseteq_r | exact Hsub].
    + intros Hu _. rewrite Hu in Hsub.
      apply Hsub, elem_of_union_l. now apply elem_of_singleton.
  - destruct (process_video_unopened w video_path guide_id fs Hop)
      as (e & fs' & Heq & Hsub & He).
    rewrite Heq. cbn [snd]. split; [assumption|].
    intros Hu Hf. unfold opens in Hop. rewrite Hu, Hf in Hop. simpl in Hop.
    unfold process_video, try_except in Heq.
    unfold mbind at 1 in Heq. unfold M_bind at 1 in Heq.
    fold (is_url video_path) in Heq. rewrite Hu in Heq.
    rewrite download_fetched in Heq by assumption.
    unfold source, source_path in Hop. rewrite Hu in Hop. rewrite Hop in Heq.
    cbn [negb] in Heq. unfold raise in Heq. injection Heq as _ <-.
    apply elem_of_union_l. now apply elem_of_singleton.
Qed.

(** C8, amended. [video_processor.py] deletes nothing: every file present
    before a run is present after it; the copy of a downloaded video is
    still there when the run ends, whether or not the decoder opened it;
    a list that is returned is the mock list or the list of the real path,
    and on the real path the keyframe image of every returned record is
    still there. Only a run that wrote nothing leaves nothing behind: a
    local path that does not open ends with the files it started with. *)
Theorem temp_files_kept (w : env) (video_path : string) (guide_id : Z)
    (fs : gset string) :
  let cap := source w video_path in
  fs ⊆ snd (process_video w video_path guide_id fs) /\
  (is_url video_path = true -> fetched w video_path = true ->
     download_path w ∈ snd (process_video w video_path guide_id fs)) /\
  (is_url video_path = false -> opens w video_path = false ->
     snd (process_video w video_path guide_id fs) = fs) /\
  (forall l, fst (process_video w video_path guide_id fs) = Ok l ->
     source_mock cap guide_id = Ok l \/
     exists frame_count n,
       int (CAP_PROP_FRAME_COUNT cap) = Ok frame_count /\
       keyframe_num_steps (CAP_PROP_FPS cap) frame_count = Ok n /\
       l = kept_steps w cap guide_id n (frame_count / n) (range n) /\
       forall i, i ∈ range n ->
         has_frame (read cap i (frame_number i (frame_count / n))) = true ->
         keyframe_path w guide_id i ∈ snd (process_video w video_path guide_id fs)).
Proof.
  intros cap.
  destruct (process_video_keeps w video_path guide_id fs) as [Hsub Hdl].
  split_and!; [exact Hsub | exact Hdl | |].
  - intros Hu Hop.
    destruct (process_video_unopened w video_path guide_id fs Hop)
      as (e & fs' & Heq & _ & He).
    rewrite Heq. cbn [snd]. now apply He.
  - intros l Hl.
    destruct (returned_list _ _ _ _ _ Hl) as [Hm | (fc & n & Hfc & Hn & -> & _ & Hf)];
      [now left|].
    right. exists fc, n. auto.
Qed.

(** A download that the decoder does not open stays on disk *)
Lemma temp_files_kept_witness :
  download_path (quiet_env unopened_capture)
    ∈ snd (process_video (quiet_env unopened_capture)
             "https://example.org/lesson.mp4" 7 ∅).
Proof.
  apply (proj1 (proj2 (temp_files_kept (quiet_env unopened_capture)
                         "https://example.org/lesson.mp4" 7 ∅)));
    reflexivity.
Defined.

(** ** The encoder *)

Local Open Scope Q_scope.

(** The conversion of a positive int below [2^62] does not overflow *)
Lemma of_int_small (z : Z) : (1 <= z < 2 ^ 62)%Z ->
  of_int z = Ok (Finite (rnd (inject_Z z))) /\
  inject_Z z * (1 - u) <= rnd (inject_Z z) <= inject_Z z * (1 + u).
Proof.
  intros [Hz1 Hz2].
  destruct (of_int_pos z Hz1) as [(E & Hb & _)|E]; [auto|]. exfalso.
  revert E. unfold of_int.
  assert (Hq : inject_Z z < 4611686018427387904).
  { change 4611686018427387904 with (inject_Z (2 ^ 62)). now rewrite <- Zlt_Qlt. }
  assert (H1 : 1 <= inject_Z z) by (rewrite (Zle_Qle 1) in Hz1; exact Hz1).
  assert (Hs : Qabs (inject_Z z) * (1 + u) + eta < top).
  { rewrite Qabs_pos by lra. unfold u, eta, top. lra. }
  destruct (binary64_small _ Hs) as [-> _]. discriminate.
Qed.

(** A dimension [d] scaled by the ratio of line 79: the product, before
    [int()], times the width is [d * max_width] within three roundings *)
Lemma scaled_value (d max_width w : Z) :
  (1 <= d < 2 ^ 31)%Z -> (1 <= max_width < w)%Z -> (w < 2 ^ 31)%Z ->
  exists ratio float_d y,
    truediv_int max_width w = Ok (Finite ratio) /\
    of_int d = Ok (Finite float_d) /\
    mul (Finite float_d) (Finite ratio) = Finite y /\
    0 <= y /\
    inject_Z (d * max_width) * ((1 - u) * (1 - u) * (1 - u)) <= y * inject_Z w /\
    y * inject_Z w <= inject_Z (d * max_width) * ((1 + u) * (1 + u) * (1 + u)).
Proof.
  intros Hd Hm Hw.
  assert (Hd' : 1 <= inject_Z d) by (rewrite (Zle_Qle 1) in Hd; apply Hd).
  assert (Hm' : 1 <= inject_Z max_width) by (rewrite (Zle_Qle 1) in Hm; apply Hm).
  assert (Hmw : inject_Z max_width < inject_Z w) by (rewrite <- Zlt_Qlt; lia).
  assert (Hd31 : inject_Z d < 2147483648).
  { change 2147483648 with (inject_Z (2 ^ 31)). rewrite <- Zlt_Qlt. lia. }
  assert (Hw31 : inject_Z w < 2147483648).
  { change 2147483648 with (inject_Z (2 ^ 31)). now rewrite <- Zlt_Qlt. }
  set (D := inject_Z d) in *. set (M := inject_Z max_width) in *.
  set (W := inject_Z w) in *.
  (* the ratio *)
  set (x0 := M / W).
  assert (Ex0 : x0 * W == M) by (unfold x0; field; lra).
  assert (Hx0 : 0 < x0) by (apply Qlt_shift_div_l; lra).
  assert (Hx1 : x0 <= 1) by (apply Qle_shift_div_r; lra).
  assert (Hx0W : 1 <= x0 * 2147483648).
  { assert (x0 * W <= x0 * 2147483648) by (apply Qmult_le_l; lra). lra. }
  assert (Htiny : pow2 (-1022) <= 1 # 4611686018427387904) by (vm_compute; discriminate).
  assert (Hn0 : pow2 (-1022) <= x0) by lra.
  pose proof (rnd_error_pos_normal x0 Hn0) as Hr.
  assert (Hx0' : 0 <= x0) by lra.
  destruct (binary64_nonneg x0 Hx0') as [(Er & Hr0 & _)|[_ Ht]];
    [|exfalso; unfold u, top in *; lra].
  set (ratio := rnd x0) in *.
  (* the dimension *)
  destruct (of_int_small d) as [Ed Hdb]; [lia|]. fold D in Ed, Hdb.
  set (fd := rnd D) in *.
  (* the product *)
  assert (Hp1 : fd * ratio <= D * (1 + u) * ratio)
    by (apply Qmult_le_compat_r; lra).
  assert (Hp2 : D * (1 - u) * ratio <= fd * ratio)
    by (apply Qmult_le_compat_r; lra).
  assert (Hp3 : D * ratio <= D * (x0 * (1 + u))) by (apply Qmult_le_l; lra).
  assert (Hp4 : D * (x0 * (1 - u)) <= D * ratio) by (apply Qmult_le_l; lra).
  assert (Hp5 : D * x0 * 2147483648 >= 1).
  { assert (1 * (x0 * 2147483648) <= D * (x0 * 2147483648))
      by (apply Qmult_le_compat_r; lra). lra. }
  assert (Hp6 : D * x0 <= D * 1) by (apply Qmult_le_l; lra).
  assert (Hn1 : pow2 (-1022) <= fd * ratio) by (unfold u in *; lra).
  pose proof (rnd_error_pos_normal _ Hn1) as Hy.
  assert (Hfr : 0 <= fd * ratio) by (unfold u in *; lra).
  destruct (binary64_nonneg _ Hfr) as [(Ey & Hy0 & _)|[_ Ht]];
    [|exfalso; unfold u, top in *; lra].
  set (y := rnd (fd * ratio)) in *.
  exists ratio, fd, y.
  assert (Et : truediv_int max_width w = Ok (Finite ratio)).
  { unfold truediv_int. replace (w =? 0)%Z with false by (symmetry; apply Z.eqb_neq; lia).
    fold M W. change (M / W) with x0. now rewrite Er. }
  split_and!; [exact Et | exact Ed | exact Ey | exact Hy0 | |].
  - rewrite inject_Z_mult. fold D M.
    assert (H1 : D * (x0 * (1 - u)) * (1 - u) * (1 - u) * W <= y * W).
    { apply Qmult_le_compat_r; [|lra]. unfold u in *. lra. }
    assert (E : D * (x0 * (1 - u)) * (1 - u) * (1 - u) * W
                == D * (x0 * W) * ((1 - u) * (1 - u) * (1 - u))) by ring.
    rewrite E, Ex0 in H1. exact H1.
  - rewrite inject_Z_mult. fold D M.
    assert (H1 : y * W <= D * (x0 * (1 + u)) * (1 + u) * (1 + u) * W).
    { apply Qmult_le_compat_r; [|lra]. unfold u in *. lra. }
    assert (E : D * (x0 * (1 + u)) * (1 + u) * (1 + u) * W
                == D * (x0 * W) * ((1 + u) * (1 + u) * (1 + u))) by ring.
    rewrite E, Ex0 in H1. exact H1.
Qed.

(** The same with a dimension or a maximum width of 0: the product is 0 *)
Lemma scaled_dimension (d max_width w : Z) :
  (0 <= d < 2 ^ 31)%Z -> (0 <= max_width < w)%Z -> (w < 2 ^ 31)%Z ->
  exists ratio float_d y,
    truediv_int max_width w = Ok (Finite ratio) /\
    of_int d = Ok (Finite float_d) /\
    mul (Finite float_d) (Finite ratio) = Finite y /\
    0 <= y /\
    inject_Z (d * max_width) * ((1 - u) * (1 - u) * (1 - u)) <= y * inject_Z w /\
    y * inject_Z w <= inject_Z (d * max_width) * ((1 + u) * (1 + u) * (1 + u)).
Proof.
  intros Hd Hm Hw.
  destruct (Z.eq_dec d 0%Z) as [->|Hd0]; [|destruct (Z.eq_dec max_width 0%Z) as [->|Hm0]].
  - assert (Er : exists ratio, truediv_int max_width w = Ok (Finite ratio)).
    { destruct (Z.eq_dec max_width 0%Z) as [->|Hm0].
      - exists 0. unfold truediv_int.
        replace (w =? 0)%Z with false by (symmetry; apply Z.eqb_neq; lia).
        rewrite binary64_zero; [reflexivity|]. unfold Qdiv. apply Qmult_0_l.
      - destruct (scaled_value 1 max_width w) as (ratio & _ & _ & E & _); [lia..|].
        eauto. }
    destruct Er as [ratio Er]. exists ratio, 0, 0.
    split_and!; [exact Er | reflexivity | | lra | |].
    + unfold mul. apply binary64_zero. apply Qmult_0_l.
    + rewrite Z.mul_0_l. change (inject_Z 0) with 0. lra.
    + rewrite Z.mul_0_l. change (inject_Z 0) with 0. lra.
  - destruct (of_int_small d) as [Ed _]; [lia|].
    exists 0, (rnd (inject_Z d)), 0.
    split_and!; [| exact Ed | | lra | |].
    + unfold truediv_int.
      replace (w =? 0)%Z with false by (symmetry; apply Z.eqb_neq; lia).
      rewrite binary64_zero; [reflexivity|]. unfold Qdiv. apply Qmult_0_l.
    + unfold mul. apply binary64_zero. apply Qmult_0_r.
    + rewrite Z.mul_0_r. change (inject_Z 0) with 0. lra.
    + rewrite Z.mul_0_r. change (inject_Z 0) with 0. lra.
  - apply scaled_value; lia.
Qed.

(** [int()] of the scaled width: the maximum width, or one pixel less *)
Lemma trunc_scaled_width (max_width w : Z) (y : Q) :
  (0 <= max_width < 2 ^ 31)%Z -> (0 < w)%Z -> 0 <= y ->
  inject_Z (w * max_width) * ((1 - u) * (1 - u) * (1 - u)) <= y * inject_Z w ->
  y * inject_Z w <= inject_Z (w * max_width) * ((1 + u) * (1 + u) * (1 + u)) ->
  (max_width - 1 <= trunc y <= max_width)%Z.
Proof.
  intros Hm Hw Hy0 Hlo Hhi. rewrite trunc_floor by assumption.
  rewrite inject_Z_mult in Hlo, Hhi.
  assert (HW : 0 < inject_Z w) by (rewrite <- (Zlt_Qlt 0); assumption).
  assert (HM0 : 0 <= inject_Z max_width) by (rewrite <- (Zle_Qle 0); lia).
  assert (HM : inject_Z max_width < 2147483648).
  { change 2147483648 with (inject_Z (2 ^ 31)). rewrite <- Zlt_Qlt. lia. }
  set (W := inject_Z w) in *. set (M := inject_Z max_width) in *.
  assert (Hlo' : M * ((1 - u) * (1 - u) * (1 - u)) <= y).
  { apply (Qmult_le_r _ _ W); [assumption|]. lra. }
  assert (Hhi' : y <= M * ((1 + u) * (1 + u) * (1 + u))).
  { apply (Qmult_le_r _ _ W); [assumption|]. lra. }
  split.
  - assert (H : inject_Z (max_width - 1) <= y).
    { replace (max_width - 1)%Z with (max_width + -1)%Z by lia.
      rewrite inject_Z_plus. fold M. change (inject_Z (-1)) with (-1).
      unfold u in *. lra. }
    apply Qfloor_resp_le in H. now rewrite Qfloor_Z in H.
  - assert (H : (Qfloor y < max_width + 1)%Z); [|lia].
    apply floor_lt_iff. rewrite inject_Z_plus. fold M. change (inject_Z 1) with 1.
    unfold u in *. lra.
Qed.

(** [int()] of the scaled height: never above the exact scaled height,
    and at most one pixel below it *)
Lemma trunc_scaled_height (h max_width w : Z) (y : Q) :
  (0 <= h * max_width < 2 ^ 51)%Z -> (0 < w)%Z -> 0 <= y ->
  inject_Z (h * max_width) * ((1 - u) * (1 - u) * (1 - u)) <= y * inject_Z w ->
  y * inject_Z w <= inject_Z (h * max_width) * ((1 + u) * (1 + u) * (1 + u)) ->
  (trunc y * w <= h * max_width <= (trunc y + 1) * w)%Z.
Proof.
  intros Hhm Hw Hy0 Hlo Hhi. rewrite trunc_floor by assumption.
  assert (HW : 0 < inject_Z w) by (rewrite <- (Zlt_Qlt 0); assumption).
  assert (HP0 : 0 <= inject_Z (h * max_width)) by (rewrite <- (Zle_Qle 0); lia).
  assert (HP : inject_Z (h * max_width) < 2251799813685248).
  { change 2251799813685248 with (inject_Z (2 ^ 51)). rewrite <- Zlt_Qlt. lia. }
  pose proof (Qfloor_le y) as Hf1. pose proof (Qlt_floor y) as Hf2.
  rewrite inject_Z_plus in Hf2. change (inject_Z 1) with 1 in Hf2.
  set (t := Qfloor y) in *.
  assert (Ht1 : inject_Z t * inject_Z w <= y * inject_Z w)
    by (apply Qmult_le_compat_r; lra).
  assert (Ht2 : y * inject_Z w < (inject_Z t + 1) * inject_Z w)
    by (apply Qmult_lt_compat_r; lra).
  split.
  - destruct (Z_le_gt_dec (t * w) (h * max_width)) as [H|H]; [exact H|]. exfalso.
    assert (H' : (h * max_width + 1 <= t * w)%Z) by lia.
    rewrite Zle_Qle, inject_Z_plus, (inject_Z_mult t w) in H'.
    change (inject_Z 1) with 1 in H'. unfold u in *. lra.
  - destruct (Z_le_gt_dec (h * max_width) ((t + 1) * w)) as [H|H]; [exact H|]. exfalso.
    assert (H' : ((t + 1) * w + 1 <= h * max_width)%Z) by lia.
    rewrite Zle_Qle, inject_Z_plus, (inject_Z_mult (t + 1) w), inject_Z_plus in H'.
    change (inject_Z 1) with 1 in H'. unfold u in *. lra.
Qed.

Local Close Scope Q_scope.

(** What [_optimize_image] does with a frame wider than [max_width] *)
Lemma optimize_image_wide (w : env) (f : frame) (max_width quality : Z) :
  0 <= max_width < width f -> width f < 2 ^ 31 -> 0 <= height f < 2 ^ 31 ->
  exists new_width new_height,
    max_width - 1 <= new_width <= max_width /\
    (height f * max_width < 2 ^ 51 ->
     new_height * width f <= height f * max_width <= (new_height + 1) * width f) /\
    (height f * max_width < width f -> new_height = 0) /\
    _optimize_image w f max_width quality
    = (_ ← cvtColor w f;
       _ ← resize w f (new_width, new_height);
       _ ← imencode w f quality;
       Ok {| jpeg_width := new_width; jpeg_height := new_height;
             jpeg_quality := quality |}).
Proof.
  intros Hm Hw Hh.
  destruct (scaled_dimension (width f) max_width (width f))
    as (ratio & fw & yw & Er & Ew & Eyw & Hyw0 & Hwlo & Hwhi); [lia..|].
  destruct (scaled_dimension (height f) max_width (width f))
    as (ratio' & fh & yh & Er' & Eh & Eyh & Hyh0 & Hhlo & Hhhi); [lia..|].
  rewrite Er in Er'. injection Er' as <-.
  exists (trunc yw), (trunc yh). split; [|split; [|split]].
  - apply (trunc_scaled_width max_width (width f)); (lia || assumption).
  - intros Hp. apply trunc_scaled_height; (nia || assumption).
  - intros Hflat.
    destruct (trunc_scaled_height (height f) max_width (width f) yh) as [H1 H2];
      [nia | lia | assumption..|].
    pose proof (trunc_nonneg yh Hyh0). nia.
  - unfold _optimize_image.
    replace (width f >? max_width) with true by (symmetry; apply Z.gtb_lt; lia).
    rewrite Er. cbn [mbind result_bind]. rewrite Ew. cbn [mbind result_bind].
    rewrite Eyw. cbn [int mbind result_bind]. rewrite Eh. cbn [mbind result_bind].
    rewrite Eyh. cbn [int mbind result_bind].
    destruct (cvtColor w f) as [[]|e]; [|reflexivity]. cbn [mbind result_bind].
    destruct (resize w f (trunc yw, trunc yh)) as [[]|e]; reflexivity.
Qed.

(** C5, as stated, fails: a 1600x901 frame is encoded at 1200x675, while
    901 * 1200 / 1600 = 675.75 rounds to 676. *)
Lemma encode_rounding_counterexample :
  _optimize_image (quiet_env (clip (fun _ _ => Ok None))) hd_frame 1200 80
    = Ok {| jpeg_width := 1200; jpeg_height := 675; jpeg_quality := 80 |} /\
  spec_scaled_size hd_frame 1200 = (1200, 676) /\
  (inject_Z 901 * (inject_Z 1200 / inject_Z 1600) == 2703 # 4)%Q /\
  snd (spec_scaled_size hd_frame 1200) <> 675.
Proof.
  split_and!; [vm_compute; reflexivity | reflexivity | reflexivity | discriminate].
Qed.

(** C5, amended. Take a frame of a size that OpenCV can hold (below
    [2^31] each way) and a [max_width] that is not negative. The encoded
    width never exceeds [max_width]. A frame wider than [max_width] has both
    dimensions scaled by [max_width / width] in binary64 and truncated to
    whole pixels by [int()], not rounded to nearest: the new width is
    [max_width] or one pixel less, the new height (for [height * max_width]
    below [2^51]) is never above the exact scaled height and at most one
    pixel below it. A frame at or below [max_width] keeps its dimensions.
    The quality is the one asked for. When no codec call raises, an image
    is returned. *)
Theorem optimize_image_size (w : env) (f : frame) (max_width quality : Z) :
  0 < width f < 2 ^ 31 -> 0 <= height f < 2 ^ 31 -> 0 <= max_width ->
  (cvtColor w f = Ok tt -> (forall size, resize w f size = Ok tt) ->
   imencode w f quality = Ok tt ->
   exists j, _optimize_image w f max_width quality = Ok j) /\
  (forall j, _optimize_image w f max_width quality = Ok j ->
     jpeg_quality j = quality /\
     jpeg_width j <= max_width /\
     (width f <= max_width ->
        jpeg_width j = width f /\ jpeg_height j = height f) /\
     (max_width < width f ->
        max_width - 1 <= jpeg_width j /\
        (height f * max_width < 2 ^ 51 ->
         jpeg_height j * width f <= height f * max_width
           <= (jpeg_height j + 1) * width f))).
Proof.
  intros Hw Hh Hm.
  destruct (Z.gtb_spec (width f) max_width) as [Hgt|Hle].
  - destruct (optimize_image_wide w f max_width quality)
      as (nw & nh & Hnw & Hnh & _ & E); [lia..|].
    rewrite E. split.
    + intros -> Hr ->. rewrite Hr. cbn. eauto.
    + intros j. destruct (cvtColor w f) as [[]|e]; [|discriminate].
      cbn [mbind result_bind].
      destruct (resize w f (nw, nh)) as [[]|e]; [|discriminate].
      cbn [mbind result_bind].
      destruct (imencode w f quality) as [[]|e]; [|discriminate].
      intros [= <-]. cbn [jpeg_width jpeg_height jpeg_quality].
      split_and!; [reflexivity | lia | lia | lia].
  - unfold _optimize_image.
    replace (width f >? max_width) with false
      by (symmetry; rewrite Z.gtb_ltb; apply Z.ltb_ge; lia).
    split.
    + intros -> _ ->. cbn. eauto.
    + intros j. destruct (cvtColor w f) as [[]|e]; [|discriminate].
      cbn [mbind result_bind].
      destruct (imencode w f quality) as [[]|e]; [|discriminate].
      intros [= <-]. cbn. split_and!; [reflexivity | lia | auto | lia].
Qed.

(** The 1600x901 frame under the default parameters *)
Lemma optimize_image_size_witness :
  exists j, _optimize_image (quiet_env (clip (fun _ _ => Ok None))) hd_frame 1200 80 = Ok j
            /\ jpeg_width j <= 1200.
Proof.
  destruct (optimize_image_size (quiet_env (clip (fun _ _ => Ok None))) hd_frame 1200 80)
    as [Hex Hall]; [simpl; lia | simpl; lia | lia |].
  destruct Hex as [j Hj]; [reflexivity | reflexivity | reflexivity |].
  exists j. split; [exact Hj|]. now destruct (Hall j Hj) as (_ & H & _).
Defined.

(** A 2191x1263 frame under the default width: [2191 * (1200 / 2191)] is
    [1199.9999999999998] *)
Example optimize_image_one_pixel_less :
  _optimize_image (quiet_env (clip (fun _ _ => Ok None))) wide_frame 1200 80
  = Ok {| jpeg_width := 1199; jpeg_height := 691; jpeg_quality := 80 |}.
Proof. vm_compute. reflexivity. Qed.

(** ** Step synthesis *)

(** C7. The pool has 6 templates; the title and description of the step
    at ordinal [i] are those of template [min(i, 5)]; from ordinal 5 on it
    is the last template whatever the total; the whole record is a function
    of [i] alone: neither the total step count nor the keyframe changes it. *)
Theorem step_template_selection (i : nat) (n : Z) (path : string) :
  length step_templates = 6%nat /\
  step_templates !! Nat.min i (length step_templates - 1)
    = Some (title (_generate_step_from_position i n path),
            description (_generate_step_from_position i n path)) /\
  (title (_generate_step_from_position (5 + i) n path),
   description (_generate_step_from_position (5 + i) n path))
    = ("Quality Control and Finishing",
       "Perform final quality control checks and apply any finishing touches. Clean up your workspace and properly store any remaining materials.") /\
  last step_templates
    = Some (title (_generate_step_from_position (5 + i) n path),
            description (_generate_step_from_position (5 + i) n path)) /\
  (forall n' path',
     _generate_step_from_position i n' path' = _generate_step_from_position i n path) /\
  order (_generate_step_from_position i n path) = (i + 1)%nat.
Proof.
  split_and!; try reflexivity.
  - do 6 (destruct i as [|i]; [reflexivity|]). reflexivity.
  - unfold _generate_step_from_position. cbn [title description].
    replace (Nat.min (5 + i) (length step_templates - 1)) with 5%nat
      by (simpl; lia).
    reflexivity.
  - unfold _generate_step_from_position. cbn [title description].
    replace (Nat.min (5 + i) (length step_templates - 1)) with 5%nat
      by (simpl; lia).
    reflexivity.
Qed.

(** ** The hashes on known values *)

Example sha256_empty :
  Hashlib.hexdigest []
  = "e3b0c44298fc1c149afbf4c8996fb92427ae41e4649b934ca495991b7852b855".
Proof. vm_compute. reflexivity. Qed.

(** [hash("abc")] and [hash("")] under [PYTHONHASHSEED=0] *)
Example hash_abc_unseeded :
  PyHash.hash_str (PyHash.secret_of_seed 0) "abc" = -4594863902769663758 /\
  PyHash.hash_str (PyHash.secret_of_seed 0) "" = 0.
Proof. split; vm_compute; reflexivity. Qed.

(** ** The upload handler *)

Lemma setitem_list_str (l : list value) (k : string) (v : value) :
  setitem (VList l) (KStr k) v
  = Raise (Exn TypeError "list indices must be integers or slices, not str").
Proof. reflexivity. Qed.

(** The handler after the extension check, by the outcome of its steps *)
Lemma upload_video_allowed (sv : server) (w : env) (filename : string)
    (content : list byte) (guide_id : option Z) (callback_url : option string)
    (fs : gset string) :
  allowed (config sv) filename = true ->
  let gid := actual_guide_id (hash_secret sv) guide_id (Hashlib.hexdigest content) in
  exists detail,
    fst (upload_video sv w filename content guide_id callback_url fs)
      = Raise (Exn (HTTPException 500) detail) /\
    (forall steps fs',
       open_wb w (upload_path sv filename) = Ok tt ->
       process_video w (upload_path sv filename) gid
                     ({[ upload_path sv filename ]} ∪ fs) = (Ok steps, fs') ->
       detail = "list indices must be integers or slices, not str").
Proof.
  intros Hal gid. unfold upload_video. fold (allowed (config sv) filename).
  rewrite Hal. cbn [negb]. fold (upload_path sv filename). fold gid.
  unfold try_finally, try_except.
  unfold mbind at 1. unfold M_bind at 1. unfold write_file.
  destruct (open_wb w (upload_path sv filename)) as [[]|e].
  - unfold mbind at 1. unfold M_bind at 1.
    destruct (process_video w (upload_path sv filename) gid
                ({[ upload_path sv filename ]} ∪ fs)) as [[steps|e] fs1] eqn:Hpv.
    + unfold mbind at 1. unfold M_bind at 1. unfold lift.
      rewrite setitem_list_str.
      unfold mbind, M_bind, exists_, raise.
      destruct (bool_decide (upload_path sv filename ∈ fs1)); simpl;
        (eexists; split; [reflexivity|]); intros; reflexivity.
    + unfold mbind, M_bind, exists_, raise.
      destruct (bool_decide (upload_path sv filename ∈ fs1)); simpl;
        (eexists; split; [reflexivity|]); intros steps fs' _ [=].
  - unfold mbind, M_bind, exists_, raise.
    destruct (bool_decide (upload_path sv filename ∈ fs)); simpl;
      (eexists; split; [reflexivity|]); intros steps fs' [=].
Qed.

(** C10. [process_video] hands back a list, and assigning to a string
    key of a list raises [TypeError]; so the handler never returns a value:
    past the extension check it always ends in the HTTP 500 error, and
    after a video that was processed without error the detail of that error
    is the message of the [TypeError]. What is refused by the extension
    check ends in HTTP 400. *)
Theorem upload_never_succeeds (sv : server) (w : env) (filename : string)
    (content : list byte) (guide_id : option Z) (callback_url : option string)
    (fs : gset string) :
  let gid := actual_guide_id (hash_secret sv) guide_id (Hashlib.hexdigest content) in
  (forall steps : list step,
     setitem (VList (VStep <$> steps)) (KStr "cached") (VBool false)
     = Raise (Exn TypeError "list indices must be integers or slices, not str")) /\
  (forall v, fst (upload_video sv w filename content guide_id callback_url fs) <> Ok v) /\
  (allowed (config sv) filename = false ->
     exists detail,
       fst (upload_video sv w filename content guide_id callback_url fs)
       = Raise (Exn (HTTPException 400) detail)) /\
  (allowed (config sv) filename = true ->
     exists detail,
       fst (upload_video sv w filename content guide_id callback_url fs)
       = Raise (Exn (HTTPException 500) detail)) /\
  (forall steps fs',
     allowed (config sv) filename = true ->
     open_wb w (upload_path sv filename) = Ok tt ->
     process_video w (upload_path sv filename) gid
                   ({[ upload_path sv filename ]} ∪ fs) = (Ok steps, fs') ->
     fst (upload_video sv w filename content guide_id callback_url fs)
     = Raise (Exn (HTTPException 500)
                  "list indices must be integers or slices, not str")).
Proof.
  intros gid.
  assert (H400 : allowed (config sv) filename = false ->
            exists detail,
              fst (upload_video sv w filename content guide_id callback_url fs)
              = Raise (Exn (HTTPException 400) detail)).
  { intros Hal. unfold upload_video. fold (allowed (config sv) filename).
    rewrite Hal. cbn [negb]. unfold raise. eexists. reflexivity. }
  split_and!.
  - intros steps. apply setitem_list_str.
  - intros v Hv. destruct (allowed (config sv) filename) eqn:Hal.
    + destruct (upload_video_allowed sv w filename content guide_id callback_url fs Hal)
        as (d & Hd & _). rewrite Hd in Hv. discriminate.
    + destruct (H400 eq_refl) as [d Hd]. rewrite Hd in Hv. discriminate.
  - exact H400.
  - intros Hal.
    destruct (upload_video_allowed sv w filename content guide_id callback_url fs Hal)
      as (d & Hd & _). eauto.
  - intros steps fs' Hal Hw Hpv.
    destruct (upload_video_allowed sv w filename content guide_id callback_url fs Hal)
      as (d & Hd & Hmsg). rewrite Hd. f_equal. f_equal. eapply Hmsg; eassumption.
Qed.

(** An accepted upload whose five frames all decode *)
Lemma upload_never_succeeds_witness :
  fst (upload_video (server_with_seed 1)
         (quiet_env (clip (fun _ _ => Ok (Some hd_frame))))
         "Lesson.MP4" abc (Some 7) None ∅)
  = Raise (Exn (HTTPException 500)
               "list indices must be integers or slices, not str").
Proof.
  destruct (upload_never_succeeds (server_with_seed 1)
              (quiet_env (clip (fun _ _ => Ok (Some hd_frame))))
              "Lesson.MP4" abc (Some 7) None ∅) as (_ & _ & _ & _ & H).
  eapply H; [reflexivity | reflexivity |].
  vm_compute. reflexivity.
Defined.

(** ** The derived guide identifier *)

(** C9, as stated, fails: the same three bytes give identifier 583 in a
    process whose hash secret comes from [PYTHONHASHSEED=1] and 8115 in one
    whose secret comes from [PYTHONHASHSEED=2]. *)
Lemma guide_id_differs_counterexample :
  Hashlib.hexdigest abc
    = "ba7816bf8f01cfea414140de5dae2223b00361a396177a9cb410ff61f20015ad" /\
  actual_guide_id (hash_secret (server_with_seed 1)) None (Hashlib.hexdigest abc) = 583 /\
  actual_guide_id (hash_secret (server_with_seed 2)) None (Hashlib.hexdigest abc) = 8115 /\
  ~ (forall sv1 sv2 content,
       actual_guide_id (hash_secret sv1) None (Hashlib.hexdigest content)
       = actual_guide_id (hash_secret sv2) None (Hashlib.hexdigest content)).
Proof.
  assert (H1 : actual_guide_id (hash_secret (server_with_seed 1)) None
                 (Hashlib.hexdigest abc) = 583) by (vm_compute; reflexivity).
  assert (H2 : actual_guide_id (hash_secret (server_with_seed 2)) None
                 (Hashlib.hexdigest abc) = 8115) by (vm_compute; reflexivity).
  split_and!; [vm_compute; reflexivity | exact H1 | exact H2 |].
  intros H. specialize (H (server_with_seed 1) (server_with_seed 2) abc).
  rewrite H1, H2 in H. discriminate.
Qed.

(** C9, amended. Without a caller-supplied identifier the handler uses
    [hash(video_hash) % 10000], a number from 0 to 9999, where [video_hash]
    is the SHA-256 hex digest of the content and [hash] is the built-in
    string hash under the hash secret of the serving process: the run is
    the one the caller would get by supplying that number, and two runs over
    the same content derive the same identifier when their processes share
    the hash secret. A supplied identifier is used as it is. *)
Theorem guide_id_derivation (sv : server) (w : env) (filename : string)
    (content : list byte) (callback_url : option string) (fs : gset string) :
  let gid := PyHash.hash_str (hash_secret sv) (Hashlib.hexdigest content) mod 10000 in
  actual_guide_id (hash_secret sv) None (Hashlib.hexdigest content) = gid /\
  0 <= gid < 10000 /\
  upload_video sv w filename content None callback_url fs
    = upload_video sv w filename content (Some gid) callback_url fs /\
  (forall sv', hash_secret sv' = hash_secret sv ->
     actual_guide_id (hash_secret sv') None (Hashlib.hexdigest content) = gid) /\
  (forall g video_hash, actual_guide_id (hash_secret sv) (Some g) video_hash = g).
Proof.
  intros gid.
  assert (Hb : 0 <= gid < 10000) by (apply Z.mod_pos_bound; lia).
  split_and!; try reflexivity; try lia.
  intros sv' ->. reflexivity.
Qed.

(** The three bytes [abc] under the secret of seed 1 *)
Lemma guide_id_derivation_witness :
  actual_guide_id (hash_secret (server_with_seed 1)) None (Hashlib.hexdigest abc)
  = PyHash.hash_str (hash_secret (server_with_seed 1)) (Hashlib.hexdigest abc) mod 10000.
Proof.
  destruct (guide_id_derivation (server_with_seed 1)
              (quiet_env (clip (fun _ _ => Ok None))) "Lesson.MP4" abc None ∅)
    as (_ & _ & _ & H & _).
  apply (H (server_with_seed 1)). reflexivity.
Defined.

(** * Further properties of [video_processor.py] *)

(** ** Where the loop seeks *)

Lemma plan_entries (fps : float) (frame_count : Z) (plan : list (nat * Z)) :
  sample_plan fps frame_count = Ok plan ->
  exists n, 3 <= n <= 6 /\ length plan = Z.to_nat n /\
    forall i pos, (i, pos) ∈ plan ->
      (i < Z.to_nat n)%nat /\ pos = Z.of_nat i * (frame_count / n).
Proof.
  unfold sample_plan.
  destruct (keyframe_num_steps fps frame_count) as [n|e] eqn:Hn; [|discriminate].
  pose proof (keyframe_num_steps_bounds _ _ _ Hn) as Hb.
  simpl. rewrite floordiv_nonzero by lia. simpl. intros [= <-].
  exists n. split_and!; [lia | lia | now rewrite length_map, range_length |].
  intros i pos Hin. apply list_elem_of_In, in_map_iff in Hin as (j & [= <- <-] & Hj).
  unfold range in Hj. apply in_seq in Hj. split; [lia | reflexivity].
Qed.

(** X1. Whenever a plan is computed for a video of at least one frame,
    every position the loop seeks is a frame of the video, and a whole
    interval fits between it and the end: the loop never seeks past the
    last frame, and the tail after the last sample is never sampled. *)
Theorem planned_positions_in_range (fps : float) (frame_count : Z)
    (plan : list (nat * Z)) :
  1 <= frame_count ->
  sample_plan fps frame_count = Ok plan ->
  forall i pos, (i, pos) ∈ plan ->
    0 <= pos < frame_count /\
    pos + frame_count / Z.of_nat (length plan) <= frame_count.
Proof.
  intros Hfc Hplan i pos Hin.
  destruct (plan_entries _ _ _ Hplan) as (n & Hn & Hlen & Hent).
  destruct (Hent i pos Hin) as [Hi ->]. rewrite Hlen, Z2Nat.id by lia.
  assert (Hitv : 0 <= frame_count / n) by (apply Z.div_pos; lia).
  assert (Hmul : n * (frame_count / n) <= frame_count)
    by (apply Z.mul_div_le; lia).
  assert (Hlt : frame_count < n * (frame_count / n) + n).
  { pose proof (Z.mul_succ_div_gt frame_count n). lia. }
  split; [split|]; nia.
Qed.

(** A video of 7 frames at 30 frames per second *)
Lemma planned_positions_in_range_witness :
  0 <= 4 < 7 /\ 4 + 7 / Z.of_nat (length [(0%nat, 0); (1%nat, 2); (2%nat, 4)]) <= 7.
Proof.
  refine (planned_positions_in_range (Finite 30) 7 [(0%nat, 0); (1%nat, 2); (2%nat, 4)]
            _ _ 2%nat 4 _); [lia | reflexivity |].
  apply list_elem_of_In. simpl. tauto.
Defined.

(** X2. A video with fewer frames than planned samples (but not a
    negative count) has interval 0: every sample seeks frame 0, so all the
    keyframes of the run are the same frame. *)
Theorem short_video_collapses (fps : float) (frame_count : Z)
    (plan : list (nat * Z)) :
  sample_plan fps frame_count = Ok plan ->
  0 <= frame_count < Z.of_nat (length plan) ->
  Forall (fun p => snd p = 0) plan.
Proof.
  intros Hplan Hfc.
  destruct (plan_entries _ _ _ Hplan) as (n & Hn & Hlen & Hent).
  rewrite Hlen, Z2Nat.id in Hfc by lia.
  apply Forall_forall. intros [i pos] Hin.
  destruct (Hent i pos Hin) as [_ ->]. simpl.
  rewrite Z.div_small by lia. lia.
Qed.

(** Two frames at 30 frames per second *)
Lemma short_video_collapses_witness :
  Forall (fun p : nat * Z => snd p = 0) [(0%nat, 0); (1%nat, 0); (2%nat, 0)].
Proof.
  apply (short_video_collapses (Finite 30) 2); [reflexivity | simpl; lia].
Defined.

(** ** How many steps *)

Local Open Scope Q_scope.

(** The planner's count never decreases when frames are added *)
Lemma num_steps_mono (fps : Q) (frame_count more n n' : Z) :
  0 < fps -> (0 <= frame_count)%Z -> (0 <= more)%Z ->
  keyframe_num_steps (Finite fps) frame_count = Ok n ->
  keyframe_num_steps (Finite fps) (frame_count + more) = Ok n' ->
  (n <= n')%Z.
Proof.
  intros Hfps Hfc Hmore.
  rewrite !num_steps_of_quotient. unfold keyframe_quotient, of_int.
  assert (H1 : 0 <= inject_Z frame_count) by (rewrite <- (Zle_Qle 0); exact Hfc).
  assert (H2 : inject_Z frame_count <= inject_Z (frame_count + more))
    by (rewrite <- Zle_Qle; lia).
  pose proof (rnd_mono _ _ H1 H2) as Hc.
  pose proof (rnd_nonneg _ H1) as Hc0.
  destruct (binary64_nonneg (inject_Z frame_count) H1) as [(-> & _) | (-> & _)];
    [|discriminate].
  destruct (binary64_nonneg (inject_Z (frame_count + more))) as [(-> & _) | (-> & _)];
    [lra | | discriminate].
  cbn [mbind result_bind mul].
  destruct (binary64_nonneg (fps * 20)) as [(-> & Hp0 & _) | (-> & _)]; [lra | |].
  - cbn [truediv].
    destruct (Qeq_bool (rnd (fps * 20)) 0) eqn:Ez; [discriminate|].
    apply Qeq_bool_false in Ez.
    assert (Hp : 0 < rnd (fps * 20)) by lra.
    set (p := rnd (fps * 20)) in *.
    set (c1 := rnd (inject_Z frame_count)) in *.
    set (c2 := rnd (inject_Z (frame_count + more))) in *.
    assert (Hq1 : 0 <= c1 / p).
    { unfold Qdiv. apply Qmult_le_0_compat; [exact Hc0|].
      apply Qlt_le_weak, Qinv_lt_0_compat, Hp. }
    pose proof (Qdiv_le_pos c1 c2 p Hp Hc) as Hq.
    pose proof (rnd_mono _ _ Hq1 Hq) as Hr.
    pose proof (rnd_nonneg _ Hq1) as Hr0.
    destruct (binary64_nonneg (c1 / p) Hq1) as [(-> & _) | (-> & _)]; [|discriminate].
    destruct (binary64_nonneg (c2 / p)) as [(-> & _) | (-> & _)]; [lra | | discriminate].
    intros [= <-] [= <-].
    pose proof (trunc_mono _ _ Hr0 Hr). lia.
  - cbn [truediv]. intros [= <-] [= <-]. lia.
Qed.

(** X3. For a positive frame rate and a video of at least one frame, the
    number of samples is 3 for videos shorter than 80 seconds and 6 for
    videos of 120 seconds or more, durations within a relative [2^-46] of
    those two apart: there the rounding of the binary64 quotient decides,
    as for 8 frames at the double nearest to 0.1, which are sampled 4 times
    although they last less than 80 seconds. The number never decreases
    when frames are added. *)
Theorem num_steps_by_duration (fps : Q) (frame_count n : Z) :
  0 < fps -> (1 <= frame_count)%Z ->
  keyframe_num_steps (Finite fps) frame_count = Ok n ->
  (inject_Z frame_count < 80 * fps * (1 - eps) -> n = 3%Z) /\
  (80 * fps * (1 + eps) <= inject_Z frame_count -> (4 <= n)%Z) /\
  (inject_Z frame_count < 120 * fps * (1 - eps) -> (n <= 5)%Z) /\
  (120 * fps * (1 + eps) <= inject_Z frame_count -> n = 6%Z) /\
  (forall more n', (0 <= more)%Z ->
     keyframe_num_steps (Finite fps) (frame_count + more) = Ok n' -> (n <= n')%Z) /\
  keyframe_num_steps (binary64 (1 # 10)) 8 = Ok 4%Z /\
  binary64 (1 # 10) = Finite (rnd (1 # 10)) /\
  inject_Z 8 < 80 * rnd (1 # 10).
Proof.
  intros Hfps Hfc Hn.
  pose proof (keyframe_num_steps_bounds _ _ _ Hn) as Hb.
  pose proof (num_steps_between fps frame_count n Hfps Hfc Hn) as [Hlo Hhi].
  unfold spec_num_steps in Hlo, Hhi.
  set (fc := inject_Z frame_count) in *.
  assert (He : 0 < eps /\ eps < 1) by (split; reflexivity).
  assert (Hlt : forall k : Z, fc < inject_Z k * (fps * (1 - eps) * 20) ->
            (Qfloor (fc / (fps * (1 - eps) * 20)) < k)%Z).
  { intros k Hk. apply floor_lt_iff. apply Qlt_shift_div_r; [nra | exact Hk]. }
  assert (Hge : forall k : Z, inject_Z k * (fps * (1 + eps) * 20) <= fc ->
            (k <= Qfloor (fc / (fps * (1 + eps) * 20)))%Z).
  { intros k Hk. rewrite <- (Qfloor_Z k). apply Qfloor_resp_le.
    apply Qle_shift_div_l; [nra | exact Hk]. }
  split_and!.
  - intros H. specialize (Hlt 4%Z). change (inject_Z 4) with 4 in Hlt.
    assert (Qfloor (fc / (fps * (1 - eps) * 20)) < 4)%Z by (apply Hlt; lra). lia.
  - intros H. specialize (Hge 4%Z). change (inject_Z 4) with 4 in Hge.
    assert (4 <= Qfloor (fc / (fps * (1 + eps) * 20)))%Z by (apply Hge; lra). lia.
  - intros H. specialize (Hlt 6%Z). change (inject_Z 6) with 6 in Hlt.
    assert (Qfloor (fc / (fps * (1 - eps) * 20)) < 6)%Z by (apply Hlt; lra). lia.
  - intros H. specialize (Hge 6%Z). change (inject_Z 6) with 6 in Hge.
    assert (6 <= Qfloor (fc / (fps * (1 + eps) * 20)))%Z by (apply Hge; lra). lia.
  - intros more n' Hmore Hn'.
    apply (num_steps_mono fps frame_count more n n'); (lia || assumption).
  - vm_compute. reflexivity.
  - reflexivity.
  - vm_compute. reflexivity.
Qed.

(** 100 seconds at 30 frames per second: 5 samples *)
Lemma num_steps_by_duration_witness : (4 <= 5)%Z /\ (5 <= 5)%Z.
Proof.
  destruct (num_steps_by_duration 30 3000 5) as (_ & H4 & H5 & _);
    [reflexivity | lia | vm_compute; reflexivity |].
  split; [apply H4 | apply H5]; vm_compute; [discriminate | reflexivity].
Defined.

(** The quotient of the fallback against the exact one, where it counts *)
Lemma mock_quotient_bound (q : Q) (frame_count : Z) (d md : Q) :
  0 < q -> (1 <= frame_count)%Z ->
  fallback_duration (Finite q) frame_count = Ok (Finite d) ->
  binary64 (d / 30) = Finite md -> 4 <= md ->
  md * 30 * q * (1 - eps) <= inject_Z frame_count.
Proof.
  intros Hq Hfc. unfold fallback_duration. cbn [gt].
  replace (negb (Qle_bool q (inject_Z 0))) with true.
  2:{ symmetry. apply negb_true_iff. apply not_true_is_false. intros E.
      apply Qle_bool_iff in E. change (inject_Z 0) with 0 in E. lra. }
  assert (Hfc1 : 1 <= inject_Z frame_count) by (rewrite (Zle_Qle 1) in Hfc; exact Hfc).
  destruct (of_int_pos frame_count Hfc) as [(-> & Hf & _)| ->]; [|discriminate].
  set (fc := inject_Z frame_count) in *. set (f := rnd fc) in *.
  cbn [mbind result_bind]. unfold truediv.
  destruct (Qeq_bool q 0) eqn:E0; [apply Qeq_bool_iff in E0; lra|].
  assert (Hf0 : 0 < f) by (unfold u in *; lra).
  assert (HX : 0 <= f / q) by (apply Qle_shift_div_l; lra).
  intros [= Hd]. apply binary64_finite_inv in Hd as [-> _].
  pose proof (rnd_error_pos _ HX) as Hdb. pose proof (rnd_nonneg _ HX) as Hd0.
  set (X := f / q) in *. set (d := rnd X) in *.
  assert (EX : X * q == f) by (unfold X; field; lra).
  assert (Hd30 : 0 <= d / 30) by (apply Qle_shift_div_l; lra).
  intros Hmd Hmd4. apply binary64_finite_inv in Hmd as [-> _].
  pose proof (rnd_error_pos _ Hd30) as Hmb.
  assert (E30 : d / 30 * 30 == d) by (field; discriminate).
  set (z := d / 30) in *. set (md := rnd z) in *.
  assert (Hd1 : d * (1 - u) - u * d <= X * (1 + u)) by (unfold u, eta in *; lra).
  assert (Hq1 : (d * (1 - u) - u * d) * q <= X * (1 + u) * q)
    by (apply Qmult_le_compat_r; lra).
  assert (Hm1 : md * 30 <= d * (1 + 3 * u)) by (unfold u, eta in *; lra).
  assert (Hq2 : md * 30 * q <= d * (1 + 3 * u) * q)
    by (apply Qmult_le_compat_r; lra).
  unfold u, eta, eps in *. lra.
Qed.

Lemma trunc_below (x : Q) (k : Z) : (0 < k)%Z -> x < inject_Z k -> (trunc x < k)%Z.
Proof.
  intros Hk Hx. destruct (Qlt_le_dec x 0) as [Hneg|Hpos].
  - assert (trunc x <= 0)%Z by (apply trunc_nonpos; lra). lia.
  - rewrite trunc_floor by assumption. now apply floor_lt_iff.
Qed.

(** What [mock_num_steps] returns *)
Lemma mock_num_steps_inv (duration : float) (m : Z) :
  mock_num_steps duration = Ok m ->
  exists d md,
    (duration = Finite d) /\ (binary64 (d / 30) = Finite md) /\
    (m = Z.min (Z.max (trunc md) 3) 6).
Proof.
  unfold mock_num_steps, truediv. change (Qeq_bool 30 0) with false.
  cbn [mbind result_bind].
  destruct duration as [d|s|]; cbn [int mbind result_bind]; [|discriminate..].
  destruct (binary64 (d / 30)) as [md|s|] eqn:E; cbn [int mbind result_bind];
    [|discriminate..].
  intros [= <-]. eauto.
Qed.

(** X4. Whenever a plan is computed and the fallback makes its list for
    the same video, the mock list is never longer than the plan: the
    fallback counts one step per 30 seconds, the plan one sample per 20,
    and the rounding of the two quotients never closes that gap. *)
Theorem mock_not_longer_than_plan (fps : float) (frame_count guide_id n : Z)
    (mock : list step) :
  keyframe_num_steps fps frame_count = Ok n ->
  fallback fps frame_count guide_id = Ok mock ->
  (Z.of_nat (length mock) <= n)%Z.
Proof.
  intros Hn Hmock.
  pose proof (keyframe_num_steps_bounds _ _ _ Hn) as Hb.
  apply fallback_inv in Hmock as (dur & Hdur & Hmock).
  apply mock_steps_inv in Hmock as (Hlen & _ & _).
  apply mock_num_steps_inv in Hlen as (d & md & -> & Hmd & Hm).
  rewrite Hm. clear Hm.
  destruct (Qlt_le_dec md 4) as [Hlt|Hge].
  { assert (trunc md < 4)%Z by (apply trunc_below; [lia | exact Hlt]). lia. }
  (* the quotient of the fallback is at least 4: the rate is a positive
     number and the video has a frame *)
  pose proof (binary64_finite_inv _ _ Hmd) as [Emd _].
  assert (Hge' : 4 <= rnd (d / 30)) by now rewrite <- Emd.
  assert (Hd : 0 < d).
  { apply Qnot_le_lt. intros Hd.
    assert (Hz : d / 30 <= 0).
    { apply Qle_shift_div_r; [reflexivity | lra]. }
    pose proof (rnd_nonpos _ Hz). lra. }
  revert Hdur. unfold fallback_duration.
  destruct (gt fps 0) eqn:Hgt.
  2:{ intros [= <-]. exfalso. revert Hge'. vm_compute. intros H. now apply H. }
  destruct (Z_lt_le_dec frame_count 1) as [Hfc|Hfc].
  { (* no frame: the duration is not above 0 *)
    unfold of_int.
    assert (Hf : inject_Z frame_count <= 0).
    { change 0 with (inject_Z 0). rewrite <- Zle_Qle. lia. }
    pose proof (rnd_nonpos _ Hf) as Hf'.
    destruct (binary64_cases (inject_Z frame_count)) as [[-> _]|[-> _]];
      cbn [mbind result_bind]; [|discriminate].
    unfold truediv. destruct fps as [q|s|]; [| |discriminate].
    - destruct (Qeq_bool q 0) eqn:E0; [discriminate|].
      cbn [gt] in Hgt. apply negb_true_iff in Hgt.
      assert (Hq : 0 < q).
      { apply Qnot_le_lt. intros H. apply Qle_bool_iff in H.
        change (inject_Z 0) with 0 in Hgt. congruence. }
      intros [= H]. apply binary64_finite_inv in H as [-> _].
      assert (Hz : rnd (inject_Z frame_count) / q <= 0).
      { apply Qle_shift_div_r; [assumption | lra]. }
      pose proof (rnd_nonpos _ Hz). lra.
    - intros [= <-]. lra. }
  destruct fps as [q|s|]; [| |discriminate].
  - cbn [gt] in Hgt. apply negb_true_iff in Hgt.
    assert (Hq : 0 < q).
    { apply Qnot_le_lt. intros H. apply Qle_bool_iff in H.
      change (inject_Z 0) with 0 in Hgt. congruence. }
    intros Hdur.
    assert (Hdur' : fallback_duration (Finite q) frame_count = Ok (Finite d)).
    { unfold fallback_duration. cbn [gt]. now rewrite Hgt. }
    pose proof (mock_quotient_bound q frame_count d md Hq Hfc Hdur' Hmd Hge) as Hup.
    rewrite num_steps_of_quotient in Hn.
    destruct (keyframe_quotient (Finite q) frame_count) as [[raw|s|]|e] eqn:Hraw;
      try discriminate.
    injection Hn as <-.
    destruct (quotient_bounds q frame_count raw Hq Hfc Hraw) as (Hr0 & _ & Hlo).
    assert (He : 0 < eps /\ eps < 1 # 1000) by (split; reflexivity).
    assert (H4 : 4 * (30 * q * (1 - eps)) <= md * (30 * q * (1 - eps))).
    { apply Qmult_le_compat_r; [assumption | nra]. }
    assert (Hlo' : inject_Z frame_count <= raw * (q * 20) * (1 + eps)).
    { apply Hlo. nra. }
    assert (Hcmp : md * (30 * (1 - eps)) * q <= raw * (20 * (1 + eps)) * q) by lra.
    apply Qmult_le_r in Hcmp; [|assumption].
    assert (Hle : md <= raw) by (unfold eps in *; lra).
    assert (trunc md <= trunc raw)%Z by (apply trunc_mono; lra). lia.
  - (* an infinite rate: the duration is 0 *)
    unfold of_int.
    destruct (binary64_cases (inject_Z frame_count)) as [[-> _]|[-> _]];
      cbn [mbind result_bind]; [|discriminate].
    intros [= <-]. lra.
Qed.

(** 300 seconds at 30 frames per second: 6 mock steps against 6 samples *)
Lemma mock_not_longer_than_plan_witness :
  (Z.of_nat (length [mock_step 0; mock_step 1; mock_step 2; mock_step 3;
                     mock_step 4; mock_step 5]) <= 6)%Z.
Proof.
  apply (mock_not_longer_than_plan (Finite 30) 9000 7 6); vm_compute; reflexivity.
Defined.

Local Close Scope Q_scope.
(** ** What the records say *)

(** X5. Every record of a mock list takes its title and its description
    from the two fixed pools, at its own position, and carries the
    placeholder image of id 20 plus that position: the ["Step N"] texts of
    lines 188-189 are never produced, because a mock list has at most as many
    records as the pools have entries. *)
Theorem mock_texts_from_pools (guide_id : Z) (duration : float)
    (mock : list step) (k : nat) (s : step) :
  _generate_mock_steps guide_id duration = Ok mock ->
  mock !! k = Some s ->
  step_titles !! k = Some (title s) /\
  step_descriptions !! k = Some (description s) /\
  image_url s = picsum (20 + k) /\
  (k < 6)%nat.
Proof.
  intros Hm Hk. pose proof (lookup_lt_Some _ _ _ Hk) as Hlt.
  destruct (mock_steps_inv _ _ _ Hm) as (_ & Hlen & Hl).
  rewrite Hl in Hk by assumption. injection Hk as <-.
  assert (Hk6 : (k < 6)%nat) by lia.
  do 6 (destruct k as [|k]; [split_and!; [reflexivity..|lia]|]). lia.
Qed.

(** The third record of the shortest mock list *)
Lemma mock_texts_from_pools_witness :
  step_titles !! 2%nat = Some (title (mock_step 2)).
Proof.
  apply (mock_texts_from_pools 7 (Finite 60) [mock_step 0; mock_step 1; mock_step 2]
           2 (mock_step 2)); reflexivity.
Defined.

Lemma real_title_cases (i : nat) (n : Z) (path : string) :
  title (_generate_step_from_position i n path)
  ∈ [ "Initial Setup and Preparation"; "Primary Process Execution";
      "Intermediate Steps and Adjustments"; "Advanced Techniques Application";
      "Final Assembly and Completion"; "Quality Control and Finishing" ].
Proof.
  do 5 (destruct i as [|i]; [apply list_elem_of_In; simpl; tauto|]).
  replace (title (_generate_step_from_position (S (S (S (S (S i))))) n path))
    with "Quality Control and Finishing".
  - apply list_elem_of_In. simpl. tauto.
  - unfold _generate_step_from_position. cbn [title].
    replace (Nat.min (S (S (S (S (S i))))) (length step_templates - 1)) with 5%nat
      by (simpl; lia).
    reflexivity.
Qed.

(** X6. A record built from a decoded frame and a mock record never
    carry the same title, whatever their ordinals: the two template pools
    share no title, so a caller can tell a real list from a mock list by its
    content, though both have the same shape. *)
Theorem real_and_mock_differ (i : nat) (n : Z) (path : string) (j : nat) :
  title (_generate_step_from_position i n path) <> title (mock_step j) /\
  _generate_step_from_position i n path <> mock_step j.
Proof.
  assert (H : title (_generate_step_from_position i n path) <> title (mock_step j)).
  { pose proof (real_title_cases i n path) as Hin.
    intros E. rewrite E in Hin. clear E.
    apply list_elem_of_In in Hin. simpl in Hin.
    do 6 (destruct j as [|j]; [simpl in Hin; intuition discriminate|]).
    unfold mock_step in Hin. cbn [title] in Hin.
    replace (S (S (S (S (S (S j))))) <? length step_titles)%nat with false in Hin
      by (symmetry; apply Nat.ltb_ge; simpl; lia).
    simpl in Hin. intuition discriminate. }
  split; [exact H|]. intros E. apply H. now rewrite E.
Qed.

(** ** What is written, and where *)

Lemma sample_files (w : env) (cap : capture) (guide_id n interval : Z)
    (i : nat) (fs : gset string) (p : string) :
  p ∈ snd (sample w cap guide_id n interval i fs) ->
  p ∈ fs \/ p = keyframe_path w guide_id i.
Proof.
  destruct (read cap i (frame_number i interval)) as [[f|]|e] eqn:Hrd.
  - destruct (sample_frame w cap guide_id n interval i f fs Hrd) as [-> | [e ->]].
    + simpl. intros [->%elem_of_singleton | H]%elem_of_union; auto.
    + simpl. auto.
  - rewrite sample_skip by assumption. simpl. auto.
  - rewrite (sample_raise w cap guide_id n interval i e) by assumption. simpl. auto.
Qed.

Lemma loop_files (w : env) (cap : capture) (guide_id n interval : Z)
    (indices : list nat) : forall steps paths fs p,
  p ∈ snd (sample_loop w cap guide_id n interval indices steps paths fs) ->
  p ∈ fs \/ exists i, i ∈ indices /\ p = keyframe_path w guide_id i.
Proof.
  induction indices as [|i rest IH]; intros steps paths fs p; simpl.
  - auto.
  - unfold mbind, M_bind at 1.
    pose proof (sample_files w cap guide_id n interval i fs) as Hs.
    destruct (sample w cap guide_id n interval i fs) as [[[[s path]|]|e] fs1];
      simpl in Hs.
    + intros Hp. apply IH in Hp as [Hp | (j & Hj & ->)].
      * apply Hs in Hp as [Hp | ->]; [auto|]. right. exists i. split; [left|reflexivity].
      * right. exists j. split; [now right | reflexivity].
    + intros Hp. apply IH in Hp as [Hp | (j & Hj & ->)].
      * apply Hs in Hp as [Hp | ->]; [auto|]. right. exists i. split; [left|reflexivity].
      * right. exists j. split; [now right | reflexivity].
    + simpl. intros Hp. apply Hs in Hp as [Hp | ->]; [auto|].
      right. exists i. split; [left|reflexivity].
Qed.

Lemma extract_files (w : env) (cap : capture) (fps : float)
    (frame_count guide_id : Z) (fs : gset string) (p : string) :
  p ∈ snd (_extract_keyframes_and_generate_steps w cap fps frame_count guide_id fs) ->
  p ∈ fs \/ exists i, (i < 6)%nat /\ p = keyframe_path w guide_id i.
Proof.
  unfold _extract_keyframes_and_generate_steps, try_except, extract_body.
  unfold mbind, M_bind, lift.
  destruct (keyframe_num_steps fps frame_count) as [n|e] eqn:Hn; [|simpl; auto].
  pose proof (keyframe_num_steps_bounds _ _ _ Hn) as Hb.
  rewrite floordiv_nonzero by lia.
  pose proof (loop_files w cap guide_id n (frame_count / n) (range n) [] [] fs p) as Hl.
  destruct (sample_loop w cap guide_id n (frame_count / n) (range n) [] [] fs)
    as [[l|e] fs1]; simpl in *; intros Hp;
    (apply Hl in Hp as [Hp | (i & Hi & ->)]; [auto|]);
    right; exists i; (split; [|reflexivity]);
    apply list_elem_of_In, in_seq in Hi; lia.
Qed.

Lemma opened_run_files (w : env) (cap : capture) (guide_id : Z)
    (fs : gset string) (p : string) :
  p ∈ snd (opened_run w cap guide_id fs) ->
  p ∈ fs \/ exists i, (i < 6)%nat /\ p = keyframe_path w guide_id i.
Proof.
  unfold opened_run. destruct (int (CAP_PROP_FRAME_COUNT cap)) as [fc|e].
  - destruct (video_duration (CAP_PROP_FPS cap) fc) as [duration|e].
    + apply extract_files.
    + simpl. auto.
  - simpl. auto.
Qed.

Lemma download_files (w : env) (url : string) (fs : gset string) (p : string) :
  p ∈ snd (_download_video w url fs) -> p ∈ fs \/ p = download_path w.
Proof.
  unfold _download_video, try_except, mbind, M_bind, lift, write_file, raise.
  fold (download_path w).
  destruct (requests_get w url) as [resp|e]; [|simpl; auto].
  destruct (raise_for_status resp) as [[]|e]; [|simpl; auto].
  destruct (open_wb w (download_path w)) as [[]|e]; [|simpl; auto].
  destruct (iter_content resp) as [[]|e]; simpl;
    intros [->%elem_of_singleton | H]%elem_of_union; auto.
Qed.

(** [process_video], by its three stages *)
Lemma process_video_stages (w : env) (video_path : string) (guide_id : Z)
    (fs : gset string) :
  process_video w video_path guide_id fs
  = match (if is_url video_path then _download_video w video_path fs
           else (Ok video_path, fs)) with
    | (Ok path, fs1) =>
        if isOpened (VideoCapture w path)
        then opened_run w (VideoCapture w path) guide_id fs1
        else (Raise (Exn ValueError ("Could not open video file: " +:+ path)), fs1)
    | (Raise e, fs1) => (Raise e, fs1)
    end.
Proof.
  unfold process_video, try_except, is_url, opened_run.
  unfold mbind at 1. unfold M_bind at 1.
  destruct (startswith video_path "http://" || startswith video_path "https://").
  - destruct (_download_video w video_path fs) as [[path|e] fs1]; [|reflexivity].
    destruct (isOpened (VideoCapture w path)); cbn [negb]; [|reflexivity].
    unfold mbind, M_bind, mret, M_ret, lift, raise.
    destruct (int (CAP_PROP_FRAME_COUNT (VideoCapture w path))) as [fc|e];
      [|reflexivity].
    destruct (video_duration (CAP_PROP_FPS (VideoCapture w path)) fc)
      as [duration|e]; [|reflexivity].
    destruct (_extract_keyframes_and_generate_steps w (VideoCapture w path)
                (CAP_PROP_FPS (VideoCapture w path)) fc guide_id fs1)
      as [[l|e] fs']; reflexivity.
  - unfold mret at 1. unfold M_ret at 1.
    destruct (isOpened (VideoCapture w video_path)); cbn [negb]; [|reflexivity].
    unfold mbind, M_bind, mret, M_ret, lift, raise.
    destruct (int (CAP_PROP_FRAME_COUNT (VideoCapture w video_path))) as [fc|e];
      [|reflexivity].
    destruct (video_duration (CAP_PROP_FPS (VideoCapture w video_path)) fc)
      as [duration|e]; [|reflexivity].
    destruct (_extract_keyframes_and_generate_steps w (VideoCapture w video_path)
                (CAP_PROP_FPS (VideoCapture w video_path)) fc guide_id fs)
      as [[l|e] fs']; reflexivity.
Qed.

(** X7. A run writes nowhere but in its temporary directory, and under
    at most seven names there: whatever the outcome, a file on disk after
    [process_video] was there before, or is the downloaded copy, or is the
    keyframe image of one of the ordinals 0 to 5 for the run's guide id. *)
Theorem files_written_are_temporary (w : env) (video_path : string)
    (guide_id : Z) (fs : gset string) (p : string) :
  p ∈ snd (process_video w video_path guide_id fs) ->
  p ∈ fs \/ p = download_path w \/
  exists i, (i < 6)%nat /\ p = keyframe_path w guide_id i.
Proof.
  rewrite process_video_stages.
  assert (Hstage : forall path fs1, (p ∈ fs1 -> p ∈ fs \/ p = download_path w) ->
            p ∈ snd (if isOpened (VideoCapture w path)
                     then opened_run w (VideoCapture w path) guide_id fs1
                     else (Raise (Exn ValueError
                                    ("Could not open video file: " +:+ path)), fs1)) ->
            p ∈ fs \/ p = download_path w \/
            exists i, (i < 6)%nat /\ p = keyframe_path w guide_id i).
  { intros path fs1 Hfs1. destruct (isOpened (VideoCapture w path)).
    - intros Hp. apply opened_run_files in Hp as [Hp|Hp]; [|auto].
      apply Hfs1 in Hp as [Hp|Hp]; auto.
    - cbn [snd]. intros Hp. apply Hfs1 in Hp as [Hp|Hp]; auto. }
  destruct (is_url video_path).
  - pose proof (download_files w video_path fs p) as Hd.
    destruct (_download_video w video_path fs) as [[path|e] fs1]; cbn [snd] in Hd.
    + apply Hstage. exact Hd.
    + cbn [snd]. intros Hp. apply Hd in Hp as [Hp|Hp]; auto.
  - apply Hstage. auto.
Qed.

(** The first keyframe of a run whose frames all decode *)
Lemma files_written_are_temporary_witness :
  "/tmp/tmpk3y/keyframe_7_0.jpg" ∈ (∅ : gset string) \/
  "/tmp/tmpk3y/keyframe_7_0.jpg"
    = download_path (quiet_env (clip (fun _ _ => Ok (Some hd_frame)))) \/
  exists i, (i < 6)%nat /\
    "/tmp/tmpk3y/keyframe_7_0.jpg"
      = keyframe_path (quiet_env (clip (fun _ _ => Ok (Some hd_frame)))) 7 i.
Proof.
  apply (files_written_are_temporary
           (quiet_env (clip (fun _ _ => Ok (Some hd_frame)))) "lesson.mp4" 7 ∅).
  apply (bool_decide_unpack _). vm_compute. exact I.
Defined.

(** X8. A download that fails surfaces unchanged: [process_video] ends
    with the very exception [_download_video] raised, builds no mock list,
    and leaves the disk as the download left it. That is the disk as it was,
    unless the failure came while the response was being streamed: then the
    partly written copy stays in the temporary directory. *)
Theorem download_error_surfaces (w : env) (url : string) (guide_id : Z)
    (fs fs' : gset string) (e : exn) :
  is_url url = true ->
  _download_video w url fs = (Raise e, fs') ->
  process_video w url guide_id fs = (Raise e, fs') /\
  (fs' = fs \/
   fs' = {[ download_path w ]} ∪ fs /\
   exists resp, requests_get w url = Ok resp /\ iter_content resp = Raise e).
Proof.
  intros Hu Hd. split.
  - unfold process_video, try_except.
    unfold mbind at 1. unfold M_bind at 1. fold (is_url url).
    rewrite Hu, Hd. reflexivity.
  - revert Hd.
    unfold _download_video, try_except, mbind, M_bind, lift, write_file, raise.
    fold (download_path w).
    destruct (requests_get w url) as [resp|e0]; [|intros [= _ <-]; now left].
    destruct (raise_for_status resp) as [[]|e0]; [|intros [= _ <-]; now left].
    destruct (open_wb w (download_path w)) as [[]|e0]; [|intros [= _ <-]; now left].
    destruct (iter_content resp) as [[]|e0] eqn:Hit; [discriminate|].
    intros [= <- <-]. right. split; [reflexivity|]. exists resp. now split.
Qed.

(** A response that breaks while it is streamed *)
Lemma download_error_surfaces_witness :
  process_video
    {| mkdtemp := "/tmp/tmpk3y"; urandom_hex := "0011223344556677";
       requests_get := fun _ =>
         Ok {| raise_for_status := Ok tt;
               iter_content := Raise (Exn RequestException "Connection broken") |};
       VideoCapture := fun _ => unopened_capture;
       cvtColor := fun _ => Ok tt; resize := fun _ _ => Ok tt;
       imencode := fun _ _ => Ok tt; open_wb := fun _ => Ok tt |}
    "https://example.org/lesson.mp4" 7 ∅
  = (Raise (Exn RequestException "Connection broken"),
     {[ "/tmp/tmpk3y/video_0011223344556677.mp4" ]} ∪ ∅).
Proof.
  refine (proj1 (download_error_surfaces _ _ 7 ∅ _ _ _ _)); reflexivity.
Defined.

(** ** Keyframe file names *)

Lemma string_length_app (s t : string) :
  String.length (s +:+ t) = (String.length s + String.length t)%nat.
Proof. induction s as [|c s IH]; simpl; [reflexivity | now rewrite IH]. Qed.

Lemma string_app_inv_tail (s1 s2 t : string) : s1 +:+ t = s2 +:+ t -> s1 = s2.
Proof.
  revert s2. induction s1 as [|c s1 IH]; intros [|c2 s2] H.
  - reflexivity.
  - apply (f_equal String.length) in H.
    rewrite !string_length_app in H. simpl in H. lia.
  - apply (f_equal String.length) in H.
    rewrite !string_length_app in H. simpl in H. lia.
  - simpl in H. injection H as -> H. f_equal. now apply IH.
Qed.

(** X9. Within a run, the keyframes of different ordinals are different
    files: the name of a keyframe determines its ordinal, so the files of a
    real list are as many as its records, also when all samples show the same
    frame. *)
Theorem keyframe_names_distinct (w : env) (guide_id : Z) (i j : nat) (n : Z) :
  (keyframe_path w guide_id i = keyframe_path w guide_id j -> i = j) /\
  NoDup (keyframe_path w guide_id <$> range n).
Proof.
  assert (Hinj : forall a b,
            keyframe_path w guide_id a = keyframe_path w guide_id b -> a = b).
  { intros a b H. unfold keyframe_path, temp_path in H.
    repeat apply (inj (String.app _)) in H.
    apply string_app_inv_tail in H. now apply (inj pretty) in H. }
  split; [apply Hinj|].
  apply NoDup_fmap_2_strong; [|apply NoDup_seq].
  intros a b _ _. apply Hinj.
Qed.

(** * Further properties of [video.py] and [config.py] *)

(** ** Hashing a stored file *)

Lemma read_chunks_all (reads : nat) : forall rest fed,
  (length rest < reads)%nat -> read_chunks reads rest fed = fed ++ rest.
Proof.
  induction reads as [|reads IH]; intros rest fed Hlen; [lia|].
  simpl. destruct (take 4096 rest) as [|b chunk] eqn:Ht.
  - destruct rest as [|b rest]; [now rewrite app_nil_r | discriminate].
  - rewrite IH.
    + rewrite <- Ht, <- app_assoc. now rewrite take_drop.
    + rewrite length_drop. destruct rest as [|b' rest]; [discriminate|].
      simpl in *. lia.
Qed.

(** X10. [get_video_hash] reads the file 4096 bytes at a time, and the
    digest it returns is the SHA-256 hex digest of the whole content, of any
    length, the empty file included: the value [upload_video] computes from
    the bytes in memory. A path with no file raises an [OSError]. *)
Theorem get_video_hash_whole_file (disk : gmap string (list byte))
    (file_path : string) :
  (disk !! file_path = None ->
     exists msg, get_video_hash disk file_path = Raise (Exn OSError msg)) /\
  (forall content, disk !! file_path = Some content ->
     get_video_hash disk file_path = Ok (Hashlib.hexdigest content)) /\
  (forall content, get_video_hash (<[file_path := content]> disk) file_path
     = Ok (Hashlib.hexdigest content)).
Proof.
  assert (H : forall content, disk !! file_path = Some content ->
            get_video_hash disk file_path = Ok (Hashlib.hexdigest content)).
  { intros content Hc. unfold get_video_hash. rewrite Hc.
    now rewrite read_chunks_all by lia. }
  split_and!.
  - intros Hn. unfold get_video_hash. rewrite Hn. eauto.
  - exact H.
  - intros content. unfold get_video_hash. rewrite lookup_insert_eq.
    now rewrite read_chunks_all by lia.
Qed.

(** The three bytes [abc] stored under a path *)
Lemma get_video_hash_whole_file_witness :
  get_video_hash {[ "uploads/a.mp4" := abc ]} "uploads/a.mp4"
  = Ok "ba7816bf8f01cfea414140de5dae2223b00361a396177a9cb410ff61f20015ad".
Proof.
  rewrite (proj1 (proj2 (get_video_hash_whole_file
                           {[ "uploads/a.mp4" := abc ]} "uploads/a.mp4")) abc).
  - vm_compute. reflexivity.
  - apply lookup_singleton_eq.
Defined.

(** ** The callback *)

(** The two shapes of what [send_callback] does *)
Lemma callback_events_cases (post : string -> payload -> result Z)
    (callback_url : string) (res : value) (guide_id : Z) :
  exists lv msg,
    send_callback_events post callback_url res guide_id = [Log lv msg] \/
    send_callback_events post callback_url res guide_id
    = [Post callback_url
         {| pl_guide_id := guide_id; pl_status := "completed";
            pl_result := res;
            pl_timestamp := match value_get res "timestamp" with
                            | inr ts => ts
                            | inl _ => None
                            end |};
       Log lv msg].
Proof.
  unfold send_callback_events.
  destruct (value_get res "timestamp") as [msg|ts]; [eauto|].
  destruct (post callback_url _) as [code|e]; [|eauto].
  destruct (code =? 200); eauto.
Qed.

(** X11. [send_callback] attempts at most one request and writes exactly
    one log line. A request, when there is one, goes to the callback URL and
    carries the guide id, the status ["completed"] and the result as it was
    given. For a result that is a list, which is what [process_video]
    returns, no request is attempted at all: reading its [timestamp] fails
    first, and the only effect is an error line in the log. *)
Theorem callback_effects (post : string -> payload -> result Z)
    (callback_url : string) (res : value) (guide_id : Z) :
  let events := send_callback_events post callback_url res guide_id in
  (exists lv msg,
     events = [Log lv msg] \/
     events = [Post callback_url
                 {| pl_guide_id := guide_id; pl_status := "completed";
                    pl_result := res;
                    pl_timestamp := match value_get res "timestamp" with
                                    | inr ts => ts
                                    | inl _ => None
                                    end |};
               Log lv msg]) /\
  (forall steps : list step, res = VList (VStep <$> steps) ->
     events = [Log ERROR ("Failed to send callback to " +:+ callback_url
                          +:+ ": 'list' object has no attribute 'get'")]) /\
  (forall d, res = VDict d -> exists body lv msg,
     events = [Post callback_url body; Log lv msg] /\
     (lv = INFO <-> post callback_url body = Ok 200)).
Proof.
  intros events. unfold events. split_and!.
  - apply callback_events_cases.
  - intros steps ->. reflexivity.
  - intros d ->. unfold send_callback_events. simpl.
    destruct (post callback_url _) as [code|e] eqn:Hp.
    + destruct (code =? 200) eqn:Hc.
      * apply Z.eqb_eq in Hc as ->. eexists _, _, _. split; [reflexivity|].
        split; [intros _; exact Hp | reflexivity].
      * eexists _, _, _. split; [reflexivity|].
        split; [discriminate|]. rewrite Hp. intros [= ->]. discriminate.
    + eexists _, _, _. split; [reflexivity|].
      split; [discriminate|]. rewrite Hp. discriminate.
Qed.

(** ** What the upload handler leaves on disk *)

Lemma not_in_difference (stored : string) (fs : gset string) :
  stored ∉ fs ∖ {[ stored ]}.
Proof. intros [_ Hne]%elem_of_difference. apply Hne. now apply elem_of_singleton. Qed.

(** The disk after an accepted upload *)
Lemma upload_files (sv : server) (w : env) (filename : string)
    (content : list byte) (guide_id : option Z) (callback_url : option string)
    (fs : gset string) :
  allowed (config sv) filename = true ->
  snd (upload_video sv w filename content guide_id callback_url fs)
  = match open_wb w (upload_path sv filename) with
    | Ok _ =>
        snd (process_video w (upload_path sv filename)
               (actual_guide_id (hash_secret sv) guide_id (Hashlib.hexdigest content))
               ({[ upload_path sv filename ]} ∪ fs))
        ∖ {[ upload_path sv filename ]}
    | Raise _ => fs ∖ {[ upload_path sv filename ]}
    end.
Proof.
  intros Hal. unfold upload_video.
  fold (allowed (config sv) filename). fold (upload_path sv filename).
  set (stored := upload_path sv filename).
  set (gid := actual_guide_id (hash_secret sv) guide_id (Hashlib.hexdigest content)).
  rewrite Hal. cbn [negb].
  unfold try_finally, try_except.
  unfold mbind at 1. unfold M_bind at 1. unfold write_file.
  assert (Hexc : forall (e : exn) (fs1 : gset string),
            (let (r, fs') :=
               mbind (M := M)
                 (fun ex : bool =>
                    mbind (M := M)
                      (fun _ : unit =>
                         raise (A := value) (Exn (HTTPException 500) (exc_str e)))
                      (if ex then unlink stored else mret tt))
                 (exists_ stored) fs1 in
             (r, snd (if bool_decide (stored ∈ fs') && negb (DEBUG (config sv))
                      then unlink stored fs' else (Ok tt, fs')))).2
            = fs1 ∖ {[ stored ]}).
  { intros e fs1. unfold mbind, M_bind, exists_, raise, unlink, mret, M_ret.
    pose proof (not_in_difference stored fs1) as Hout.
    destruct (bool_decide (stored ∈ fs1)) eqn:Hin; simpl.
    - now rewrite bool_decide_eq_false_2 by assumption.
    - apply bool_decide_eq_false in Hin.
      rewrite bool_decide_eq_false_2 by assumption. simpl.
      apply set_eq. intros x. rewrite elem_of_difference, elem_of_singleton.
      split; [|tauto]. intros Hx. split; [assumption|]. now intros ->. }
  destruct (open_wb w stored) as [[]|e0].
  - unfold mbind at 1. unfold M_bind at 1.
    destruct (process_video w stored gid ({[ stored ]} ∪ fs)) as [[steps|e] fs1].
    + unfold mbind at 1. unfold M_bind at 1. unfold lift.
      rewrite setitem_list_str. now rewrite Hexc.
    + now rewrite Hexc.
  - now rewrite Hexc.
Qed.

(** X12. The upload handler never leaves the stored upload behind,
    debug mode or not: an accepted upload always ends in the error branch,
    which removes the file. Everything else is left as it was: the files
    present before, and the temporary files [process_video] wrote. A
    refused upload touches nothing. *)
Theorem upload_removes_only_the_upload (sv : server) (w : env)
    (filename : string) (content : list byte) (guide_id : option Z)
    (callback_url : option string) (fs : gset string) :
  let stored := upload_path sv filename in
  let gid := actual_guide_id (hash_secret sv) guide_id (Hashlib.hexdigest content) in
  let after := snd (upload_video sv w filename content guide_id callback_url fs) in
  (allowed (config sv) filename = false -> after = fs) /\
  (allowed (config sv) filename = true ->
     (stored ∉ after) /\
     (open_wb w stored = Ok tt ->
        after = snd (process_video w stored gid ({[ stored ]} ∪ fs)) ∖ {[ stored ]}) /\
     (forall e, open_wb w stored = Raise e -> after = fs ∖ {[ stored ]})).
Proof.
  cbv zeta. split.
  - intros Hal. unfold upload_video. fold (allowed (config sv) filename).
    now rewrite Hal.
  - intros Hal. rewrite upload_files by assumption.
    destruct (open_wb w (upload_path sv filename)) as [[]|e0]; split_and!;
      try apply not_in_difference; try discriminate; try reflexivity.
Qed.

(** An accepted upload in debug mode: the five keyframes stay, the upload goes *)
Lemma upload_removes_only_the_upload_witness :
  upload_path (server_with_seed 1) "Lesson.MP4"
  ∉ snd (upload_video (server_with_seed 1)
           (quiet_env (clip (fun _ _ => Ok (Some hd_frame))))
           "Lesson.MP4" abc (Some 7) None ∅).
Proof.
  apply (proj2 (upload_removes_only_the_upload (server_with_seed 1)
                  (quiet_env (clip (fun _ _ => Ok (Some hd_frame))))
                  "Lesson.MP4" abc (Some 7) None ∅)).
  reflexivity.
Defined.

(** ** The extension check *)

Lemma chars_rev_app (s1 s2 : string) :
  list_ascii_of_string (String.rev_app s1 s2)
  = rev (list_ascii_of_string s1) ++ list_ascii_of_string s2.
Proof.
  revert s2. induction s1 as [|c s1 IH]; intros s2; simpl; [reflexivity|].
  rewrite IH. simpl. now rewrite <- app_assoc.
Qed.

Lemma chars_rev (s : string) :
  list_ascii_of_string (String.rev s) = rev (list_ascii_of_string s).
Proof. unfold String.rev. rewrite chars_rev_app. simpl. apply app_nil_r. Qed.

Lemma prefix_chars (p : string) : forall s c,
  String.prefix p s = true ->
  In c (list_ascii_of_string p) -> In c (list_ascii_of_string s).
Proof.
  induction p as [|a p IH]; intros s c Hp Hc; [inversion Hc|].
  destruct s as [|b s]; simpl in Hp; [discriminate|].
  destruct (ascii_dec a b) as [->|]; [|discriminate].
  simpl in *. destruct Hc as [->|Hc]; [now left | right; eauto].
Qed.

(** A suffix brings its characters *)
Lemma endswith_chars (s p : string) (c : ascii) :
  endswith s p = true ->
  In c (list_ascii_of_string p) -> In c (list_ascii_of_string s).
Proof.
  unfold endswith. intros Hp Hc.
  apply in_rev. rewrite <- chars_rev.
  apply (prefix_chars _ _ _ Hp). rewrite chars_rev. now apply in_rev in Hc.
Qed.

Lemma lower_char_not_upper (c : ascii) : is_upper (lower_char c) = false.
Proof.
  unfold lower_char, is_upper.
  destruct ((65 <=? nat_of_ascii c)%nat && (nat_of_ascii c <=? 90)%nat) eqn:E.
  - apply andb_true_iff in E as [H1%Nat.leb_le H2%Nat.leb_le].
    rewrite nat_ascii_embedding by lia.
    apply andb_false_iff. right. apply Nat.leb_gt. lia.
  - exact E.
Qed.

Lemma lower_chars (s : string) (c : ascii) :
  In c (list_ascii_of_string (lower s)) -> is_upper c = false.
Proof.
  unfold lower. rewrite list_ascii_of_string_of_list_ascii.
  intros (c0 & <- & _)%in_map_iff. apply lower_char_not_upper.
Qed.

(** X13. The filename is lowered before the comparison and the
    configured extensions are not: an extension written with a capital
    letter matches no filename at all. When every configured extension has
    one, every upload is refused with HTTP 400 and nothing is written. *)
Theorem capital_extension_never_matches (sv : server) (w : env)
    (filename : string) (content : list byte) (guide_id : option Z)
    (callback_url : option string) (fs : gset string) :
  (forall ext, has_upper ext = true -> endswith (lower filename) ext = false) /\
  ((forall ext, In ext (ALLOWED_EXTENSIONS (config sv)) -> has_upper ext = true) ->
   allowed (config sv) filename = false /\
   exists detail,
     upload_video sv w filename content guide_id callback_url fs
     = (Raise (Exn (HTTPException 400) detail), fs)).
Proof.
  assert (H1 : forall ext, has_upper ext = true ->
                           endswith (lower filename) ext = false).
  { intros ext Hup. destruct (endswith (lower filename) ext) eqn:E; [|reflexivity].
    apply existsb_exists in Hup as (c & Hc & Hu).
    apply (endswith_chars _ _ c E) in Hc. apply lower_chars in Hc. congruence. }
  split; [exact H1|]. intros Hall.
  assert (Hal : allowed (config sv) filename = false).
  { unfold allowed. destruct (existsb _ _) eqn:E; [|reflexivity].
    apply existsb_exists in E as (ext & Hin & He).
    rewrite (H1 ext (Hall ext Hin)) in He. discriminate. }
  split; [exact Hal|].
  unfold upload_video. fold (allowed (config sv) filename). rewrite Hal.
  cbn [negb]. unfold raise. eauto.
Qed.

(** A server configured with [ALLOWED_EXTENSIONS=MP4] refuses [clip.MP4] *)
Lemma capital_extension_never_matches_witness :
  allowed {| DEBUG := false; UPLOAD_FOLDER := "uploads";
             ALLOWED_EXTENSIONS := ["MP4"] |} "clip.MP4" = false.
Proof.
  refine (proj1 (proj2 (capital_extension_never_matches
            {| config := {| DEBUG := false; UPLOAD_FOLDER := "uploads";
                            ALLOWED_EXTENSIONS := ["MP4"] |};
               hash_secret := PyHash.secret_of_seed 0; uuid4 := "u" |}
            (quiet_env unopened_capture) "clip.MP4" [] None None ∅) _)).
  intros ext [<-|[]]. reflexivity.
Defined.

Lemma endswith_empty (s : string) : endswith s "" = true.
Proof. unfold endswith. now destruct (String.rev s). Qed.

Lemma chars_app (s t : string) :
  list_ascii_of_string (s +:+ t) = list_ascii_of_string s ++ list_ascii_of_string t.
Proof. induction s as [|c s IH]; simpl; [reflexivity | now rewrite IH]. Qed.

Lemma split_trailing_comma (l cur : list ascii) :
  In "" (Config.split_comma (l ++ [","%char]) cur).
Proof.
  revert cur. induction l as [|c l IH]; intros cur; simpl.
  - right. now left.
  - destruct (Ascii.eqb c ","); [right|]; apply IH.
Qed.

(** X14. An [ALLOWED_EXTENSIONS] variable that is empty, or ends with a
    comma, puts the empty extension in the set, and every string ends with
    the empty string: with such a setting the check of line 32 accepts every
    filename. *)
Theorem empty_extension_accepts_all (environ : gmap string string)
    (v filename : string) :
  environ !! "ALLOWED_EXTENSIONS" = Some v ->
  v = "" \/ (exists v', v = v' +:+ ",") ->
  In "" (ALLOWED_EXTENSIONS (Config.settings_of environ)) /\
  allowed (Config.settings_of environ) filename = true.
Proof.
  intros Hv Hcases.
  assert (Hin : In "" (ALLOWED_EXTENSIONS (Config.settings_of environ))).
  { unfold Config.settings_of, Config.ALLOWED_EXTENSIONS_of, Config.getenv.
    cbn [ALLOWED_EXTENSIONS]. rewrite Hv. cbn [default].
    destruct Hcases as [-> | [v' ->]].
    - now left.
    - unfold Config.split, id. rewrite chars_app. apply split_trailing_comma. }
  split; [exact Hin|].
  unfold allowed. apply existsb_exists. exists "". split; [exact Hin|].
  apply endswith_empty.
Qed.

(** [ALLOWED_EXTENSIONS=mp4,] lets a text file through *)
Lemma empty_extension_accepts_all_witness :
  allowed (Config.settings_of {[ "ALLOWED_EXTENSIONS" := "mp4," ]}) "notes.txt" = true.
Proof.
  refine (proj2 (empty_extension_accepts_all
                   {[ "ALLOWED_EXTENSIONS" := "mp4," ]} "mp4," "notes.txt" _ _)).
  - apply lookup_singleton_eq.
  - right. exists "mp4". reflexivity.
Defined.

(** * Properties of [interface/app.py] and [api/main.py] *)

(** ** The guide page *)

Lemma get_guide_int (render : Z -> json -> result string)
    (d : list (string * json)) (g g' : Z) :
  field d "guide_id" = Some (JInt g') ->
  Interface.get_guide render g (Some (JObj d))
  = if g' =? g
    then match render g (default (JArr []) (field d "steps")) with
         | Ok html => Interface.Page html
         | Raise e => Interface.LoadError (exc_str e)
         end
    else Interface.GuideNotFound g (JInt g').
Proof.
  intros Hg. unfold Interface.get_guide, get. rewrite Hg. simpl.
  destruct (g' =? g); reflexivity.
Qed.

(** ** The address of a guide *)

Lemma digit_of_char (m : N) :
  (m < 10)%N -> Interface.digit (pretty_N_char m) = Some (Z.of_N m).
Proof.
  intros Hm.
  assert (m = 0 \/ m = 1 \/ m = 2 \/ m = 3 \/ m = 4 \/ m = 5
          \/ m = 6 \/ m = 7 \/ m = 8 \/ m = 9)%N as H by lia.
  repeat (destruct H as [->|H]; [reflexivity|]). subst. reflexivity.
Qed.

Lemma digits_pretty_go (x : N) : forall s,
  Interface.digits 0 (pretty_N_go x s) = Interface.digits (Z.of_N x) s.
Proof.
  induction (N.lt_wf_0 x) as [x _ IH]. intros s.
  destruct (N.eq_dec x 0%N) as [->|Hx]; [reflexivity|].
  rewrite pretty_N_go_step by lia.
  rewrite IH by (apply N.div_lt; lia).
  cbn [Interface.digits]. rewrite digit_of_char by (apply N.mod_lt; lia).
  f_equal. rewrite (N.div_mod x 10) at 3 by lia. lia.
Qed.

Lemma pretty_go_not_empty (x : N) : forall s, s <> "" -> pretty_N_go x s <> "".
Proof.
  induction (N.lt_wf_0 x) as [x _ IH]. intros s Hs.
  destruct (N.eq_dec x 0%N) as [->|Hx]; [exact Hs|].
  rewrite pretty_N_go_step by lia. apply IH; [apply N.div_lt; lia|discriminate].
Qed.

(** The decimal form of an id that is not negative is read back as the id *)
Lemma int_converter_pretty (g : Z) :
  0 <= g -> Interface.int_converter (pretty g) = Some g.
Proof.
  intros Hg. destruct g as [|p|p]; [reflexivity| |lia].
  change (pretty (Z.pos p)) with (pretty (N.pos p)).
  unfold pretty, pretty_N. destruct (decide (N.pos p = 0%N)) as [|_]; [discriminate|].
  rewrite pretty_N_go_step by lia.
  unfold Interface.int_converter.
  destruct (pretty_N_go (N.pos p `div` 10)
              (String (pretty_N_char (N.pos p `mod` 10)) "")) eqn:E.
  - exfalso. revert E. apply pretty_go_not_empty. discriminate.
  - rewrite <- E, <- pretty_N_go_step by lia. now rewrite digits_pretty_go.
Qed.

(** The decimal form of a negative id starts with a sign *)
Lemma int_converter_negative (g : Z) :
  g < 0 -> Interface.int_converter (pretty g) = None.
Proof. intros Hg. destruct g as [|p|p]; [lia..|]. reflexivity. Qed.

Lemma guides_route_pretty (render : Z -> json -> result string) (g : Z)
    (st : Interface.store) :
  0 <= g ->
  Interface.guides_route render (pretty g) st = Interface.get_guide render g st.
Proof.
  intros Hg. unfold Interface.guides_route. now rewrite int_converter_pretty.
Qed.

Lemma guides_route_negative (render : Z -> json -> result string) (g : Z)
    (st : Interface.store) :
  g < 0 -> Interface.guides_route render (pretty g) st = Interface.NotFound.
Proof.
  intros Hg. unfold Interface.guides_route. now rewrite int_converter_negative.
Qed.



(** X16. The page never shows the steps of a callback sent by
    [video.py]: the payload of [send_callback] carries them under [result],
    the page reads [steps]. So at the address of the payload's guide (an id
    below [10^4300]) the template is rendered with the empty list, whatever
    the result was, or, for an id below zero, the router answers 404; and no
    address at all gets a page rendered with anything but the empty list. *)
Theorem video_callback_shows_no_steps (post : string -> payload -> result Z)
    (render : Z -> json -> result string)
    (callback_url : string) (res : value) (guide_id : Z)
    (url : string) (body : payload) :
  In (Post url body) (send_callback_events post callback_url res guide_id) ->
  (guide_id < 10 ^ 4300 ->
   Interface.guides_route render (pretty guide_id) (Some (of_payload body))
   = if guide_id <? 0 then Interface.NotFound
     else match render guide_id (JArr []) with
          | Ok html => Interface.Page html
          | Raise e => Interface.LoadError (exc_str e)
          end) /\
  (forall segment html,
     Interface.guides_route render segment (Some (of_payload body))
       = Interface.Page html ->
     render guide_id (JArr []) = Ok html).
Proof.
  intros Hin.
  assert (Hg : pl_guide_id body = guide_id).
  { destruct (callback_events_cases post callback_url res guide_id)
      as (lv & msg & [Hev | Hev]); rewrite Hev in Hin.
    - destruct Hin as [H|[]]; discriminate.
    - destruct Hin as [H|[H|[]]]; [|discriminate]. now injection H as _ <-. }
  assert (Hpage : forall g,
            Interface.get_guide render g (Some (of_payload body))
            = if guide_id =? g
              then match render g (JArr []) with
                   | Ok html => Interface.Page html
                   | Raise e => Interface.LoadError (exc_str e)
                   end
              else Interface.GuideNotFound g (JInt guide_id)).
  { intros g. unfold of_payload.
    rewrite (get_guide_int render _ g (pl_guide_id body)) by reflexivity.
    now rewrite Hg. }
  split.
  - intros _. destruct (Z.ltb_spec guide_id 0) as [Hneg|Hpos].
    + now apply guides_route_negative.
    + rewrite guides_route_pretty by assumption.
      now rewrite Hpage, Z.eqb_refl.
  - intros segment html. unfold Interface.guides_route.
    destruct (Interface.int_converter segment) as [g|]; [|discriminate].
    rewrite Hpage. destruct (Z.eqb_spec guide_id g) as [<-|_]; [|discriminate].
    destruct (render guide_id (JArr [])) as [h|e]; [|discriminate].
    now intros [= <-].
Qed.

(** A dict result that has a step list of its own, posted and then viewed *)
Lemma video_callback_shows_no_steps_witness :
  Interface.guides_route (fun _ steps => Ok "<html>") "7"
    (Some (of_payload {| pl_guide_id := 7; pl_status := "completed";
                         pl_result := VDict [(KStr "steps", VList [VBool true])];
                         pl_timestamp := None |}))
  = Interface.Page "<html>".
Proof.
  refine (proj1 (video_callback_shows_no_steps (fun _ _ => Ok 200)
           (fun _ _ => Ok "<html>")
           "http://viewer/callbacks/steps"
           (VDict [(KStr "steps", VList [VBool true])]) 7
           "http://viewer/callbacks/steps" _ _) _).
  - left. reflexivity.
  - reflexivity.
Defined.

(** ** The API service *)

(** What a served request is made of *)
Lemma served_shape (req : Api.request) (sv : Api.served) :
  Api.process_video req = Api.Returned sv ->
  exists gid url,
    sv = {| Api.response := Api.response_data gid;
            Api.callback_to := url;
            Api.callback_body := Api.response_data gid |}.
Proof.
  unfold Api.process_video.
  destruct (contains (Api.content_type req) "multipart/form-data").
  - destruct (Api.has_file req); cbn [negb]; [|discriminate].
    destruct (Api.form_guide_id req) as [g|]; [|discriminate].
    destruct (Api.form_callback_url req) as [url|]; [|discriminate].
    destruct ((g =? 0) || String.eqb url ""); [discriminate|].
    intros [= <-]. eauto.
  - destruct (contains (Api.content_type req) "application/json"); [|discriminate].
    unfold mbind, Api.outcome_bind.
    destruct (Api.json_body req) as [body| |]; [|discriminate..].
    destruct (Api.all_keys_in ["video_url"; "guide_id"; "callback_url"] body)
      as [[]| |]; cbn [negb]; [|discriminate..].
    destruct (Api.getitem body "guide_id") as [gid| |]; [|discriminate..].
    destruct (Api.getitem body "callback_url") as [url| |]; [|discriminate..].
    intros [= <-]. eauto.
Qed.

(** X17. A multipart request is served exactly when it has a file, a
    guide id other than 0 and a callback URL other than the empty string;
    every other multipart request is refused with HTTP 422. A guide id of 0
    is refused like a missing one. The response of a served request
    repeats the guide id and lists the three fixed steps. *)
Theorem multipart_requirements (req : Api.request) :
  contains (Api.content_type req) "multipart/form-data" = true ->
  (forall sv, Api.process_video req = Api.Returned sv <->
     Api.has_file req = true /\
     exists g url,
       Api.form_guide_id req = Some g /\ g <> 0 /\
       Api.form_callback_url req = Some url /\ url <> "" /\
       sv = {| Api.response := Api.response_data (JInt g);
               Api.callback_to := JStr url;
               Api.callback_body := Api.response_data (JInt g) |}) /\
  ((forall sv, Api.process_video req <> Api.Returned sv) ->
     exists detail, Api.process_video req = Api.HttpError 422 detail) /\
  (Api.form_guide_id req = Some 0 ->
     Api.process_video req
     = Api.HttpError 422 (if Api.has_file req
                          then "guide_id and callback_url are required"
                          else "File must be provided for form upload")).
Proof.
  intros Hct. unfold Api.process_video. rewrite Hct.
  destruct (Api.has_file req); cbn [negb].
  - destruct (Api.form_guide_id req) as [g|].
    + destruct (Api.form_callback_url req) as [url|].
      * destruct (Z.eqb_spec g 0) as [->|Hg]; simpl.
        -- split_and!.
           ++ intros sv. split; [discriminate|].
              intros (_ & g & url' & [= <-] & Hg & _). lia.
           ++ eauto.
           ++ reflexivity.
        -- destruct (String.eqb_spec url "") as [->|Hu].
           ++ split_and!.
              ** intros sv. split; [discriminate|].
                 intros (_ & g' & url' & _ & _ & [= <-] & Hu & _). congruence.
              ** eauto.
              ** intros [= ->]. lia.
           ++ split_and!.
              ** intros sv. split.
                 --- intros [= <-]. split; [reflexivity|]. exists g, url. auto.
                 --- intros (_ & g' & url' & [= <-] & _ & [= <-] & _ & ->). reflexivity.
              ** intros H. exfalso. eapply H. reflexivity.
              ** intros [= ->]. lia.
      * split_and!.
        -- intros sv. split; [discriminate|].
           intros (_ & g' & url' & _ & _ & [=] & _).
        -- eauto.
        -- intros [= ->]. reflexivity.
    + split_and!.
      * intros sv. split; [discriminate|]. intros (_ & g' & url' & [=] & _).
      * eauto.
      * discriminate.
  - split_and!.
    + intros sv. split; [discriminate|]. intros ([=] & _).
    + eauto.
    + reflexivity.
Qed.

(** A form with a file, a callback URL and guide id 0 *)
Lemma multipart_requirements_witness :
  Api.process_video
    {| Api.content_type := "multipart/form-data; boundary=x";
       Api.has_file := true; Api.form_guide_id := Some 0;
       Api.form_callback_url := Some "http://viewer/callbacks/steps";
       Api.json_body := Api.Uncaught "JSONDecodeError" "Expecting value" |}
  = Api.HttpError 422 "guide_id and callback_url are required".
Proof.
  refine (proj2 (proj2 (multipart_requirements _ _)) _); reflexivity.
Defined.

Lemma key_in_object (d : list (string * json)) (k : string) :
  Api.key_in k (JObj d)
  = Api.Returned (match field d k with Some _ => true | None => false end).
Proof.
  unfold Api.key_in. f_equal. destruct (field d k).
  - apply bool_decide_eq_true_2. eauto.
  - apply bool_decide_eq_false_2. intros [x [=]].
Qed.

Lemma not_object_not_served (req : Api.request) (body : json) (sv : Api.served) :
  contains (Api.content_type req) "multipart/form-data" = false ->
  Api.json_body req = Api.Returned body ->
  Api.process_video req = Api.Returned sv ->
  exists d, body = JObj d.
Proof.
  intros Hm Hb. unfold Api.process_video. rewrite Hm, Hb.
  destruct (contains (Api.content_type req) "application/json"); [|discriminate].
  unfold mbind, Api.outcome_bind.
  destruct body as [| b | n | s | l | d]; try discriminate; [| |eauto].
  - destruct (Api.all_keys_in _ (JStr s)) as [[]| |]; cbn; intros [=].
  - destruct (Api.all_keys_in _ (JArr l)) as [[]| |]; cbn; intros [=].
Qed.

(** X18. A JSON request is served exactly when its body is an object
    that has the three keys [video_url], [guide_id] and [callback_url]; the
    values are not looked at, so a guide id of any JSON type, [null]
    included, is repeated in the response as it came, and the video URL is
    never read. A body that is not an object is never served. *)
Theorem json_requirements (req : Api.request) (body : json) :
  contains (Api.content_type req) "multipart/form-data" = false ->
  contains (Api.content_type req) "application/json" = true ->
  Api.json_body req = Api.Returned body ->
  forall sv, Api.process_video req = Api.Returned sv <->
    exists d gid url,
      body = JObj d /\ is_Some (field d "video_url") /\
      field d "guide_id" = Some gid /\ field d "callback_url" = Some url /\
      sv = {| Api.response := Api.response_data gid;
              Api.callback_to := url;
              Api.callback_body := Api.response_data gid |}.
Proof.
  intros Hm Hj Hb sv. split.
  - intros Hsv.
    destruct (not_object_not_served req body sv Hm Hb Hsv) as [d ->].
    revert Hsv. unfold Api.process_video. rewrite Hm, Hj, Hb.
    unfold mbind, Api.outcome_bind. cbn [Api.all_keys_in].
    unfold mbind, Api.outcome_bind. rewrite !key_in_object.
    unfold Api.getitem.
    destruct (field d "video_url") as [v|] eqn:Hv; [|discriminate].
    destruct (field d "guide_id") as [gid|] eqn:Hg; [|discriminate].
    destruct (field d "callback_url") as [url|] eqn:Hu; [|discriminate].
    cbn [negb]. intros [= <-]. exists d, gid, url.
    split_and!; [reflexivity | now rewrite Hv | assumption | assumption | reflexivity].
  - intros (d & gid & url & -> & [v Hv] & Hg & Hu & ->).
    unfold Api.process_video. rewrite Hm, Hj, Hb.
    unfold mbind, Api.outcome_bind. cbn [Api.all_keys_in].
    unfold mbind, Api.outcome_bind. rewrite !key_in_object.
    unfold Api.getitem. rewrite Hv, Hg, Hu. reflexivity.
Qed.

(** A body whose guide id is [null] *)
Lemma json_requirements_witness :
  Api.process_video
    {| Api.content_type := "application/json"; Api.has_file := false;
       Api.form_guide_id := None; Api.form_callback_url := None;
       Api.json_body :=
         Api.Returned (JObj [("video_url", JInt 0); ("guide_id", JNull);
                             ("callback_url", JStr "http://viewer/callbacks/steps")]) |}
  = Api.Returned {| Api.response := Api.response_data JNull;
                    Api.callback_to := JStr "http://viewer/callbacks/steps";
                    Api.callback_body := Api.response_data JNull |}.
Proof.
  apply (proj2 (json_requirements
    {| Api.content_type := "application/json"; Api.has_file := false;
       Api.form_guide_id := None; Api.form_callback_url := None;
       Api.json_body :=
         Api.Returned (JObj [("video_url", JInt 0); ("guide_id", JNull);
                             ("callback_url", JStr "http://viewer/callbacks/steps")]) |}
    (JObj [("video_url", JInt 0); ("guide_id", JNull);
           ("callback_url", JStr "http://viewer/callbacks/steps")])
    eq_refl eq_refl eq_refl _)).
  eexists _, _, _. split_and!; [reflexivity | | reflexivity..].
  eexists. reflexivity.
Defined.

(** X19. Whatever is uploaded or named by URL, a request that the
    endpoint serves came with the header [Bearer] followed by the API key,
    and gets the same three steps; the callback the handler sends carries
    the very data of the response. *)
Theorem served_requests (API_KEY api_key_header : string) (req : Api.request)
    (sv : Api.served) :
  Api.endpoint API_KEY api_key_header req = Api.Returned sv ->
  api_key_header = "Bearer " +:+ API_KEY /\
  Api.callback_body sv = Api.response sv /\
  exists gid, Api.response sv = JObj [("guide_id", gid); ("steps", Api.fixed_steps)].
Proof.
  unfold Api.endpoint, Api.get_api_key.
  destruct (String.eqb_spec api_key_header ("Bearer " +:+ API_KEY)) as [He|He];
    cbn [negb]; [|discriminate].
  unfold mbind, Api.outcome_bind. intros Hsv.
  destruct (served_shape req sv Hsv) as (gid & url & ->).
  split_and!; [assumption | reflexivity | exists gid; reflexivity].
Qed.

(** The default key and a complete form *)
Lemma served_requests_witness :
  "Bearer stepwize_test" = "Bearer " +:+ "stepwize_test".
Proof.
  refine (proj1 (served_requests "stepwize_test" "Bearer stepwize_test"
            {| Api.content_type := "multipart/form-data; boundary=x";
               Api.has_file := true; Api.form_guide_id := Some 7;
               Api.form_callback_url := Some "http://viewer/callbacks/steps";
               Api.json_body := Api.Uncaught "JSONDecodeError" "Expecting value" |}
            _ _)).
  reflexivity.
Defined.

(** X20. The callback of a request served for the integer guide id [g],
    once saved by the receiver, is shown with the three fixed steps at the
    address of [g] when [g] is an id an address can name (not negative, and
    below [10^4300]); for [g] below zero the router answers 404 there. No
    other address shows it: the address of another such id answers that the
    guide is not found, and whatever address gets a page is one that reads
    as [g] and gets the page of the three fixed steps. *)
Theorem api_callback_is_viewable (render : Z -> json -> result string)
    (req : Api.request) (sv : Api.served) (g : Z) (st : Interface.store) :
  Api.process_video req = Api.Returned sv ->
  Api.response sv = Api.response_data (JInt g) ->
  let st' := snd (Interface.receive_callback (Ok (Api.callback_body sv)) (Ok tt) st) in
  (0 <= g < 10 ^ 4300 ->
   Interface.guides_route render (pretty g) st'
   = match render g Api.fixed_steps with
     | Ok html => Interface.Page html
     | Raise e => Interface.LoadError (exc_str e)
     end) /\
  (g < 0 -> Interface.guides_route render (pretty g) st' = Interface.NotFound) /\
  (forall g', g' <> g -> 0 <= g' < 10 ^ 4300 ->
     Interface.guides_route render (pretty g') st' = Interface.GuideNotFound g' (JInt g)) /\
  (forall segment html,
     Interface.guides_route render segment st' = Interface.Page html ->
     Interface.int_converter segment = Some g /\
     render g Api.fixed_steps = Ok html).
Proof.
  intros Hsv Hresp. destruct (served_shape req sv Hsv) as (gid & url & ->).
  simpl in Hresp. injection Hresp as ->. cbv zeta. simpl snd. simpl Api.callback_body.
  unfold Api.response_data. split_and!.
  - intros [Hg _]. rewrite guides_route_pretty by assumption.
    rewrite (get_guide_int render _ g g) by reflexivity.
    now rewrite Z.eqb_refl.
  - intros Hg. now apply guides_route_negative.
  - intros g' Hne [Hg' _]. rewrite guides_route_pretty by assumption.
    rewrite (get_guide_int render _ g' g) by reflexivity.
    now rewrite (proj2 (Z.eqb_neq g g')) by congruence.
  - intros segment html. unfold Interface.guides_route.
    destruct (Interface.int_converter segment) as [g'|]; [|discriminate].
    rewrite (get_guide_int render _ g' g) by reflexivity.
    destruct (Z.eqb_spec g g') as [<-|_]; [|discriminate].
    change (default (JArr []) (field [("guide_id", JInt g); ("steps", Api.fixed_steps)]
                                 "steps")) with Api.fixed_steps.
    destruct (render g Api.fixed_steps) as [h|e]; [|discriminate].
    intros [= <-]. split; reflexivity.
Qed.

(** Guide 7 served from a form, then viewed *)
Lemma api_callback_is_viewable_witness :
  Interface.guides_route (fun _ _ => Ok "<html>") "7"
    (Some (Api.response_data (JInt 7)))
  = Interface.Page "<html>".
Proof.
  refine (proj1 (api_callback_is_viewable (fun _ _ => Ok "<html>")
            {| Api.content_type := "multipart/form-data; boundary=x";
               Api.has_file := true; Api.form_guide_id := Some 7;
               Api.form_callback_url := Some "http://viewer/callbacks/steps";
               Api.json_body := Api.Uncaught "JSONDecodeError" "Expecting value" |}
            {| Api.response := Api.response_data (JInt 7);
               Api.callback_to := JStr "http://viewer/callbacks/steps";
               Api.callback_body := Api.response_data (JInt 7) |}
            7 None eq_refl eq_refl) _).
  split; [lia | reflexivity].
Defined.

(** * Two more bounds in [video_processor.py] *)

(** X21. Whatever the video, a list that [process_video] returns has at
    most 6 records, and the order of each is between 1 and 6. *)
Theorem result_at_most_six (w : env) (video_path : string) (guide_id : Z)
    (fs : gset string) (l : list step) :
  fst (process_video w video_path guide_id fs) = Ok l ->
  (length l <= 6)%nat /\
  forall s, In s l -> (1 <= order s <= 6)%nat.
Proof.
  intros Hret. apply returned_list in Hret. cbv zeta in Hret.
  destruct Hret as [Hmock | (frame_count & n & _ & Hn & -> & _)].
  - apply source_mock_inv in Hmock as (frame_count & duration & _ & _ & Hmock).
    apply mock_steps_inv in Hmock as (_ & Hlen & Hl).
    split; [lia|]. intros s Hs.
    apply list_elem_of_In, list_elem_of_lookup in Hs as [k Hk].
    pose proof (lookup_lt_Some _ _ _ Hk) as Hlt.
    rewrite Hl in Hk by assumption. injection Hk as <-. simpl. lia.
  - pose proof (keyframe_num_steps_bounds _ _ _ Hn) as Hb. split.
    + unfold kept_steps. rewrite length_map.
      etransitivity; [apply filter_length_le|]. rewrite range_length. lia.
    + intros s Hs. apply list_elem_of_In, list_elem_of_lookup in Hs as [k Hk].
      apply kept_lookup in Hk as (i & Hi & ->).
      apply filter_seq_lookup in Hi. simpl. lia.
Qed.

(** The clip whose second read fails: four records *)
Lemma result_at_most_six_witness :
  (length [_generate_step_from_position 0 5 ""; _generate_step_from_position 2 5 "";
           _generate_step_from_position 3 5 ""; _generate_step_from_position 4 5 ""]
   <= 6)%nat.
Proof.
  refine (proj1 (result_at_most_six (quiet_env (clip second_read_fails))
                   "lesson.mp4" 7 ∅ _ _)).
  vm_compute. reflexivity.
Defined.


